(* ===== verification/_CoqProject ===== *)
-Q . S2P
Prelude.v
JsRuntime.v
Peaks.v
Analyzer.v
SqrtBridge.v
Timers.v
Alerts.v
DisplayBuffer.v
AppState.v
Playback.v
Scheduler.v
Parse.v
Refinement.v
View.v
Report.v
Controls.v
Cards.v
ReportTimer.v
