(* ===== verification/Prelude.v ===== *)
(** * CardioSense: a verification development of the ECG dashboard core

    The repository is a single React component, [src/src/main.jsx]
    ([App]).  Besides rendering, it contains a signal-processing and
    playback core, which this development models and verifies:

    - the signal analyser [analyzeECGSignal] (lines 175-254): the
      minimum/maximum of the samples, an R-peak scan with a 10-sample
      local-maximum window and a 40-sample refractory distance, R-R
      intervals, their mean and population variance, and a rhythm
      classification made by a chain of overriding [if]s;
    - the alert manager [triggerAlert] (lines 326-335): a state updater
      that suppresses duplicates and keeps at most three alerts, and a
      [setTimeout] that removes the alert by message after 3000 ms;
    - the sliding display window (lines 386-395);
    - the playback scheduler [updateSimulation] (lines 339-400) with the
      animation-frame effect (lines 435-440), the demo-event injector
      [injectDemoEvents] (lines 402-433) and its 4000 ms revert timer;
    - the controls [togglePlay] (294-312), [handleFileUpload] with its
      [reader.onload] callback and the CSV parse of line 273 (259-292),
      [generateReport] (314-324);
    - the decisions of the render code: the status badge, the risk and
      heart-rate colours, the header status, the play icon and the
      coordinates of the ECG trace.
    - the model selector (lines 111-135), the metric cards ([MetricCard],
      lines 62-86, and their uses, 694-758), the alert overlay (616-625)
      and the printed report (778-849), a snapshot of the state taken by
      the report timer.

    How the parts interact: the upload handler checks the file name,
    parses the text into samples, runs the analyser once and caches the
    result in [analysisResult]; each animation frame consumes four
    samples, feeds the display window, jitters the heart rate every 20
    samples and every 300 samples calls the event injector, which
    overrides the displayed rhythm and raises an alert; alert removals,
    the demo revert and the end of the report are [setTimeout] callbacks
    that run later on the same thread.

    ** Files (in dependency order), and what they show

    - [Prelude] (this file): the [ecg_scope] notations [<js] and [<=js]
      for JavaScript comparisons, the [ecg] hint database, the tactics
      [destr_js] and [solve_concrete], [Proper] instances for rewriting
      modulo [Qeq], and generic lemmas on sums and integer ranges.
    - [JsRuntime]: the JavaScript built-ins the code calls, written from
      the language standard (array reads yielding [undefined],
      [Math.max(...)]/[Math.min(...)], [Math.round], [slice(-k)],
      [includes], [toLowerCase]).  Not code of the repository: no map
      entry.
    - [Peaks]: the peak scan (lines 184-205) loop for loop, with
      [isMax_loop] and its [break]; it equals a reference (window
      candidates, then a greedy refractory filter) (C4), and its peaks
      are spaced (C3), sound (C5) and complete up to the refractory
      distance (C6); ties count as maxima ([findPeaks_plateau]).
    - [Analyzer]: all of [analyzeECGSignal]; the short cuts for a flat
      signal and for fewer than two peaks (C1, C2), well-formed results
      (C7), the classification as an ordered decision table (C8), the
      verdict on regular, irregular and noisy beat trains (C9-C11), and
      R-R intervals always above 200 ms (C36).
    - [SqrtBridge]: the model tests [100 * 100 < variance]; the code
      tests [Math.sqrt(variance) > 100]; they agree over the reals
      ([sdnn_test_sqrt], the justification of that modelling choice).
    - [Timers]: the host's [setTimeout] queue (earliest deadline first,
      ties in scheduling order), from the HTML timer semantics, generic
      in the callback and the state; not code of the repository.  A
      simulation lemma [fire_due_sim]: a pass over a queue and over its
      projection to the callbacks of one owner run the same callbacks.
    - [Alerts]: the alert manager as a state [AlertManager] with a clock
      and a timer queue, its step relation and reachable states: at most
      three distinct alerts (C12), expiry (C13), duplicate suppression
      and eviction of the oldest (C14, C15); removal timers are keyed by
      message, so after any run a trigger's timer removes every alert
      with its message, one shown again after a suppressed duplicate
      included (C16); colliding ids
      ([alert_ids_collide]).
    - [DisplayBuffer]: the display updater implements the class
      [SlidingWindow] (the last 600 samples, [feed_is_last_window]).
    - [AppState]: the record [App] of the component's state and refs
      (twenty fields; [nowMs] and [timeouts] are the host's clock and
      timer queue), one setter per [useState] setter or ref write.
    - [Playback]: every handler as a function [App -> App] whose setter
      calls follow the code; [Math.random()] is an input list of draws;
      the event source is the class [EventSource].
    - [Scheduler]: a frame (C17; the completion frame,
      [frame_completes]), replay (C18), termination within
      [ceil((n - i) / 4) + 1] frames (C19), the invariant of every
      reachable state of the step relation [app_step] (C20), a run with
      a stale demo revert after completion ([stale_revert_trace]), a
      recording without samples that never completes (C29), upload
      validation (C30), the jitter bound (C31).
    - [Parse]: line 273 with [split] and [parseFloat] from the language
      standard; printed decimal literals parse back (C35); the filter
      keeps [Infinity] ([parse_rows_example]).
    - [Refinement]: the whole page refines the alert manager: the
      projection [am_of] (clock, [alerts], the pending removal timers)
      of every [app_step] is matched by zero or more steps of the
      abstract [AlertManager] (C21), so its theorems carry over to the
      page: every alert on screen is younger than 3000 ms (C22).  The
      display: any run of frames shows the last 600 of the old display
      followed by exactly the samples consumed (C23), and in every
      reachable state the newest samples on screen are the last ones
      consumed of the current recording (C24).
    - [View]: the render decisions: no analysis gets the critical badge
      (C32), the gauge and the risk figure disagree exactly at 0, 40 and
      70 (C33), the trace stays in the view box (C34); the heart-rate
      card agrees with the rate tiers ([hr_card_agrees]), what the stale
      revert shows ([stale_revert_display]).
    - [Report]: the model selector, the monitor labels, the metrics
      cards and the printed report as a
      snapshot of the state, the patient id; the report is printed from
      the state 1500 ms after the request, with what playback injected
      meanwhile ([report_prints_later]).
    - [Controls]: the header's status dot, play button and report
      button, the confidence figure and bar, the gauge fill; the
      invariant [ui_inv] of the reachable states ties "Analysis
      Complete" to the end of playback: the replay icon means stopped at
      the end, and a click restarts from 0 (C25); the three bars stay
      within their track ([bars_within_track]); the demo revert tests
      the [isPlaying] captured at injection, so in every reachable state
      where playback has stopped with such a revert pending, its firing
      replaces "Analysis Complete" on the stopped recording (C28).
    - [Cards]: [MetricCard] with [colorMap], [split], [slice], [join]
      and [pop], the four cards of the page, the risk card and the alert
      overlay; the gauge's fill against its zones ([gauge_fill_zone]).
    - [ReportTimer]: the report timers in the host's queue: exactly one
      while [isGeneratingReport] holds, none otherwise (C26), and a
      pending report always ends 1500 ms later (C27).

    ** Modelling choices

    A handler's setter calls are applied in order as one transition, and
    [commit] then records the animation-frame effect: a frame is
    requested exactly when [isPlaying] holds.  The frame callback reads
    the current state, as the effect re-registers it whenever a state it
    reads changes; the one closure that keeps an old state, the demo
    revert, captures [isPlaying] and [analysisResult] explicitly
    ([cb_revert]).  Alert ids are the host clock [nowMs].  A click on a
    [disabled] button fires nothing: the report step requires
    [report_disabled] to be false (line 566).

    ** Numbers

    JavaScript numbers are IEEE doubles.  Samples, thresholds, intervals
    and rates are exact rationals [Q]; indices and counters (far below
    2^53 in the code) are [Z] or [nat]; risk scores are [Z].  Rounding
    of doubles is not modelled: the theorems describe the algorithm on
    exact arithmetic.  [NaN] never reaches the analyser (the parser
    filters it); a parsed [Infinity] is outside the [App] model.

    ** Fuel and loops

    Every loop of the code has a bound known at entry: the peak scan
    runs [data.length - 20] times, the window check 10 times, the frame
    loop 4 times, a timer pass at most once per queued timer (callbacks
    never schedule timers).  Each is a structural [Fixpoint] on that
    count, computed as the loop condition computes it, so no fuel can
    run out and every definition evaluates with [vm_compute].  Sequences
    of frames take their number from the list of draws; C19 states how
    many suffice.

    ** Not modelled

    The static JSX markup and CSS (layout, footer, SVG gradient), the
    Tailwind build (the card glow [bg-${color}-500/10] is a class built
    at run time), [formatDate] (its text comes from the host's [Intl]
    locale data), the alert's [toLocaleTimeString()], [window.print] itself, the React
    scheduler itself (render batching, effect ordering), Unicode white
    space in [parseFloat], and the [Math.max(...data)] argument limit
    (a [RangeError] for long recordings, reported as a finding).
*)

From Stdlib Require Import String QArith Qround List ZArith Lia Lqa Bool.
From Stdlib Require Import Morphisms Sorted.
Import ListNotations.
Open Scope Q_scope.

(** ** JavaScript comparisons on numbers

    [a < b] and [a <= b] of JavaScript, on numbers, as booleans. *)

Declare Scope ecg_scope.
Delimit Scope ecg_scope with ecg.

Definition js_lt (a b : Q) : bool := negb (Qle_bool b a).
Definition js_le (a b : Q) : bool := Qle_bool a b.

Notation "a <js b" := (js_lt a b) (at level 65, no associativity) : ecg_scope.
Notation "a <=js b" := (js_le a b) (at level 65, no associativity) : ecg_scope.

Create HintDb ecg discriminated.

Open Scope ecg_scope.

Lemma js_ltP (a b : Q) : reflect (a < b)%Q (a <js b).
Proof.
  unfold js_lt. destruct (Qle_bool b a) eqn:E; constructor.
  - apply Qle_bool_iff in E. apply Qle_not_lt. exact E.
  - apply Qnot_le_lt. intro H. apply Qle_bool_iff in H. congruence.
Qed.

Lemma js_leP (a b : Q) : reflect (a <= b)%Q (a <=js b).
Proof.
  unfold js_le. destruct (Qle_bool a b) eqn:E; constructor.
  - now apply Qle_bool_iff.
  - intro H. apply Qle_bool_iff in H. congruence.
Qed.

Lemma js_lt_true (a b : Q) : (a < b)%Q -> a <js b = true.
Proof. intro H. now destruct (js_ltP a b). Qed.

Lemma js_lt_false (a b : Q) : (b <= a)%Q -> a <js b = false.
Proof. intro H. destruct (js_ltP a b); [|reflexivity]. exfalso. lra. Qed.

Lemma js_le_true (a b : Q) : (a <= b)%Q -> a <=js b = true.
Proof. intro H. now destruct (js_leP a b). Qed.

Lemma js_le_false (a b : Q) : (b < a)%Q -> a <=js b = false.
Proof. intro H. destruct (js_leP a b); [|reflexivity]. exfalso. lra. Qed.

#[export] Hint Resolve js_lt_true js_lt_false js_le_true js_le_false : ecg.

(** The comparisons respect rational equality, so results computed
    through different representations of the same rational agree. *)

#[export] Instance js_lt_proper : Proper (Qeq ==> Qeq ==> eq) js_lt.
Proof.
  unfold Proper, respectful. intros a a' Ha b b' Hb.
  destruct (js_ltP a b), (js_ltP a' b'); try reflexivity;
    exfalso; rewrite Ha, Hb in *; contradiction.
Qed.

#[export] Instance js_le_proper : Proper (Qeq ==> Qeq ==> eq) js_le.
Proof.
  unfold Proper, respectful. intros a a' Ha b b' Hb.
  destruct (js_leP a b), (js_leP a' b'); try reflexivity;
    exfalso; rewrite Ha, Hb in *; contradiction.
Qed.

(** [destr_js] case-splits on the first JavaScript comparison of the goal
    and turns it into the rational (in)equality it decides. *)
Ltac destr_js :=
  match goal with
  | |- context [js_lt ?a ?b] => destruct (js_ltP a b)
  | |- context [js_le ?a ?b] => destruct (js_leP a b)
  end.

(** [solve_concrete] closes a goal about closed terms by evaluation. *)
Ltac solve_concrete :=
  vm_compute;
  first [ reflexivity | discriminate | intros; discriminate | lia
        | repeat constructor ].

(** ** Integer ranges

    [zrange a n] is the list of the [n] integers [a, a+1, ...], the
    values taken by a loop variable [for (let i = a; ...; i++)] that
    runs [n] times. *)

Fixpoint zrange (a : Z) (n : nat) : list Z :=
  match n with
  | O => []
  | S n' => a :: zrange (a + 1) n'
  end.

Lemma in_zrange (a x : Z) (n : nat) :
  In x (zrange a n) <-> (a <= x < a + Z.of_nat n)%Z.
Proof.
  revert a. induction n as [|n IH]; intro a; simpl.
  - lia.
  - rewrite IH. lia.
Qed.

Lemma zrange_S_r (a : Z) (n : nat) :
  zrange a (S n) = zrange a n ++ [(a + Z.of_nat n)%Z].
Proof.
  revert a. induction n as [|n IH]; intro a; simpl.
  - f_equal. f_equal. lia.
  - simpl in IH. rewrite IH. do 3 f_equal. lia.
Qed.

Lemma zrange_sorted (a : Z) (n : nat) : StronglySorted Z.lt (zrange a n).
Proof.
  revert a. induction n as [|n IH]; intro a; simpl; constructor; [apply IH|].
  apply Forall_forall. intros x Hx. apply in_zrange in Hx. lia.
Qed.

Lemma StronglySorted_filter {A} (R : A -> A -> Prop) (f : A -> bool) (l : list A) :
  StronglySorted R l -> StronglySorted R (filter f l).
Proof.
  induction 1 as [|x l _ IH Hx]; simpl; [constructor|].
  destruct (f x); [|exact IH]. constructor; [exact IH|].
  apply Forall_forall. intros y Hy. apply filter_In in Hy.
  rewrite Forall_forall in Hx. now apply Hx.
Qed.

#[export] Hint Resolve zrange_sorted StronglySorted_filter : ecg.

(** ** Rational arithmetic *)

Lemma Qsquare_nonneg (x : Q) : 0 <= x * x.
Proof.
  destruct (Qlt_le_dec x 0) as [H|H].
  - setoid_replace (x * x) with ((- x) * (- x)) by ring.
    apply Qmult_le_0_compat; lra.
  - now apply Qmult_le_0_compat.
Qed.

#[export] Hint Resolve Qsquare_nonneg : ecg.

(** ** Sums over lists of rationals

    [arr.reduce((a, b) => a + b, 0)] is [fold_left Qplus arr 0]. *)

Lemma fold_left_Qplus_acc (l : list Q) (a : Q) :
  fold_left Qplus l a == a + fold_left Qplus l 0.
Proof.
  revert a. induction l as [|x l IH]; intro a; simpl.
  - lra.
  - rewrite (IH (a + x)), (IH (0 + x)). lra.
Qed.

Lemma fold_left_Qplus_cons (x : Q) (l : list Q) :
  fold_left Qplus (x :: l) 0 == x + fold_left Qplus l 0.
Proof. simpl. rewrite fold_left_Qplus_acc. lra. Qed.

(** A sum whose terms are all equal to [c] is [length * c]. *)
Lemma fold_left_Qplus_const (l : list Q) (c : Q) :
  Forall (fun x => x == c) l ->
  fold_left Qplus l 0 == inject_Z (Z.of_nat (length l)) * c.
Proof.
  induction 1 as [|x l Hx _ IH].
  - simpl. ring.
  - assert (Hx' : x == c) by exact Hx.
    replace (Z.of_nat (length (x :: l))) with (Z.of_nat (length l) + 1)%Z
      by (simpl; lia).
    rewrite fold_left_Qplus_cons, IH, Hx', inject_Z_plus. ring.
Qed.

(** A sum of non-negative terms is non-negative; of positive terms over a
    non-empty list, positive. *)
Lemma fold_left_Qplus_nonneg (l : list Q) :
  Forall (fun x => 0 <= x) l -> 0 <= fold_left Qplus l 0.
Proof.
  induction 1 as [|x l Hx _ IH]; simpl; [lra|].
  cbv beta in Hx. rewrite fold_left_Qplus_acc. lra.
Qed.

Lemma fold_left_Qplus_pos (l : list Q) :
  l <> [] -> Forall (fun x => 0 < x) l -> 0 < fold_left Qplus l 0.
Proof.
  intros Hne H. destruct H as [|x l Hx Hl]; [congruence|].
  cbv beta in Hx. rewrite fold_left_Qplus_cons.
  assert (0 <= fold_left Qplus l 0).
  { apply fold_left_Qplus_nonneg. eapply Forall_impl; [|exact Hl].
    intros y Hy. cbv beta in *. lra. }
  lra.
Qed.

(** [arr.reduce((acc, v) => acc + h(v), a)] is the sum of the mapped array. *)
Lemma fold_left_Qplus_map {A} (h : A -> Q) (l : list A) (a : Q) :
  fold_left (fun acc v => acc + h v) l a = fold_left Qplus (map h l) a.
Proof. revert a. induction l as [|x l IH]; intro a; simpl; auto. Qed.

(** Every term above [c]: the sum of a non-empty list exceeds [length * c]. *)
Lemma fold_left_Qplus_lower (l : list Q) (c : Q) :
  l <> [] -> Forall (fun x => c < x) l ->
  inject_Z (Z.of_nat (length l)) * c < fold_left Qplus l 0.
Proof.
  intros Hne H. induction H as [|x l Hx Hl IH]; [congruence|]. cbv beta in Hx.
  replace (Z.of_nat (length (x :: l))) with (Z.of_nat (length l) + 1)%Z by (simpl; lia).
  rewrite fold_left_Qplus_cons, inject_Z_plus.
  destruct l as [|y l].
  { change (inject_Z (Z.of_nat (length (@nil Q)))) with 0.
    change (fold_left Qplus [] 0) with 0. change (inject_Z 1) with 1. lra. }
  specialize (IH ltac:(discriminate)). change (inject_Z 1) with 1. lra.
Qed.

(** Dropping [n] elements leaves the [n]-th in front. *)
Lemma skipn_nth_cons {A} (n : nat) (l : list A) (d : A) :
  (n < length l)%nat -> skipn n l = nth n l d :: skipn (S n) l.
Proof.
  revert l. induction n as [|n IH]; intros [|x l] H; simpl in *; try lia; auto.
  apply IH. lia.
Qed.

(** ** Consecutive elements of a list *)

(** [adjacent R l]: every element is related to the next one. *)
Fixpoint adjacent {A} (R : A -> A -> Prop) (l : list A) : Prop :=
  match l with
  | x :: ((y :: _) as rest) => R x y /\ adjacent R rest
  | _ => True
  end.

Lemma adjacent_nth {A} (R : A -> A -> Prop) (l : list A) :
  adjacent R l ->
  forall k x y, nth_error l k = Some x -> nth_error l (S k) = Some y -> R x y.
Proof.
  induction l as [|a l IH]; intros Hadj k x y Hx Hy; [destruct k; discriminate|].
  destruct l as [|b l]; [destruct k as [|[|k]]; discriminate|].
  destruct Hadj as [Hab Hrest]. destruct k as [|k].
  - simpl in Hx, Hy. congruence.
  - exact (IH Hrest k x y Hx Hy).
Qed.

Lemma firstn_add_skipn {A} (n m : nat) (l : list A) :
  firstn (n + m) l = firstn n l ++ firstn m (skipn n l).
Proof.
  revert l. induction n as [|n IH]; intro l; [reflexivity|].
  destruct l as [|x l]; [now rewrite !firstn_nil|]. simpl. now rewrite IH.
Qed.
