(* ===== verification/JsRuntime.v ===== *)
(** * JavaScript built-ins used by [src/src/main.jsx]

    The ECMAScript operations the component calls, written from their
    definitions in the language standard (not from the repository).
    Numbers are exact rationals here (see the header of [Prelude]).
    [undefined] is [None]: an array read out of range yields it, and a
    relational comparison involving it is [false]. *)

From S2P Require Import Prelude.
From Stdlib Require Import String Ascii QArith Qround Qminmax List ZArith Lia Lqa Bool.
From Stdlib Require Import DecimalString Morphisms.
Import ListNotations.
Open Scope Q_scope.
Open Scope ecg_scope.

(** ** Arrays *)

(** [arr[i]]: [undefined] for a negative index or one past the end. *)
Definition js_at {A} (l : list A) (i : Z) : option A :=
  if (i <? 0)%Z then None else nth_error l (Z.to_nat i).

(** [x < y] where either side may be [undefined]: the comparison of
    [undefined] with a number converts it to [NaN], and every
    relational comparison with [NaN] is [false]. *)
Definition js_lt_opt (x y : option Q) : bool :=
  match x, y with
  | Some a, Some b => a <js b
  | _, _ => false
  end.

(** [arr.slice(-k)] for [k > 0]: the last [k] elements, or the whole
    array when it has fewer. *)
Definition js_slice_last {A} (k : nat) (l : list A) : list A :=
  skipn (length l - k) l.

(** [Math.max(...arr)] and [Math.min(...arr)]: [None] stands for the
    [-Infinity] (resp. [Infinity]) returned on an empty array. *)
Definition js_max_spread (l : list Q) : option Q :=
  match l with
  | [] => None
  | x :: xs => Some (fold_left Qmax xs x)
  end.

Definition js_min_spread (l : list Q) : option Q :=
  match l with
  | [] => None
  | x :: xs => Some (fold_left Qmin xs x)
  end.

(** [Math.round(x)]: the integer closest to [x], halves rounded up. *)
Definition js_round (x : Q) : Z := Qfloor (x + (1 # 2)).

(** [Math.pow(x, 2)]. *)
Definition js_pow2 (x : Q) : Q := x * x.

(** [`${n}`] for an integer [n]. *)
Definition js_int_to_string (n : Z) : string :=
  NilZero.string_of_int (Z.to_int n).

(** ** Strings *)

(** [s.includes(t)]. *)
Definition js_includes (s t : string) : bool :=
  match index 0 t s with
  | Some _ => true
  | None => false
  end.

(** [s.toLowerCase()] on ASCII text: [A-Z] mapped to [a-z]. *)
Definition ascii_lower (c : ascii) : ascii :=
  let n := nat_of_ascii c in
  if ((65 <=? n) && (n <=? 90))%nat then ascii_of_nat (n + 32) else c.

Fixpoint js_to_lower (s : string) : string :=
  match s with
  | EmptyString => EmptyString
  | String c s' => String (ascii_lower c) (js_to_lower s')
  end.

(** ** Lemmas *)

Lemma js_at_in {A} (l : list A) (i : Z) :
  (0 <= i < Z.of_nat (length l))%Z ->
  exists x, js_at l i = Some x /\ nth_error l (Z.to_nat i) = Some x.
Proof.
  intro H. unfold js_at. destruct (Z.ltb_spec i 0); [lia|].
  destruct (nth_error l (Z.to_nat i)) eqn:E; [eauto|].
  apply nth_error_None in E. lia.
Qed.

Lemma js_at_out {A} (l : list A) (i : Z) :
  (i < 0 \/ Z.of_nat (length l) <= i)%Z -> js_at l i = None.
Proof.
  intro H. unfold js_at. destruct (Z.ltb_spec i 0); [reflexivity|].
  apply nth_error_None. lia.
Qed.

Lemma js_lt_opt_some (a b : Q) : js_lt_opt (Some a) (Some b) = (a <js b).
Proof. reflexivity. Qed.

Lemma js_slice_last_length {A} (k : nat) (l : list A) :
  length (js_slice_last k l) = Nat.min k (length l).
Proof. unfold js_slice_last. rewrite length_skipn. lia. Qed.

Lemma js_slice_last_suffix {A} (k : nat) (l : list A) :
  exists p, l = p ++ js_slice_last k l.
Proof. exists (firstn (length l - k) l). symmetry. apply firstn_skipn. Qed.

Lemma js_slice_last_incl {A} (k : nat) (l : list A) (x : A) :
  In x (js_slice_last k l) -> In x l.
Proof.
  intro H. destruct (js_slice_last_suffix k l) as [p Hp]. rewrite Hp.
  apply in_or_app. now right.
Qed.

(** The maximum and minimum of a spread array bound every element. *)
Lemma fold_left_Qmax_ge (xs : list Q) (a : Q) :
  a <= fold_left Qmax xs a /\ Forall (fun y => y <= fold_left Qmax xs a) xs.
Proof.
  revert a. induction xs as [|x xs IH]; intro a; simpl; [split; [lra|constructor]|].
  destruct (IH (Qmax a x)) as [H1 H2].
  pose proof (Q.le_max_l a x). pose proof (Q.le_max_r a x).
  split; [lra|]. constructor; [lra|exact H2].
Qed.

Lemma fold_left_Qmin_le (xs : list Q) (a : Q) :
  fold_left Qmin xs a <= a /\ Forall (fun y => fold_left Qmin xs a <= y) xs.
Proof.
  revert a. induction xs as [|x xs IH]; intro a; simpl; [split; [lra|constructor]|].
  destruct (IH (Qmin a x)) as [H1 H2].
  pose proof (Q.le_min_l a x). pose proof (Q.le_min_r a x).
  split; [lra|]. constructor; [lra|exact H2].
Qed.

Lemma js_max_spread_ub (l : list Q) (m : Q) :
  js_max_spread l = Some m -> Forall (fun y => y <= m) l.
Proof.
  destruct l as [|x xs]; simpl; intro H; [discriminate|]. injection H as <-.
  destruct (fold_left_Qmax_ge xs x). constructor; assumption.
Qed.

Lemma js_min_spread_lb (l : list Q) (m : Q) :
  js_min_spread l = Some m -> Forall (fun y => m <= y) l.
Proof.
  destruct l as [|x xs]; simpl; intro H; [discriminate|]. injection H as <-.
  destruct (fold_left_Qmin_le xs x). constructor; assumption.
Qed.

Lemma js_max_min_spread_some (l : list Q) :
  l <> [] -> exists mx mn, js_max_spread l = Some mx /\ js_min_spread l = Some mn.
Proof. destruct l; [congruence|]. intros _. simpl. eauto. Qed.

(** [Math.round] respects rational equality. *)
Lemma js_round_compat (x y : Q) : x == y -> js_round x = js_round y.
Proof. intro H. unfold js_round. apply Qfloor_comp. rewrite H. reflexivity. Qed.

#[export] Instance js_round_proper : Proper (Qeq ==> eq) js_round.
Proof. exact js_round_compat. Qed.

#[export] Hint Resolve js_at_in js_at_out js_max_spread_ub js_min_spread_lb : ecg.
