(* ===== verification/Peaks.v ===== *)
(** * The R-peak scan of [analyzeECGSignal]

    [src/src/main.jsx], lines 184-205: a sample is a peak when it is
    above the threshold, no sample within 10 positions on either side is
    strictly larger, and it lies more than 40 samples after the last
    accepted peak.  The two loops are modelled as they run: the inner
    [for (j = 1; j <= windowSize; j++)] with its [break] is [isMax_loop],
    one iteration of the outer loop is [scan_body], and the outer loop is
    [scan_loop] over the exact iteration count [data.length - 20].

    The reference specification [peaks_ref] separates the two concerns
    (candidates, then a greedy refractory filter); [findPeaks_ref]
    proves that the loop computes it, and the remaining theorems are
    proved on the reference. *)

From S2P Require Import Prelude JsRuntime.
From Stdlib Require Import String QArith List ZArith Lia Lqa Bool Sorted.
Import ListNotations.
Open Scope Q_scope.
Open Scope ecg_scope.

(** ** The code *)

(** [const windowSize = 10;] and the refractory distance [40]. *)
Definition windowSize : Z := 10.
Definition refractory : Z := 40.

Section Scan.

Variable data : list Q.
Variable threshold : Q.

(** [let isMax = true; for (let j = 1; j <= windowSize; j++) {
       if (data[i] < data[i-j] || data[i] < data[i+j]) { isMax = false; break; } }]
    [n] is the number of iterations left, [windowSize - j + 1]. *)
Fixpoint isMax_loop (i j : Z) (n : nat) : bool :=
  match n with
  | O => true
  | S n' =>
      if js_lt_opt (js_at data i) (js_at data (i - j))
         || js_lt_opt (js_at data i) (js_at data (i + j))
      then false
      else isMax_loop i (j + 1) n'
  end.

Definition isMax (i : Z) : bool := isMax_loop i 1 (Z.to_nat windowSize).

(** The loop state: [const peaks = []; let lastPeakIndex = -100;]. *)
Record scan := mkScan { peaks : list Z; lastPeakIndex : Z }.

Definition scan_init : scan := mkScan [] (-100).

(** One iteration of [for (let i = windowSize; i < data.length - windowSize; i++)]. *)
Definition scan_body (st : scan) (i : Z) : scan :=
  if js_lt_opt (Some threshold) (js_at data i) then
    if isMax i then
      if (refractory <? i - lastPeakIndex st)%Z
      then mkScan (peaks st ++ [i]) i
      else st
    else st
  else st.

Fixpoint scan_loop (i : Z) (n : nat) (st : scan) : scan :=
  match n with
  | O => st
  | S n' => scan_loop (i + 1) n' (scan_body st i)
  end.

(** The number of iterations of the outer loop: [i] runs from
    [windowSize] while [i < data.length - windowSize]. *)
Definition scan_count : nat :=
  Z.to_nat (Z.of_nat (length data) - windowSize - windowSize).

Definition findPeaks : list Z :=
  peaks (scan_loop windowSize scan_count scan_init).

(** ** Reference specification *)

(** The window test of one offset [j], as the [if] of the inner loop. *)
Definition window_ok (i j : Z) : bool :=
  negb (js_lt_opt (js_at data i) (js_at data (i - j))
        || js_lt_opt (js_at data i) (js_at data (i + j))).

Definition candidate (i : Z) : bool :=
  js_lt_opt (Some threshold) (js_at data i) && isMax i.

End Scan.

(** Greedy refractory filter: keep a candidate when it is more than
    [refractory] samples after the last kept one. *)
Fixpoint refractory_filter (last : Z) (cands : list Z) : list Z :=
  match cands with
  | [] => []
  | c :: cs =>
      if (refractory <? c - last)%Z
      then c :: refractory_filter c cs
      else refractory_filter last cs
  end.

Definition peaks_ref (data : list Q) (threshold : Q) : list Z :=
  refractory_filter (-100)
    (filter (candidate data threshold) (zrange windowSize (scan_count data))).

(** [spaced d last l]: every element of [l] is more than [d] after the
    one before it, the first more than [d] after [last]. *)
Fixpoint spaced (d last : Z) (l : list Z) : Prop :=
  match l with
  | [] => True
  | x :: xs => (d < x - last)%Z /\ spaced d x xs
  end.

(** A total accessor for stating properties: the sample at a position
    known to be in range. *)
Definition sample (data : list Q) (k : Z) : Q := nth (Z.to_nat k) data 0.

Lemma js_at_sample (data : list Q) (k : Z) :
  (0 <= k < Z.of_nat (length data))%Z -> js_at data k = Some (sample data k).
Proof.
  intro H. destruct (js_at_in data k H) as [x [Hx Hn]]. rewrite Hx.
  unfold sample. f_equal. symmetry. now apply nth_error_nth.
Qed.

#[export] Hint Resolve js_at_sample : ecg.

(** ** The loops against the reference *)

Section ScanFacts.

Variable data : list Q.
Variable threshold : Q.

Lemma isMax_loop_forallb (i j : Z) (n : nat) :
  isMax_loop data i j n = forallb (window_ok data i) (zrange j n).
Proof.
  revert j. induction n as [|n IH]; intro j; simpl; [reflexivity|].
  unfold window_ok at 1. destruct (_ || _); simpl; auto.
Qed.

Lemma scan_body_candidate (st : scan) (i : Z) :
  scan_body data threshold st i =
  if candidate data threshold i then
    if (refractory <? i - lastPeakIndex st)%Z then mkScan (peaks st ++ [i]) i else st
  else st.
Proof.
  unfold scan_body, candidate.
  destruct (js_lt_opt _ _), (isMax data i); reflexivity.
Qed.

Lemma scan_loop_peaks (n : nat) (i : Z) (st : scan) :
  peaks (scan_loop data threshold i n st) =
  peaks st ++ refractory_filter (lastPeakIndex st)
                 (filter (candidate data threshold) (zrange i n)).
Proof.
  revert i st. induction n as [|n IH]; intros i st; simpl.
  - now rewrite app_nil_r.
  - rewrite IH, scan_body_candidate.
    destruct (candidate data threshold i); simpl; [|reflexivity].
    destruct (Z.ltb_spec refractory (i - lastPeakIndex st)); simpl;
      [now rewrite <- app_assoc | reflexivity].
Qed.

(** Reads of the scan stay inside the array. *)
Lemma scan_reads_in_range (i j : Z) :
  In i (zrange windowSize (scan_count data)) -> (0 <= j <= windowSize)%Z ->
  js_at data (i - j) = Some (sample data (i - j)) /\
  js_at data (i + j) = Some (sample data (i + j)).
Proof.
  intros Hi Hj. apply in_zrange in Hi. unfold scan_count, windowSize in *.
  split; apply js_at_sample; lia.
Qed.

End ScanFacts.

(** ** The refractory filter *)

Lemma refractory_filter_spaced (last : Z) (l : list Z) :
  spaced refractory last (refractory_filter last l).
Proof.
  revert last. induction l as [|c l IH]; intro last; simpl; [exact I|].
  destruct (Z.ltb_spec refractory (c - last)); simpl; auto.
Qed.

Lemma refractory_filter_incl (last : Z) (l : list Z) (x : Z) :
  In x (refractory_filter last l) -> In x l.
Proof.
  revert last. induction l as [|c l IH]; intros last H; simpl in *; [exact H|].
  destruct (refractory <? c - last)%Z; [destruct H as [H|H]; [now left|]|];
    right; eapply IH; exact H.
Qed.

Lemma spaced_adjacent (d last : Z) (l : list Z) :
  spaced d last l -> adjacent (fun p q => (d < q - p)%Z) l.
Proof.
  revert last. induction l as [|x l IH]; intros last H; simpl in *; [exact I|].
  destruct l as [|y l]; [exact I|]. destruct H as [_ [Hy Hl]].
  split; [exact Hy|]. apply (IH x). simpl. auto.
Qed.

(** A candidate is dropped only when it lies within [refractory] of the
    last kept one (or of the initial [last]). *)
Lemma refractory_filter_complete (last : Z) (l : list Z) (c : Z) :
  StronglySorted Z.lt l -> Forall (Z.lt last) l ->
  In c l -> ~ In c (refractory_filter last l) ->
  exists p, (p = last \/ In p (refractory_filter last l)) /\ (p < c <= p + refractory)%Z.
Proof.
  revert last. induction l as [|x l IH]; intros last Hs Hl Hc Hn; [destruct Hc|].
  inversion Hs as [|? ? Hs' Hx]; subst. inversion Hl as [|? ? Hlx Hl']; subst.
  simpl in Hn |- *. unfold refractory in *.
  destruct (Z.ltb_spec 40 (x - last)).
  - destruct Hc as [<-|Hc]; [exfalso; apply Hn; now left|].
    destruct (IH x Hs' Hx Hc (fun H => Hn (or_intror H))) as [p [Hp Hr]].
    exists p. split; [|exact Hr]. right. destruct Hp as [->|Hp]; [now left|now right].
  - destruct Hc as [<-|Hc]; [exists last; split; [now left|lia]|].
    apply IH; auto.
Qed.

(** ** The window test and the candidates, on samples in range *)

Section Candidates.

Variable data : list Q.
Variable threshold : Q.

Definition in_scan_range (i : Z) : Prop :=
  (windowSize <= i /\ i + windowSize < Z.of_nat (length data))%Z.

Definition local_max (i : Z) : Prop :=
  forall j, (1 <= j <= windowSize)%Z ->
    sample data (i - j) <= sample data i /\ sample data (i + j) <= sample data i.

Lemma window_ok_spec (i j : Z) :
  in_scan_range i -> (1 <= j <= windowSize)%Z ->
  window_ok data i j = true <->
  sample data (i - j) <= sample data i /\ sample data (i + j) <= sample data i.
Proof.
  unfold in_scan_range, windowSize. intros Hi Hj. unfold window_ok.
  rewrite !js_at_sample by lia. simpl.
  repeat destr_js; simpl; split; intros H; try discriminate; try split; try lra;
    destruct H; lra.
Qed.

Lemma isMax_spec (i : Z) :
  in_scan_range i -> isMax data i = true <-> local_max i.
Proof.
  intro Hi. unfold isMax, local_max. rewrite isMax_loop_forallb, forallb_forall.
  split; intros H j Hj.
  - apply window_ok_spec; [exact Hi|exact Hj|]. apply H, in_zrange.
    unfold windowSize in *. lia.
  - apply in_zrange in Hj. apply window_ok_spec; [exact Hi| |apply H];
      unfold windowSize in *; lia.
Qed.

Lemma candidate_spec (i : Z) :
  in_scan_range i ->
  candidate data threshold i = true <-> threshold < sample data i /\ local_max i.
Proof.
  intro Hi. unfold candidate. rewrite andb_true_iff, <- isMax_spec by exact Hi.
  unfold in_scan_range, windowSize in Hi. rewrite js_at_sample by lia. simpl.
  destr_js; split; intros [H1 H2]; split; auto; try discriminate; lra.
Qed.

Lemma in_scan_zrange (i : Z) :
  In i (zrange windowSize (scan_count data)) <-> in_scan_range i.
Proof. rewrite in_zrange. unfold in_scan_range, scan_count, windowSize. lia. Qed.

End Candidates.

(** ** Properties of the scan *)

(** The scan equals the reference. *)
Lemma findPeaks_eq_ref (data : list Q) (threshold : Q) :
  findPeaks data threshold = peaks_ref data threshold.
Proof. unfold findPeaks, peaks_ref. now rewrite scan_loop_peaks. Qed.

(** C4. The two loops of the code compute the reference specification:
    the candidates of the scan range, thinned by the greedy refractory
    filter starting from [lastPeakIndex = -100]. *)
Theorem findPeaks_ref (data : list Q) (threshold : Q) :
  findPeaks data threshold = peaks_ref data threshold.
Proof. exact (findPeaks_eq_ref data threshold). Qed.

Lemma findPeaks_adjacent (data : list Q) (threshold : Q) :
  adjacent (fun p q => (refractory < q - p)%Z) (findPeaks data threshold).
Proof. rewrite findPeaks_eq_ref. eapply spaced_adjacent, refractory_filter_spaced. Qed.

(** C3. Consecutive peaks are more than [refractory] = 40 samples apart
    (so the peak list is strictly increasing). *)
Theorem findPeaks_spaced (data : list Q) (threshold : Q) (k : nat) (p q : Z) :
  nth_error (findPeaks data threshold) k = Some p ->
  nth_error (findPeaks data threshold) (S k) = Some q ->
  (refractory < q - p)%Z.
Proof.
  apply (adjacent_nth (fun p q => (refractory < q - p)%Z)), findPeaks_adjacent.
Qed.

(** C5. Every peak lies in the scan range, is above the threshold and no
    sample within 10 positions of it is larger. *)
Theorem findPeaks_sound (data : list Q) (threshold : Q) (p : Z) :
  In p (findPeaks data threshold) ->
  in_scan_range data p /\ threshold < sample data p /\ local_max data p.
Proof.
  rewrite findPeaks_eq_ref. intro H. apply refractory_filter_incl, filter_In in H.
  destruct H as [Hr Hc]. apply in_scan_zrange in Hr.
  apply candidate_spec in Hc; [|exact Hr]. tauto.
Qed.

(** C6. Conversely, a sample of the scan range that is above the
    threshold and a local maximum is dropped only when an accepted peak
    lies at most [refractory] samples before it. *)
Theorem findPeaks_complete (data : list Q) (threshold : Q) (c : Z) :
  in_scan_range data c -> threshold < sample data c -> local_max data c ->
  ~ In c (findPeaks data threshold) ->
  exists p, In p (findPeaks data threshold) /\ (p < c <= p + refractory)%Z.
Proof.
  intros Hr Ht Hm Hn. rewrite findPeaks_eq_ref in *. unfold peaks_ref in *.
  destruct (refractory_filter_complete (-100)
              (filter (candidate data threshold) (zrange windowSize (scan_count data))) c)
    as [p [[->|Hp] Hpc]]; auto with ecg.
  - apply Forall_forall. intros x Hx. apply filter_In in Hx as [Hx _].
    apply in_zrange in Hx. unfold windowSize in *. lia.
  - apply filter_In. split; [now apply in_scan_zrange|]. now apply candidate_spec.
  - exfalso. unfold in_scan_range, refractory, windowSize in *. lia.
  - eauto.
Qed.

(** ** Behaviour on concrete signals *)

(** A test signal of [n] samples: [1] at the given positions, [0] elsewhere. *)
Definition pulse_signal (n : nat) (at_ : list nat) : list Q :=
  map (fun k => if existsb (Nat.eqb k) at_ then 1 else 0) (seq 0 n).

(** Ties count as maxima: the window test rejects a sample only when
    a neighbour is strictly larger, so on a two-sample plateau the first
    sample is a peak (and the second is dropped by the refractory
    distance). *)
Theorem findPeaks_plateau :
  findPeaks (pulse_signal 100 [50; 51]%nat) (3 # 4) = [50%Z].
Proof. vm_compute. reflexivity. Qed.

Lemma findPeaks_spaced_witness :
  nth_error (findPeaks (pulse_signal 200 [50; 150]%nat) (3 # 4)) 0 = Some 50%Z /\
  nth_error (findPeaks (pulse_signal 200 [50; 150]%nat) (3 # 4)) 1 = Some 150%Z /\
  (refractory < 150 - 50)%Z.
Proof.
  split; [vm_compute; reflexivity|]. split; [vm_compute; reflexivity|].
  apply (findPeaks_spaced (pulse_signal 200 [50; 150]%nat) (3 # 4) 0);
    vm_compute; reflexivity.
Defined.

Lemma findPeaks_sound_witness :
  in_scan_range (pulse_signal 200 [50; 150]%nat) 150 /\
  3 # 4 < sample (pulse_signal 200 [50; 150]%nat) 150 /\
  local_max (pulse_signal 200 [50; 150]%nat) 150.
Proof.
  apply (findPeaks_sound (pulse_signal 200 [50; 150]%nat) (3 # 4) 150).
  vm_compute. auto.
Defined.

(** The second pulse, 30 samples after the first, is a candidate that the
    refractory distance drops. *)
Lemma findPeaks_complete_witness :
  exists p, In p (findPeaks (pulse_signal 200 [50; 80]%nat) (3 # 4)) /\
            (p < 80 <= p + refractory)%Z.
Proof.
  assert (Hr : in_scan_range (pulse_signal 200 [50; 80]%nat) 80)
    by (unfold in_scan_range, pulse_signal, windowSize;
        rewrite length_map, length_seq; lia).
  apply (findPeaks_complete (pulse_signal 200 [50; 80]%nat) (3 # 4) 80).
  - exact Hr.
  - vm_compute. reflexivity.
  - apply (isMax_spec _ _ Hr). vm_compute. reflexivity.
  - vm_compute. intros [H|H]; [discriminate|exact H].
Defined.
