(* ===== verification/Analyzer.v ===== *)
(** * The signal analyser [analyzeECGSignal]

    [src/src/main.jsx], lines 175-254.  [analyzeECGSignal] maps the
    sample list to an [AnalysisResult]: a flat signal (range below 0.05)
    is asystole; otherwise the peaks above 75% of the range are found
    (file [Peaks]); fewer than two peaks is a signal error; otherwise the
    R-R intervals in milliseconds give the rate [60000 / mean] and the
    population variance, and the chain of [if]s of lines 224-251
    classifies the rhythm.

    The model keeps the code's structure: [analyze_peaks] is the part
    after the scan (lines 207-253), [classify] the mutable locals and
    their overriding [if]s (lines 224-251).  [rule_of]/[verdict_of] is
    the decision-table specification of the classification that the
    theorems characterise [classify] with. *)

From S2P Require Import Prelude JsRuntime Peaks.
From Stdlib Require Import String QArith Qround List ZArith Lia Lqa Bool.
Import ListNotations.
Open Scope Q_scope.
Open Scope ecg_scope.
Open Scope string_scope.

(** [const SAMPLE_RATE = 200;] *)
Definition SAMPLE_RATE : Z := 200.

(** The object returned by [analyzeECGSignal]; [alert: null] is [None]. *)
Record AnalysisResult := mkResult {
  hr : Q;
  rhythm : string;
  risk : Z;
  explanation : string;
  alert : option string
}.

Definition asystole_result : AnalysisResult :=
  mkResult 0 "Asystole / No Signal" 100
    "No cardiac electrical activity detected (Isoelectric line)."
    (Some "Asystole Warning").

Definition signal_error_result : AnalysisResult :=
  mkResult 0 "Signal Error" 0
    "Unable to detect distinct R-peaks. Signal may be too noisy or disconnected."
    (Some "Check Electrodes").

(** [for (let i = 1; i < peaks.length; i++) {
       const dist = peaks[i] - peaks[i-1];
       intervals.push((dist / SAMPLE_RATE) * 1000); }] *)
Fixpoint intervals_of (ps : list Z) : list Q :=
  match ps with
  | p :: ((q :: _) as rest) =>
      (inject_Z (q - p) / inject_Z SAMPLE_RATE) * 1000 :: intervals_of rest
  | _ => []
  end.

(** [intervals.reduce((a, b) => a + b, 0) / intervals.length] *)
Definition avgInterval (intervals : list Q) : Q :=
  fold_left Qplus intervals 0 / inject_Z (Z.of_nat (length intervals)).

(** [intervals.reduce((acc, val) => acc + Math.pow(val - avgInterval, 2), 0)
       / intervals.length] *)
Definition variance_of (intervals : list Q) (avg : Q) : Q :=
  fold_left (fun acc v => acc + js_pow2 (v - avg)) intervals 0
  / inject_Z (Z.of_nat (length intervals)).

(** [sdnn > 100] with [sdnn = Math.sqrt(variance)].  The variance is
    non-negative, and for non-negative [v] the square root exceeds 100
    exactly when [v] exceeds [100 * 100]; the test is written on the
    variance so that it computes ([SqrtBridge] proves the equivalence
    with the real square root). *)
Definition sdnn_gt_100 (variance : Q) : bool := (100 * 100) <js variance.

(** The four mutable locals [rhythm], [explanation], [risk], [alert]. *)
Record Verdict := mkVerdict {
  v_rhythm : string;
  v_explanation : string;
  v_risk : Z;
  v_alert : option string
}.

Definition normal_verdict : Verdict :=
  mkVerdict "Normal Sinus" "Regular R-R intervals. Heart rate within normal range." 15 None.

Definition noise_verdict : Verdict :=
  mkVerdict "Noise / Artifact"
    "Detected rate > 180 BPM. Likely motion artifact or electrode noise." 0
    (Some "High Noise Level").

Definition tachy_verdict (bpm : Q) : Verdict :=
  mkVerdict "Sinus Tachycardia"
    ("Heart rate elevated (" ++ js_int_to_string (js_round bpm)
     ++ " BPM). R-R intervals consistent but shortened.")%string 65
    (Some "Tachycardia Detected").

Definition brady_verdict (bpm : Q) : Verdict :=
  mkVerdict "Sinus Bradycardia"
    ("Heart rate depressed (" ++ js_int_to_string (js_round bpm)
     ++ " BPM). R-R intervals prolonged.")%string 45
    (Some "Bradycardia Detected").

Definition irregular_verdict : Verdict :=
  mkVerdict "Arrhythmia / Irregular"
    "High variability in R-R intervals detected (Possible AFib or Ectopy)." 85
    (Some "Irregular Rhythm").

(** Lines 224-251: the defaults, the rate tiers, then the variability
    override, each [if] overwriting the locals. *)
Definition classify (bpm variance : Q) : Verdict :=
  let v := normal_verdict in
  let v := if 180 <js bpm then noise_verdict
           else if 100 <js bpm then tachy_verdict bpm
           else if bpm <js 60 then brady_verdict bpm
           else v in
  if sdnn_gt_100 variance && (bpm <=js 180) then irregular_verdict else v.

(** Lines 207-253: everything after the peak scan. *)
Definition analyze_peaks (peaks : list Z) : AnalysisResult :=
  if (length peaks <? 2)%nat then signal_error_result
  else
    let intervals := intervals_of peaks in
    let avg := avgInterval intervals in
    let bpm := 60000 / avg in
    let variance := variance_of intervals avg in
    let v := classify bpm variance in
    mkResult bpm (v_rhythm v) (v_risk v) (v_explanation v) (v_alert v).

(** Lines 175-254.  On an empty array [Math.max()] is [-Infinity] and
    [Math.min()] is [Infinity], so the range is [-Infinity < 0.05] and
    the result is the asystole one. *)
Definition analyzeECGSignal (data : list Q) : AnalysisResult :=
  match js_max_spread data, js_min_spread data with
  | Some max, Some min =>
      let range := max - min in
      if range <js (5 # 100) then asystole_result
      else
        let threshold := min + range * (75 # 100) in
        analyze_peaks (findPeaks data threshold)
  | _, _ => asystole_result
  end.

(** ** Decision-table specification of the classification

    The rules in the order of precedence they have in effect: the noise
    tier is final; otherwise high variability wins over the rate tiers. *)
Inductive Rule := R_Noise | R_Irregular | R_Tachy | R_Brady | R_Normal.

Definition rule_of (bpm variance : Q) : Rule :=
  if 180 <js bpm then R_Noise
  else if sdnn_gt_100 variance then R_Irregular
  else if 100 <js bpm then R_Tachy
  else if bpm <js 60 then R_Brady
  else R_Normal.

Definition verdict_of (r : Rule) (bpm : Q) : Verdict :=
  match r with
  | R_Noise => noise_verdict
  | R_Irregular => irregular_verdict
  | R_Tachy => tachy_verdict bpm
  | R_Brady => brady_verdict bpm
  | R_Normal => normal_verdict
  end.

(** ** The classification *)

(** The classification as the decision table. *)
Lemma classify_rule (bpm variance : Q) :
  classify bpm variance = verdict_of (rule_of bpm variance) bpm.
Proof.
  unfold classify, rule_of.
  destruct (sdnn_gt_100 variance); repeat destr_js; simpl; try reflexivity; lra.
Qed.

(** C8. The chain of overriding [if]s computes the decision table: the
    noise tier is never overridden, the variability override beats
    every other tier, and otherwise the rate tiers apply. *)
Theorem classify_table (bpm variance : Q) :
  classify bpm variance = verdict_of (rule_of bpm variance) bpm.
Proof. exact (classify_rule bpm variance). Qed.

(** The classification depends on the rate and the variance as rational
    numbers, not on their representation. *)
#[export] Instance classify_proper : Proper (Qeq ==> Qeq ==> eq) classify.
Proof.
  unfold Proper, respectful. intros b b' Hb v v' Hv.
  unfold classify, sdnn_gt_100, tachy_verdict, brady_verdict.
  rewrite (js_round_compat b b' Hb).
  replace (180 <js b) with (180 <js b') by now rewrite Hb.
  replace (100 <js b) with (100 <js b') by now rewrite Hb.
  replace (b <js 60) with (b' <js 60) by now rewrite Hb.
  replace (b <=js 180) with (b' <=js 180) by now rewrite Hb.
  replace (100 * 100 <js v) with (100 * 100 <js v') by now rewrite Hv.
  reflexivity.
Qed.

Lemma classify_noise (bpm variance : Q) :
  180 < bpm -> classify bpm variance = noise_verdict.
Proof. intro H. rewrite classify_rule. unfold rule_of. now rewrite js_lt_true. Qed.

Lemma classify_irregular (bpm variance : Q) :
  sdnn_gt_100 variance = true -> bpm <= 180 -> classify bpm variance = irregular_verdict.
Proof.
  intros Hv Hb. rewrite classify_rule. unfold rule_of.
  now rewrite js_lt_false, Hv.
Qed.

Lemma classify_regular (bpm : Q) :
  classify bpm 0 = verdict_of (rule_of bpm 0) bpm /\ sdnn_gt_100 0 = false.
Proof. split; [apply classify_rule | reflexivity]. Qed.

Lemma rule_of_zero_variance (bpm : Q) :
  rule_of bpm 0 =
  if 180 <js bpm then R_Noise else if 100 <js bpm then R_Tachy
  else if bpm <js 60 then R_Brady else R_Normal.
Proof. reflexivity. Qed.

(** ** Intervals, mean, variance and rate *)

(** An interval of [d] samples at 200 Hz lasts [5 d] milliseconds. *)
Lemma interval_ms (p q : Z) :
  inject_Z (q - p) / inject_Z SAMPLE_RATE * 1000 == inject_Z (q - p) * 5.
Proof. unfold SAMPLE_RATE. field. Qed.

Lemma length_intervals_of (ps : list Z) :
  length (intervals_of ps) = pred (length ps).
Proof.
  induction ps as [|p ps IH]; [reflexivity|].
  destruct ps as [|q ps]; [reflexivity|]. simpl in *. now rewrite IH.
Qed.

Lemma intervals_of_nonempty (ps : list Z) :
  (2 <= length ps)%nat -> intervals_of ps <> [].
Proof. intros H E. apply (f_equal (@length Q)) in E. rewrite length_intervals_of in E. simpl in E. lia. Qed.

(** Peaks more than [d] samples apart give intervals over [5 d] ms. *)
Lemma intervals_of_gt (d : Z) (ps : list Z) :
  adjacent (fun p q => (d < q - p)%Z) ps ->
  Forall (fun x => inject_Z d * 5 < x) (intervals_of ps).
Proof.
  induction ps as [|p ps IH]; intro H; [constructor|].
  destruct ps as [|q ps]; [constructor|]. destruct H as [Hpq H].
  constructor; [|now apply IH]. cbv beta. rewrite interval_ms.
  rewrite Zlt_Qlt in Hpq. lra.
Qed.

(** Peaks exactly [s] samples apart give intervals of [5 s] ms. *)
Lemma intervals_of_const (s : Z) (ps : list Z) :
  adjacent (fun p q => (q - p = s)%Z) ps ->
  Forall (fun x => x == inject_Z s * 5) (intervals_of ps).
Proof.
  induction ps as [|p ps IH]; intro H; [constructor|].
  destruct ps as [|q ps]; [constructor|]. destruct H as [Hpq H].
  constructor; [|now apply IH]. cbv beta. rewrite interval_ms, Hpq. reflexivity.
Qed.

Lemma length_pos_Q {A} (l : list A) : l <> [] -> 0 < inject_Z (Z.of_nat (length l)).
Proof.
  intro H. destruct l; [congruence|]. change 0 with (inject_Z 0).
  rewrite <- Zlt_Qlt. simpl. lia.
Qed.

Lemma avgInterval_lower (c : Q) (l : list Q) :
  l <> [] -> Forall (fun x => c < x) l -> c < avgInterval l.
Proof.
  intros Hne H. unfold avgInterval. apply Qlt_shift_div_l; [now apply length_pos_Q|].
  rewrite Qmult_comm. now apply fold_left_Qplus_lower.
Qed.

Lemma avgInterval_const (c : Q) (l : list Q) :
  l <> [] -> Forall (fun x => x == c) l -> avgInterval l == c.
Proof.
  intros Hne H. unfold avgInterval. rewrite fold_left_Qplus_const by exact H.
  pose proof (length_pos_Q l Hne). field. lra.
Qed.

Lemma variance_of_sum (l : list Q) (avg : Q) :
  variance_of l avg ==
  fold_left Qplus (map (fun v => js_pow2 (v - avg)) l) 0
  / inject_Z (Z.of_nat (length l)).
Proof. unfold variance_of. now rewrite fold_left_Qplus_map. Qed.

Lemma variance_of_nonneg (l : list Q) (avg : Q) : 0 <= variance_of l avg.
Proof.
  rewrite variance_of_sum. unfold Qdiv. apply Qmult_le_0_compat.
  - apply fold_left_Qplus_nonneg, Forall_forall. intros y Hy.
    apply in_map_iff in Hy as [v [<- _]]. apply Qsquare_nonneg.
  - apply Qinv_le_0_compat. change 0 with (inject_Z 0). rewrite <- Zle_Qle. lia.
Qed.

Lemma variance_of_const (c avg : Q) (l : list Q) :
  Forall (fun x => x == c) l -> avg == c -> variance_of l avg == 0.
Proof.
  intros H Havg. rewrite variance_of_sum.
  rewrite (fold_left_Qplus_const _ 0).
  - unfold Qdiv. ring.
  - apply Forall_forall. intros y Hy. apply in_map_iff in Hy as [v [<- Hv]].
    rewrite Forall_forall in H. unfold js_pow2. rewrite (H v Hv), Havg. ring.
Qed.

(** ** The analyser *)

(** The rate and the variance the code computes from a peak list. *)
Definition bpm_of (ps : list Z) : Q := 60000 / avgInterval (intervals_of ps).

Definition variance_of_peaks (ps : list Z) : Q :=
  variance_of (intervals_of ps) (avgInterval (intervals_of ps)).

(** The rhythm labels [analyzeECGSignal] can return. *)
Definition rhythm_labels : list string :=
  ["Asystole / No Signal"; "Signal Error"; "Normal Sinus"; "Noise / Artifact";
   "Sinus Tachycardia"; "Sinus Bradycardia"; "Arrhythmia / Irregular"].

Definition wf_result (r : AnalysisResult) : Prop :=
  0 <= hr r < 300 /\ (0 <= risk r <= 100)%Z /\ In (rhythm r) rhythm_labels.

Lemma analyze_split (data : list Q) (mx mn : Q) :
  js_max_spread data = Some mx -> js_min_spread data = Some mn -> 5 # 100 <= mx - mn ->
  analyzeECGSignal data = analyze_peaks (findPeaks data (mn + (mx - mn) * (75 # 100))).
Proof.
  intros Hx Hn Hr. unfold analyzeECGSignal. rewrite Hx, Hn, js_lt_false by exact Hr.
  reflexivity.
Qed.

Lemma analyze_peaks_eq (ps : list Z) :
  (2 <= length ps)%nat ->
  analyze_peaks ps =
  let v := classify (bpm_of ps) (variance_of_peaks ps) in
  mkResult (bpm_of ps) (v_rhythm v) (v_risk v) (v_explanation v) (v_alert v).
Proof. intro H. unfold analyze_peaks. destruct (Nat.ltb_spec (length ps) 2); [lia|reflexivity]. Qed.

Lemma bpm_of_bounds (ps : list Z) :
  (2 <= length ps)%nat -> adjacent (fun p q => (refractory < q - p)%Z) ps ->
  0 < bpm_of ps < 300.
Proof.
  intros Hl Ha. unfold bpm_of.
  assert (Havg : 200 < avgInterval (intervals_of ps)).
  { apply avgInterval_lower; [now apply intervals_of_nonempty|].
    exact (intervals_of_gt refractory ps Ha). }
  split.
  - apply Qlt_shift_div_l; lra.
  - apply Qlt_shift_div_r; lra.
Qed.

Lemma verdict_of_wf (r : Rule) (bpm : Q) :
  (0 <= v_risk (verdict_of r bpm) <= 100)%Z /\ In (v_rhythm (verdict_of r bpm)) rhythm_labels.
Proof. destruct r; simpl; split; try lia; tauto. Qed.

Lemma asystole_wf : wf_result asystole_result.
Proof. unfold wf_result; cbn [hr risk rhythm asystole_result]. split; [lra|split; [lia|simpl; tauto]]. Qed.

Lemma signal_error_wf : wf_result signal_error_result.
Proof. unfold wf_result; cbn [hr risk rhythm signal_error_result]. split; [lra|split; [lia|simpl; tauto]]. Qed.

(** C1. A signal whose range is below 0.05 is classified as asystole
    without a peak scan: rate 0, risk 100, whatever its length. *)
Theorem analyze_flat (data : list Q) (mx mn : Q) :
  js_max_spread data = Some mx -> js_min_spread data = Some mn -> mx - mn < 5 # 100 ->
  analyzeECGSignal data = asystole_result.
Proof.
  intros Hx Hn Hr. unfold analyzeECGSignal. rewrite Hx, Hn, js_lt_true by exact Hr.
  reflexivity.
Qed.

Lemma analyze_flat_witness :
  analyzeECGSignal [1; 101 # 100; 1] = asystole_result /\ (101 # 100) - 1 < 5 # 100.
Proof.
  split; [apply (analyze_flat _ (101 # 100) 1); [reflexivity|reflexivity|]|]; lra.
Defined.

(** C2. A signal with a range of at least 0.05 and fewer than two peaks
    is a signal error: rate 0, risk 0. *)
Theorem analyze_few_peaks (data : list Q) (mx mn : Q) :
  js_max_spread data = Some mx -> js_min_spread data = Some mn -> 5 # 100 <= mx - mn ->
  (length (findPeaks data (mn + (mx - mn) * (75 # 100))) < 2)%nat ->
  analyzeECGSignal data = signal_error_result.
Proof.
  intros Hx Hn Hr Hl. rewrite (analyze_split data mx mn Hx Hn Hr). unfold analyze_peaks.
  destruct (Nat.ltb_spec (length (findPeaks data (mn + (mx - mn) * (75 # 100)))) 2);
    [reflexivity|lia].
Qed.

Lemma analyze_few_peaks_witness :
  analyzeECGSignal (pulse_signal 300 [50]%nat) = signal_error_result.
Proof.
  apply (analyze_few_peaks _ 1 0); [reflexivity|reflexivity|lra|vm_compute; lia].
Defined.

(** The three kinds of result: asystole, signal error, or the verdict of
    a rule of the decision table at a rate in (0, 300). *)
Lemma analyze_outcome (data : list Q) :
  analyzeECGSignal data = asystole_result \/ analyzeECGSignal data = signal_error_result \/
  exists bpm variance, 0 < bpm < 300 /\
    let v := verdict_of (rule_of bpm variance) bpm in
    analyzeECGSignal data = mkResult bpm (v_rhythm v) (v_risk v) (v_explanation v) (v_alert v).
Proof.
  unfold analyzeECGSignal.
  destruct (js_max_spread data) as [mx|], (js_min_spread data) as [mn|]; auto.
  destr_js; [now left|]. right.
  set (ps := findPeaks data _). unfold analyze_peaks.
  destruct (Nat.ltb_spec (length ps) 2); [now left|right].
  fold (bpm_of ps) (variance_of_peaks ps). cbv zeta. rewrite classify_rule.
  exists (bpm_of ps), (variance_of_peaks ps). split; [|reflexivity].
  exact (bpm_of_bounds ps ltac:(lia) (findPeaks_adjacent _ _)).
Qed.

(** Well-formedness of every result of the analyser. *)
Lemma analyzeECGSignal_wf (data : list Q) : wf_result (analyzeECGSignal data).
Proof.
  destruct (analyze_outcome data) as [->|[->|(bpm & v & Hb & ->)]];
    [apply asystole_wf|apply signal_error_wf|].
  destruct (verdict_of_wf (rule_of bpm v) bpm).
  unfold wf_result; cbn [hr risk rhythm]. split; [lra|tauto].
Qed.

(** C7. Every result is well formed: the rate is in [0, 300), the risk
    in [0, 100] and the rhythm one of the seven labels. *)
Theorem analyze_wf (data : list Q) : wf_result (analyzeECGSignal data).
Proof. exact (analyzeECGSignal_wf data). Qed.

(** C36. Every R-R interval the analyser computes exceeds 200 ms: the
    refractory distance of 40 samples is 200 ms at 200 Hz. *)
Theorem analyze_intervals_gt_200 (data : list Q) (threshold : Q) :
  Forall (fun x => 200 < x) (intervals_of (findPeaks data threshold)).
Proof.
  pose proof (intervals_of_gt refractory _ (findPeaks_adjacent data threshold)) as H.
  eapply Forall_impl; [|exact H]. intros x Hx. unfold refractory in Hx. exact Hx.
Qed.

(** ** Regular rhythms *)

(** Peaks evenly spaced by [s] samples: the rate is [12000 / s] beats
    per minute and the variance is zero. *)
Lemma regular_peaks (s : Z) (ps : list Z) :
  (0 < s)%Z -> (2 <= length ps)%nat -> adjacent (fun p q => (q - p = s)%Z) ps ->
  bpm_of ps == 12000 / inject_Z s /\ variance_of_peaks ps == 0.
Proof.
  intros Hs Hl Ha. pose proof (intervals_of_const s ps Ha) as Hc.
  assert (Havg : avgInterval (intervals_of ps) == inject_Z s * 5)
    by (apply avgInterval_const; [now apply intervals_of_nonempty|exact Hc]).
  assert (Hpos : 0 < inject_Z s) by (change 0 with (inject_Z 0); rewrite <- Zlt_Qlt; lia).
  unfold bpm_of, variance_of_peaks. split.
  - rewrite Havg. field. lra.
  - exact (variance_of_const _ _ _ Hc Havg).
Qed.

Lemma analyze_regular (data : list Q) (mx mn : Q) (s : Z) :
  js_max_spread data = Some mx -> js_min_spread data = Some mn -> 5 # 100 <= mx - mn ->
  (0 < s)%Z ->
  (2 <= length (findPeaks data (mn + (mx - mn) * (75 # 100))))%nat ->
  adjacent (fun p q => (q - p = s)%Z) (findPeaks data (mn + (mx - mn) * (75 # 100))) ->
  let r := analyzeECGSignal data in
  let v := classify (12000 / inject_Z s) 0 in
  hr r == 12000 / inject_Z s /\ rhythm r = v_rhythm v /\ risk r = v_risk v /\
  explanation r = v_explanation v /\ alert r = v_alert v.
Proof.
  intros Hx Hn Hr Hs Hl Ha. rewrite (analyze_split data mx mn Hx Hn Hr).
  rewrite analyze_peaks_eq by exact Hl.
  destruct (regular_peaks s _ Hs Hl Ha) as [Hb Hv]. cbv zeta. cbn [hr rhythm risk explanation alert].
  rewrite (classify_proper _ _ Hb _ _ Hv). auto.
Qed.

(** C9. Peaks every 150 samples (750 ms) give 80 beats per minute, a
    normal sinus rhythm with risk 15 and no alert. *)
Theorem analyze_regular_150 (data : list Q) (mx mn : Q) :
  js_max_spread data = Some mx -> js_min_spread data = Some mn -> 5 # 100 <= mx - mn ->
  (2 <= length (findPeaks data (mn + (mx - mn) * (75 # 100))))%nat ->
  adjacent (fun p q => (q - p = 150)%Z) (findPeaks data (mn + (mx - mn) * (75 # 100))) ->
  hr (analyzeECGSignal data) == 80 /\ rhythm (analyzeECGSignal data) = "Normal Sinus" /\
  risk (analyzeECGSignal data) = 15%Z /\ alert (analyzeECGSignal data) = None.
Proof.
  intros Hx Hn Hr Hl Ha.
  destruct (analyze_regular data mx mn 150 Hx Hn Hr ltac:(lia) Hl Ha) as (Hb & H1 & H2 & _ & H4).
  rewrite Hb, H1, H2, H4. vm_compute. repeat split; reflexivity.
Qed.

Lemma analyze_regular_150_witness :
  hr (analyzeECGSignal (pulse_signal 500 [50; 200; 350]%nat)) == 80 /\
  rhythm (analyzeECGSignal (pulse_signal 500 [50; 200; 350]%nat)) = "Normal Sinus" /\
  risk (analyzeECGSignal (pulse_signal 500 [50; 200; 350]%nat)) = 15%Z /\
  alert (analyzeECGSignal (pulse_signal 500 [50; 200; 350]%nat)) = None.
Proof.
  apply (analyze_regular_150 _ 1 0); [reflexivity|reflexivity|lra|solve_concrete|solve_concrete].
Defined.

(** Peaks every 100 samples (500 ms) give 120 beats per minute, a
    sinus tachycardia with risk 65, whose explanation quotes the rate. *)
Theorem analyze_regular_100 (data : list Q) (mx mn : Q) :
  js_max_spread data = Some mx -> js_min_spread data = Some mn -> 5 # 100 <= mx - mn ->
  (2 <= length (findPeaks data (mn + (mx - mn) * (75 # 100))))%nat ->
  adjacent (fun p q => (q - p = 100)%Z) (findPeaks data (mn + (mx - mn) * (75 # 100))) ->
  hr (analyzeECGSignal data) == 120 /\ rhythm (analyzeECGSignal data) = "Sinus Tachycardia" /\
  risk (analyzeECGSignal data) = 65%Z /\
  explanation (analyzeECGSignal data) =
    "Heart rate elevated (120 BPM). R-R intervals consistent but shortened." /\
  alert (analyzeECGSignal data) = Some "Tachycardia Detected".
Proof.
  intros Hx Hn Hr Hl Ha.
  destruct (analyze_regular data mx mn 100 Hx Hn Hr ltac:(lia) Hl Ha) as (Hb & H1 & H2 & H3 & H4).
  rewrite Hb, H1, H2, H3, H4. vm_compute. repeat split; reflexivity.
Qed.

Lemma analyze_regular_100_witness :
  hr (analyzeECGSignal (pulse_signal 500 [50; 150; 250; 350]%nat)) == 120 /\
  rhythm (analyzeECGSignal (pulse_signal 500 [50; 150; 250; 350]%nat)) = "Sinus Tachycardia" /\
  risk (analyzeECGSignal (pulse_signal 500 [50; 150; 250; 350]%nat)) = 65%Z /\
  explanation (analyzeECGSignal (pulse_signal 500 [50; 150; 250; 350]%nat)) =
    "Heart rate elevated (120 BPM). R-R intervals consistent but shortened." /\
  alert (analyzeECGSignal (pulse_signal 500 [50; 150; 250; 350]%nat)) = Some "Tachycardia Detected".
Proof.
  apply (analyze_regular_100 _ 1 0); [reflexivity|reflexivity|lra|solve_concrete|solve_concrete].
Defined.

(** ** Precedence of the overrides *)

Lemma analyze_verdict (data : list Q) (mx mn : Q) :
  js_max_spread data = Some mx -> js_min_spread data = Some mn -> 5 # 100 <= mx - mn ->
  let ps := findPeaks data (mn + (mx - mn) * (75 # 100)) in
  (2 <= length ps)%nat ->
  let v := classify (bpm_of ps) (variance_of_peaks ps) in
  rhythm (analyzeECGSignal data) = v_rhythm v /\ risk (analyzeECGSignal data) = v_risk v /\
  alert (analyzeECGSignal data) = v_alert v.
Proof.
  intros Hx Hn Hr ps Hl. rewrite (analyze_split data mx mn Hx Hn Hr).
  fold ps. rewrite analyze_peaks_eq by exact Hl. auto.
Qed.

(** C10. When the R-R intervals vary (sdnn above 100 ms) and the rate is
    at most 180, the rhythm is irregular with risk 85, whatever rate
    tier (normal, tachycardia, bradycardia) applied before. *)
Theorem analyze_irregular (data : list Q) (mx mn : Q) :
  js_max_spread data = Some mx -> js_min_spread data = Some mn -> 5 # 100 <= mx - mn ->
  (2 <= length (findPeaks data (mn + (mx - mn) * (75 # 100))))%nat ->
  sdnn_gt_100 (variance_of_peaks (findPeaks data (mn + (mx - mn) * (75 # 100)))) = true ->
  bpm_of (findPeaks data (mn + (mx - mn) * (75 # 100))) <= 180 ->
  rhythm (analyzeECGSignal data) = "Arrhythmia / Irregular" /\
  risk (analyzeECGSignal data) = 85%Z /\ alert (analyzeECGSignal data) = Some "Irregular Rhythm".
Proof.
  intros Hx Hn Hr Hl Hv Hb.
  destruct (analyze_verdict data mx mn Hx Hn Hr Hl) as (H1 & H2 & H3).
  rewrite classify_irregular in H1, H2, H3 by assumption. auto.
Qed.

(** Peaks alternately 50 and 350 samples apart: intervals of 250 and
    1750 ms, 60 beats per minute, sdnn 750 ms. *)
Lemma analyze_irregular_witness :
  rhythm (analyzeECGSignal (pulse_signal 1000 [50; 100; 450; 500; 850]%nat))
    = "Arrhythmia / Irregular" /\
  risk (analyzeECGSignal (pulse_signal 1000 [50; 100; 450; 500; 850]%nat)) = 85%Z /\
  alert (analyzeECGSignal (pulse_signal 1000 [50; 100; 450; 500; 850]%nat))
    = Some "Irregular Rhythm".
Proof.
  apply (analyze_irregular _ 1 0);
    [reflexivity|reflexivity|lra|solve_concrete|solve_concrete|solve_concrete].
Defined.

(** C11. Above 180 beats per minute the rhythm is noise with risk 0, and
    the variability override does not apply, whatever the variance. *)
Theorem analyze_noise (data : list Q) (mx mn : Q) :
  js_max_spread data = Some mx -> js_min_spread data = Some mn -> 5 # 100 <= mx - mn ->
  (2 <= length (findPeaks data (mn + (mx - mn) * (75 # 100))))%nat ->
  180 < bpm_of (findPeaks data (mn + (mx - mn) * (75 # 100))) ->
  rhythm (analyzeECGSignal data) = "Noise / Artifact" /\
  risk (analyzeECGSignal data) = 0%Z /\ alert (analyzeECGSignal data) = Some "High Noise Level".
Proof.
  intros Hx Hn Hr Hl Hb.
  destruct (analyze_verdict data mx mn Hx Hn Hr Hl) as (H1 & H2 & H3).
  rewrite classify_noise in H1, H2, H3 by assumption. auto.
Qed.

(** Peaks 60 samples apart: 200 beats per minute. *)
Lemma analyze_noise_witness :
  rhythm (analyzeECGSignal (pulse_signal 400 [50; 110; 170; 230]%nat)) = "Noise / Artifact" /\
  risk (analyzeECGSignal (pulse_signal 400 [50; 110; 170; 230]%nat)) = 0%Z /\
  alert (analyzeECGSignal (pulse_signal 400 [50; 110; 170; 230]%nat)) = Some "High Noise Level".
Proof.
  apply (analyze_noise _ 1 0); [reflexivity|reflexivity|lra|solve_concrete|solve_concrete].
Defined.
