(* ===== verification/SqrtBridge.v ===== *)
(** * The standard deviation test of the classification, over the reals

    Line 222 computes [sdnn = Math.sqrt(variance)] and line 246 tests
    [sdnn > 100].  [Analyzer.sdnn_gt_100] decides the same test on the
    variance, comparing it with [100 * 100].  This file proves that for
    every variance the analyser computes (a mean of squares, hence
    non-negative) the two tests agree, with [sqrt] the real square root
    of the Standard Library. *)

From S2P Require Import Prelude JsRuntime Peaks Analyzer.
From Stdlib Require Import QArith Reals Qreals Lra.

Lemma Q2R_10000 : Q2R (100 * 100) = 10000%R.
Proof. unfold Q2R. simpl. lra. Qed.

(** For a non-negative [v], [sqrt v > 100] exactly when [v > 100 * 100]. *)
Lemma sdnn_gt_100_sqrt (v : Q) :
  (0 <= v)%Q -> sdnn_gt_100 v = true <-> (100 < sqrt (Q2R v))%R.
Proof.
  intro Hv. apply Qle_Rle in Hv. unfold sdnn_gt_100.
  rewrite <- (sqrt_square 100) by lra.
  destruct (js_ltP (100 * 100) v) as [H|H]; split; intro E; try discriminate.
  - apply sqrt_lt_1_alt. apply Qlt_Rlt in H. rewrite Q2R_10000 in H.
    unfold Q2R in Hv at 1. split; lra.
  - reflexivity.
  - exfalso. apply H, Rlt_Qlt. rewrite Q2R_10000. apply sqrt_lt_0_alt in E. lra.
Qed.

(** The variability test of the model is the code's
    [Math.sqrt(variance) > 100] on every variance the analyser computes. *)
Theorem sdnn_test_sqrt (intervals : list Q) (avg : Q) :
  sdnn_gt_100 (variance_of intervals avg) = true <->
  (100 < sqrt (Q2R (variance_of intervals avg)))%R.
Proof. apply sdnn_gt_100_sqrt, variance_of_nonneg. Qed.
