(* ===== verification/Timers.v ===== *)
(** * The [setTimeout] queue of the host event loop

    The browser's timer semantics, written from the HTML standard (not
    code of the repository): [setTimeout(cb, delay)] at time [now] queues
    [cb] with deadline [now + delay]; when the clock reaches [t], the due
    callbacks run one at a time, earliest deadline first and, among equal
    deadlines, in the order they were scheduled.  The callbacks of this
    program never schedule timers themselves, so one pass over the queue
    runs all that are due: [fire_due] takes the queue length as its
    bound, and [fire_due_all] proves nothing due is left.

    The section is generic in the callback type [Cb] and in the state
    [St] the callbacks act on; [Alerts] and [Playback] instantiate it. *)

From S2P Require Import Prelude.
From Stdlib Require Import List ZArith Lia Bool.
Import ListNotations.

Section Timers.

Context {Cb : Type}.

Definition queue := list (Z * Cb).

Definition setTimeout (now delay : Z) (cb : Cb) (q : queue) : queue :=
  q ++ [(now + delay, cb)]%Z.

(** The smallest deadline of the queue. *)
Fixpoint min_deadline (q : queue) : option Z :=
  match q with
  | [] => None
  | (d, _) :: q' =>
      match min_deadline q' with
      | Some d' => Some (Z.min d d')
      | None => Some d
      end
  end.

(** Remove the first timer with deadline [d]. *)
Fixpoint take_first (d : Z) (q : queue) : option ((Z * Cb) * queue) :=
  match q with
  | [] => None
  | e :: q' =>
      if (fst e =? d)%Z then Some (e, q')
      else match take_first d q' with
           | Some (e', q'') => Some (e', e :: q'')
           | None => None
           end
  end.

(** The next timer to run at time [t], if one is due. *)
Definition pop_due (t : Z) (q : queue) : option ((Z * Cb) * queue) :=
  match min_deadline q with
  | Some d => if (d <=? t)%Z then take_first d q else None
  | None => None
  end.

Section Fire.

Context {St : Type}.
Variable run : Cb -> St -> St.

Fixpoint fire_due (n : nat) (t : Z) (q : queue) (s : St) : queue * St :=
  match n with
  | O => (q, s)
  | S n' =>
      match pop_due t q with
      | Some (e, q') => fire_due n' t q' (run (snd e) s)
      | None => (q, s)
      end
  end.

(** Advance the clock to [t], running every due callback. *)
Definition advance (t : Z) (q : queue) (s : St) : queue * St :=
  fire_due (length q) t q s.

End Fire.

(** ** Lemmas *)

Lemma min_deadline_le (q : queue) (d : Z) :
  min_deadline q = Some d -> Forall (fun e => (d <= fst e)%Z) q.
Proof.
  revert d. induction q as [|[d0 c] q IH]; intros d H; simpl in H; [discriminate|].
  destruct (min_deadline q) as [d'|] eqn:E; injection H as <-.
  - constructor; simpl; [lia|]. eapply Forall_impl; [|exact (IH d' eq_refl)].
    intros e He. cbv beta in *. lia.
  - constructor; simpl; [lia|]. destruct q as [|e q]; [constructor|].
    simpl in E. destruct e, (min_deadline q); discriminate.
Qed.

Lemma min_deadline_in (q : queue) (d : Z) :
  min_deadline q = Some d -> exists c, In (d, c) q.
Proof.
  revert d. induction q as [|[d0 c] q IH]; intros d H; simpl in H; [discriminate|].
  destruct (min_deadline q) as [d'|] eqn:E; injection H as <-.
  - destruct (Z.le_ge_cases d0 d').
    + rewrite Z.min_l by assumption. exists c. now left.
    + rewrite Z.min_r by assumption.
      destruct (IH d' eq_refl) as [c' Hc']. exists c'. right. exact Hc'.
  - exists c. now left.
Qed.

Lemma min_deadline_none (q : queue) : min_deadline q = None -> q = [].
Proof.
  destruct q as [|[d c] q]; simpl; [auto|]. destruct (min_deadline q); discriminate.
Qed.

Lemma take_first_some (d : Z) (c : Cb) (q : queue) :
  In (d, c) q -> exists e q', take_first d q = Some (e, q') /\ fst e = d /\
                              length q' = pred (length q) /\
                              forall x, In x q' -> In x q.
Proof.
  induction q as [|e q IH]; intro H; [destruct H|]. simpl.
  destruct (Z.eqb_spec (fst e) d).
  - exists e, q. repeat split; auto.
  - destruct H as [He|H]; [subst e; simpl in *; lia|].
    destruct (IH H) as [e' [q' [-> [He [Hl Hi]]]]].
    exists e', (e :: q'). repeat split; auto.
    + simpl. rewrite Hl. destruct q; [destruct H|reflexivity].
    + intros x [<-|Hx]; [now left|right; auto].
Qed.

Lemma pop_due_spec (t : Z) (q : queue) :
  match pop_due t q with
  | Some (e, q') => (fst e <= t)%Z /\ length q' = pred (length q) /\
                    forall x, In x q' -> In x q
  | None => Forall (fun e => (t < fst e)%Z) q
  end.
Proof.
  unfold pop_due. destruct (min_deadline q) as [d|] eqn:E.
  - destruct (Z.leb_spec d t).
    + destruct (min_deadline_in q d E) as [c Hc].
      destruct (take_first_some d c q Hc) as [e [q' [-> [He [Hl Hi]]]]].
      repeat split; auto. lia.
    + eapply Forall_impl; [|exact (min_deadline_le q d E)]. intros e He. cbv beta in *. lia.
  - rewrite (min_deadline_none q E). constructor.
Qed.

Lemma take_first_in (d : Z) (q q' : queue) (e x : Z * Cb) :
  take_first d q = Some (e, q') -> In x q -> x = e \/ In x q'.
Proof.
  revert q'. induction q as [|y q IH]; intros q' H Hx; simpl in H; [discriminate|].
  destruct (fst y =? d)%Z.
  - injection H as <- <-. destruct Hx as [<-|Hx]; auto.
  - destruct (take_first d q) as [[e' q'']|] eqn:E; [|discriminate].
    injection H as <- <-. destruct Hx as [<-|Hx]; [right; now left|].
    destruct (IH q'' eq_refl Hx); auto. right. now right.
Qed.

Lemma pop_due_in (t : Z) (q q' : queue) (e x : Z * Cb) :
  pop_due t q = Some (e, q') -> In x q -> x = e \/ In x q'.
Proof.
  unfold pop_due. destruct (min_deadline q) as [d|]; [|discriminate].
  destruct (d <=? t)%Z; [|discriminate]. apply take_first_in.
Qed.

Lemma take_first_mem (d : Z) (q q' : queue) (e : Z * Cb) :
  take_first d q = Some (e, q') -> In e q.
Proof.
  revert q'. induction q as [|y q IH]; intros q' H; simpl in H; [discriminate|].
  destruct (fst y =? d)%Z; [injection H as <- _; now left|].
  destruct (take_first d q) as [[e' q'']|] eqn:E; [|discriminate].
  injection H as <- _. right. eapply IH; reflexivity.
Qed.

Lemma pop_due_mem (t : Z) (q q' : queue) (e : Z * Cb) :
  pop_due t q = Some (e, q') -> In e q.
Proof.
  unfold pop_due. destruct (min_deadline q) as [d|]; [|discriminate].
  destruct (d <=? t)%Z; [|discriminate]. apply take_first_mem.
Qed.

Section FireFacts.

Context {St : Type}.
Variable run : Cb -> St -> St.

(** One pass bounded by the queue length runs every due callback. *)
Theorem fire_due_all (n : nat) (t : Z) (q : queue) (s : St) :
  (length q <= n)%nat ->
  Forall (fun e => (t < fst e)%Z) (fst (fire_due run n t q s)).
Proof.
  revert q s. induction n as [|n IH]; intros q s Hn; simpl.
  - destruct q; [constructor|simpl in Hn; lia].
  - pose proof (pop_due_spec t q) as Hp.
    destruct (pop_due t q) as [[e q']|]; [|exact Hp].
    destruct Hp as [_ [Hl _]]. apply IH. lia.
Qed.

(** Timers left in the queue were in it before. *)
Lemma fire_due_incl (n : nat) (t : Z) (q : queue) (s : St) :
  forall x, In x (fst (fire_due run n t q s)) -> In x q.
Proof.
  revert q s. induction n as [|n IH]; intros q s x Hx; simpl in Hx; [exact Hx|].
  pose proof (pop_due_spec t q) as Hp.
  destruct (pop_due t q) as [[e q']|]; [|exact Hx].
  destruct Hp as [_ [_ Hi]]. apply Hi. eapply IH. exact Hx.
Qed.

(** A timer that is not due stays in the queue. *)
Lemma fire_due_keeps (n : nat) (t : Z) (q : queue) (s : St) (e : Z * Cb) :
  In e q -> (t < fst e)%Z -> In e (fst (fire_due run n t q s)).
Proof.
  revert q s. induction n as [|n IH]; intros q s He Ht; simpl; [exact He|].
  pose proof (pop_due_spec t q) as Hp.
  destruct (pop_due t q) as [[e' q']|] eqn:E; [|exact He].
  destruct Hp as [Hle _]. apply IH; [|exact Ht].
  destruct (pop_due_in t q q' e' e E He) as [Heq|H]; [subst; lia|exact H].
Qed.

Variable P : St -> Prop.
Hypothesis run_preserves : forall c s, P s -> P (run c s).

(** An invariant of every callback is an invariant of a pass. *)
Lemma fire_due_preserves (n : nat) (t : Z) (q : queue) (s : St) :
  P s -> P (snd (fire_due run n t q s)).
Proof.
  revert q s. induction n as [|n IH]; intros q s Hs; simpl; [exact Hs|].
  destruct (pop_due t q) as [[e q']|]; [|exact Hs]. apply IH, run_preserves, Hs.
Qed.

Variable I : queue -> St -> Prop.
Hypothesis pop_preserves :
  forall t q s e q', pop_due t q = Some (e, q') -> I q s -> I q' (run (snd e) s).

(** An invariant of the queue and the state together, preserved by one
    pop-and-run, is preserved by a pass. *)
Lemma fire_due_inv (n : nat) (t : Z) (q : queue) (s : St) :
  I q s -> I (fst (fire_due run n t q s)) (snd (fire_due run n t q s)).
Proof.
  revert q s. induction n as [|n IH]; intros q s Hs; simpl; [exact Hs|].
  destruct (pop_due t q) as [[e q']|] eqn:E; [|exact Hs].
  apply IH. eapply pop_preserves; eauto.
Qed.

End FireFacts.

End Timers.

Arguments queue : clear implicits.

(** ** Projecting a queue onto some of its callbacks

    A component that owns only some of the timers (here the alert
    manager, which owns the alert removals among all the timers of the
    page) sees the queue through a partial projection [proj].  Running
    the due timers of the whole queue, where the other callbacks leave
    the component's part of the state alone, is running the due timers
    of the projected queue: the simulation [fire_due_sim]. *)

Section Projection.

Context {Cb1 Cb2 St1 St2 : Type}.
Variable proj : Cb1 -> option Cb2.

Fixpoint qproj (q : queue Cb1) : queue Cb2 :=
  match q with
  | [] => []
  | (d, c) :: q' =>
      match proj c with
      | Some c' => (d, c') :: qproj q'
      | None => qproj q'
      end
  end.

Lemma qproj_app (q q' : queue Cb1) : qproj (q ++ q') = qproj q ++ qproj q'.
Proof.
  induction q as [|[d c] q IH]; simpl; [reflexivity|].
  destruct (proj c); now rewrite IH.
Qed.

Lemma qproj_in (q : queue Cb1) (d : Z) (c' : Cb2) :
  In (d, c') (qproj q) -> exists c, In (d, c) q /\ proj c = Some c'.
Proof.
  induction q as [|[d0 c0] q IH]; simpl; [intros []|].
  destruct (proj c0) eqn:E; [intros [H|H]|intro H].
  - injection H as <- <-. eauto.
  - destruct (IH H) as [x [Hx Hp]]. eauto.
  - destruct (IH H) as [x [Hx Hp]]. eauto.
Qed.

Lemma qproj_forall (P : Z -> Prop) (q : queue Cb1) :
  Forall (fun e => P (fst e)) q -> Forall (fun e => P (fst e)) (qproj q).
Proof.
  induction q as [|[d c] q IH]; intro H; simpl; [constructor|].
  inversion H as [|? ? Hd Hq]; subst. destruct (proj c); auto.
Qed.

(** The smallest deadline is characterised by membership and minimality. *)
Lemma min_deadline_char {Cb} (q : queue Cb) (d : Z) (c : Cb) :
  In (d, c) q -> Forall (fun e => (d <= fst e)%Z) q -> min_deadline q = Some d.
Proof.
  intros Hin Hall. destruct (min_deadline q) as [d'|] eqn:E.
  - f_equal. pose proof (min_deadline_le q d' E) as Hle.
    destruct (min_deadline_in q d' E) as [c' Hc'].
    rewrite Forall_forall in Hle, Hall. specialize (Hle _ Hin). specialize (Hall _ Hc').
    simpl in *. lia.
  - rewrite (min_deadline_none q E) in Hin. destruct Hin.
Qed.

Lemma pop_due_future {Cb} (t : Z) (q : queue Cb) :
  Forall (fun e => (t < fst e)%Z) q -> pop_due t q = None.
Proof.
  intro H. unfold pop_due. destruct (min_deadline q) as [d|] eqn:E; [|reflexivity].
  destruct (min_deadline_in q d E) as [c Hc]. rewrite Forall_forall in H.
  specialize (H _ Hc). simpl in H. destruct (Z.leb_spec d t); [lia|reflexivity].
Qed.

Lemma take_first_proj (d : Z) (q q' : queue Cb1) (e : Z * Cb1) :
  take_first d q = Some (e, q') ->
  match proj (snd e) with
  | Some c' => take_first d (qproj q) = Some ((fst e, c'), qproj q')
  | None => qproj q' = qproj q
  end.
Proof.
  revert q'. induction q as [|[d0 c0] q IH]; intros q' H; simpl in H; [discriminate|].
  destruct (Z.eqb_spec d0 d) as [->|Hne].
  - injection H as <- <-. simpl. destruct (proj c0); [|reflexivity].
    simpl. now rewrite Z.eqb_refl.
  - destruct (take_first d q) as [[e' q'']|] eqn:E; [|discriminate].
    injection H as <- <-. specialize (IH q'' eq_refl). revert IH. simpl.
    apply Z.eqb_neq in Hne.
    destruct (proj (snd e')), (proj c0); simpl; intro IH; try rewrite Hne; rewrite ?IH;
      reflexivity.
Qed.

(** One pop of the whole queue is one pop of the projected queue, or
    leaves the projected queue as it was. *)
Lemma pop_due_proj (t : Z) (q q' : queue Cb1) (e : Z * Cb1) :
  pop_due t q = Some (e, q') ->
  match proj (snd e) with
  | Some c' => pop_due t (qproj q) = Some ((fst e, c'), qproj q')
  | None => qproj q' = qproj q
  end.
Proof.
  unfold pop_due at 1. destruct (min_deadline q) as [d|] eqn:Em; [|discriminate].
  destruct (Z.leb_spec d t) as [Hdt|]; [|discriminate]. intro H.
  pose proof (take_first_proj d q q' e H) as Hp.
  destruct (proj (snd e)) as [c'|] eqn:Ep; [|exact Hp].
  assert (Hfe : fst e = d).
  { clear -H. revert q' H. induction q as [|[d0 c0] q IH]; intros q' H; simpl in H;
      [discriminate|]. destruct (Z.eqb_spec d0 d); [now injection H as <- _|].
    destruct (take_first d q) as [[e' q'']|]; [|discriminate]. injection H as <- _. eauto. }
  unfold pop_due. rewrite (min_deadline_char (qproj q) d c').
  - rewrite <- Hfe at 1. destruct (Z.leb_spec (fst e) t); [exact Hp|lia].
  - rewrite <- Hfe. eapply take_first_mem. exact Hp.
  - apply qproj_forall. exact (min_deadline_le q d Em).
Qed.

Variable run1 : Cb1 -> St1 -> St1.
Variable run2 : Cb2 -> St2 -> St2.
Variable obs : St1 -> St2.
Hypothesis run_owned : forall c c' s, proj c = Some c' -> obs (run1 c s) = run2 c' (obs s).
Hypothesis run_other : forall c s, proj c = None -> obs (run1 c s) = obs s.

(** The simulation: a pass over the whole queue, observed, is a pass
    over the projected queue, whatever the bounds as long as each covers
    its queue. *)
Theorem fire_due_sim (n m : nat) (t : Z) (q : queue Cb1) (s : St1) :
  (length q <= n)%nat -> (length (qproj q) <= m)%nat ->
  qproj (fst (fire_due run1 n t q s)) = fst (fire_due run2 m t (qproj q) (obs s)) /\
  obs (snd (fire_due run1 n t q s)) = snd (fire_due run2 m t (qproj q) (obs s)).
Proof.
  revert m q s. induction n as [|n IH]; intros m q s Hn Hm.
  - destruct q; [|simpl in Hn; lia]. destruct m; split; reflexivity.
  - cbn [fire_due]. destruct (pop_due t q) as [[e q']|] eqn:Ep.
    + pose proof (pop_due_proj t q q' e Ep) as Hp.
      pose proof (pop_due_spec t q) as Hs. rewrite Ep in Hs. destruct Hs as [_ [Hl _]].
      destruct (proj (snd e)) as [c'|] eqn:Ec.
      * pose proof (pop_due_spec t (qproj q)) as Hs2. rewrite Hp in Hs2.
        destruct Hs2 as [_ [Hl2 _]].
        destruct m as [|m]; [destruct (qproj q); [discriminate|simpl in Hm; lia]|].
        cbn [fire_due]. rewrite Hp. cbn [snd].
        rewrite <- (run_owned _ _ s Ec). apply IH; lia.
      * rewrite <- Hp, <- (run_other _ s Ec). apply IH; [lia|congruence].
    + pose proof (pop_due_spec t q) as Hs. rewrite Ep in Hs.
      destruct m as [|m]; cbn [fire_due]; [split; reflexivity|].
      rewrite (pop_due_future t (qproj q)) by (apply qproj_forall, Hs). split; reflexivity.
Qed.

End Projection.
