(* ===== verification/Alerts.v ===== *)
(** * The alert manager [triggerAlert]

    [src/src/main.jsx], lines 326-335.  [triggerAlert(msg, type)] does
    two things: it queues a React state updater on [alerts] that keeps
    the list unchanged when an alert with the same message is present
    and otherwise keeps the last two alerts and appends the new one with
    [id = Date.now()] ([trigger_update]); and it schedules, whatever the
    updater decided, a [setTimeout] of 3000 ms whose callback removes
    every alert with that message ([expire_update]).

    [AlertManager] is the alert list together with the clock and the
    pending timers; [triggerAlert] and [tick_to] (the clock advancing,
    due callbacks running) are its operations and [am_step] its step
    relation.  The invariant [am_inv] (at most three alerts, distinct
    messages, every alert younger than 3000 ms) holds in every reachable
    state.  [am_star] is a run of steps; [am_star_keeps]: a timer not
    yet due survives every run, which is how [alert_early_expiry] shows
    that a trigger's removal timer, even one of a suppressed duplicate,
    removes the alerts with its message shown at its deadline. *)

From S2P Require Import Prelude JsRuntime Timers.
From Stdlib Require Import String List ZArith Lia Bool.
Import ListNotations.
Open Scope string_scope.

(** The [type] argument of [triggerAlert]. *)
Inductive Severity := critical | warning | info.

Definition Severity_eq_dec (x y : Severity) : {x = y} + {x <> y}.
Proof. decide equality. Defined.

(** [{ id, msg, type }] *)
Record Alert := mkAlert { id : Z; msg : string; type : Severity }.

(** The updater [prev => ...] of lines 327-331, run by React with
    [Date.now()] = [now]. *)
Definition trigger_update (now : Z) (m : string) (ty : Severity) (prev : list Alert)
  : list Alert :=
  if existsb (fun a => String.eqb (msg a) m) prev then prev
  else (js_slice_last 2 prev ++ [mkAlert now m ty])%list.

(** The updater of the timeout callback, line 333. *)
Definition expire_update (m : string) (prev : list Alert) : list Alert :=
  filter (fun a => negb (String.eqb (msg a) m)) prev.

(** The delay of line 334. *)
Definition ALERT_TTL : Z := 3000.

(** The alert state with the clock and the pending removal timers. *)
Record AlertManager := mkAM {
  clock : Z;
  alerts : list Alert;
  timers : queue string
}.

Definition am_init : AlertManager := mkAM 0 [] [].

(** [triggerAlert(msg, type)], lines 326-335. *)
Definition triggerAlert (m : string) (ty : Severity) (st : AlertManager) : AlertManager :=
  mkAM (clock st) (trigger_update (clock st) m ty (alerts st))
       (setTimeout (clock st) ALERT_TTL m (timers st)).

(** The clock advances to [t]; the due removal callbacks run. *)
Definition tick_to (t : Z) (st : AlertManager) : AlertManager :=
  let (q, a) := advance expire_update t (timers st) (alerts st) in mkAM t a q.

Inductive am_step : AlertManager -> AlertManager -> Prop :=
  | am_trigger m ty st : am_step st (triggerAlert m ty st)
  | am_tick t st : (clock st <= t)%Z -> am_step st (tick_to t st).

Inductive am_reachable : AlertManager -> Prop :=
  | am_reach_init : am_reachable am_init
  | am_reach_step st st' : am_reachable st -> am_step st st' -> am_reachable st'.

(** Zero or more steps of the alert manager. *)
Inductive am_star : AlertManager -> AlertManager -> Prop :=
  | am_star_refl a : am_star a a
  | am_star_step a b c : am_step a b -> am_star b c -> am_star a c.

(** ** The updaters *)

Definition msgs (l : list Alert) : list string := map msg l.

(** At most three alerts, with distinct messages. *)
Definition alerts_wf (l : list Alert) : Prop :=
  (length l <= 3)%nat /\ NoDup (msgs l).

Lemma existsb_msg (m : string) (l : list Alert) :
  existsb (fun a => String.eqb (msg a) m) l = true <-> In m (msgs l).
Proof.
  rewrite existsb_exists. unfold msgs. rewrite in_map_iff.
  split; intros [a [H1 H2]]; exists a; split; auto.
  - now apply String.eqb_eq. 
  - now apply String.eqb_eq.
Qed.

Lemma trigger_update_dup (now : Z) (m : string) (ty : Severity) (prev : list Alert) :
  In m (msgs prev) -> trigger_update now m ty prev = prev.
Proof. intro H. unfold trigger_update. now rewrite (proj2 (existsb_msg m prev) H). Qed.

Lemma trigger_update_fresh (now : Z) (m : string) (ty : Severity) (prev : list Alert) :
  ~ In m (msgs prev) ->
  trigger_update now m ty prev = (js_slice_last 2 prev ++ [mkAlert now m ty])%list.
Proof.
  intro H. unfold trigger_update.
  destruct (existsb _ prev) eqn:E; [apply existsb_msg in E; contradiction|reflexivity].
Qed.

Lemma NoDup_map_suffix {A B} (f : A -> B) (p l : list A) :
  NoDup (map f (p ++ l)) -> NoDup (map f l).
Proof. rewrite map_app. apply NoDup_app_remove_l. Qed.

(** After a trigger, the message is shown (new or already there). *)
Lemma trigger_update_shown (now : Z) (m : string) (ty : Severity) (prev : list Alert) :
  In m (msgs (trigger_update now m ty prev)).
Proof.
  destruct (in_dec string_dec m (msgs prev)) as [Hin|Hin].
  - now rewrite trigger_update_dup.
  - rewrite trigger_update_fresh by exact Hin. unfold msgs. rewrite map_app.
    apply in_or_app. right. now left.
Qed.

Lemma trigger_update_wf (now : Z) (m : string) (ty : Severity) (prev : list Alert) :
  alerts_wf prev -> alerts_wf (trigger_update now m ty prev).
Proof.
  intros [Hl Hd]. destruct (in_dec string_dec m (msgs prev)) as [Hin|Hin].
  - rewrite trigger_update_dup by exact Hin. now split.
  - rewrite trigger_update_fresh by exact Hin.
    destruct (js_slice_last_suffix 2 prev) as [p Hp].
    split.
    + rewrite length_app, js_slice_last_length. cbn [length]. lia.
    + unfold msgs in *. rewrite map_app. apply NoDup_app.
      * rewrite Hp in Hd. eapply NoDup_map_suffix; exact Hd.
      * simpl. constructor; [auto|constructor].
      * intros x Hx [<-|[]]. apply Hin. rewrite Hp, map_app. apply in_or_app. now right.
Qed.

Lemma expire_update_incl (m : string) (l : list Alert) (a : Alert) :
  In a (expire_update m l) <-> In a l /\ msg a <> m.
Proof.
  unfold expire_update. rewrite filter_In, negb_true_iff, String.eqb_neq. reflexivity.
Qed.

Lemma expire_update_wf (m : string) (l : list Alert) :
  alerts_wf l -> alerts_wf (expire_update m l).
Proof.
  intros [Hl Hd]. split.
  - unfold expire_update. pose proof (filter_length_le (fun a => negb (msg a =? m)) l). lia.
  - unfold msgs, expire_update in *. induction l as [|a l IH]; simpl; [constructor|].
    inversion Hd as [|? ? Hna Hd']; subst.
    destruct (negb (msg a =? m)); simpl; [constructor|]; auto.
    + intro Hin. apply Hna. apply in_map_iff in Hin as [b [<- Hb]].
      apply filter_In in Hb. apply in_map. tauto.
    + apply IH; [simpl in Hl; lia|exact Hd'].
    + apply IH; [simpl in Hl; lia|exact Hd'].
Qed.

#[export] Hint Resolve trigger_update_wf expire_update_wf : ecg.

(** ** The invariant of the alert manager

    Besides [alerts_wf]: every pending timer is in the future, and every
    alert has a pending removal timer for its message due at most
    [ALERT_TTL] after the alert was created ([id] is its creation time). *)

Definition timer_covers (q : queue string) (l : list Alert) : Prop :=
  forall a, In a l -> exists d, In (d, msg a) q /\ (d <= id a + ALERT_TTL)%Z.

Definition am_inv (st : AlertManager) : Prop :=
  alerts_wf (alerts st) /\
  Forall (fun e => (clock st < fst e)%Z) (timers st) /\
  timer_covers (timers st) (alerts st).

Lemma am_init_inv : am_inv am_init.
Proof. repeat split; simpl; auto; try constructor. intros a []. Qed.

Lemma timer_covers_app (q q' : queue string) (l : list Alert) :
  timer_covers q l -> timer_covers (q ++ q')%list l.
Proof.
  intros H a Ha. destruct (H a Ha) as [d [Hd Hle]]. exists d. split; [|exact Hle].
  apply in_or_app. now left.
Qed.

Lemma triggerAlert_inv (m : string) (ty : Severity) (st : AlertManager) :
  am_inv st -> am_inv (triggerAlert m ty st).
Proof.
  intros [Hwf [Ht Ha]]. unfold am_inv, triggerAlert, setTimeout; cbn [alerts timers clock].
  split; [now apply trigger_update_wf|split].
  - apply Forall_app. split; [exact Ht|]. constructor; [simpl; unfold ALERT_TTL; lia|constructor].
  - destruct (in_dec string_dec m (msgs (alerts st))) as [Hin|Hin].
    + rewrite trigger_update_dup by exact Hin. now apply timer_covers_app.
    + rewrite trigger_update_fresh by exact Hin. intros a Hs.
      apply in_app_or in Hs as [Hs|[<-|[]]].
      * apply (timer_covers_app _ _ _ Ha). eapply js_slice_last_incl; exact Hs.
      * exists (clock st + ALERT_TTL)%Z. simpl. split; [|lia].
        apply in_or_app. right. now left.
Qed.

Lemma expire_pop_covers (t : Z) (q q' : queue string) (e : Z * string) (l : list Alert) :
  pop_due t q = Some (e, q') -> timer_covers q l -> timer_covers q' (expire_update (snd e) l).
Proof.
  intros Hp Hc a Ha. apply expire_update_incl in Ha as [Ha Hm].
  destruct (Hc a Ha) as [d [Hd Hle]]. exists d. split; [|exact Hle].
  destruct (pop_due_in t q q' e _ Hp Hd) as [<-|H]; [contradiction|exact H].
Qed.

Lemma tick_to_inv (t : Z) (st : AlertManager) :
  (clock st <= t)%Z -> am_inv st -> am_inv (tick_to t st).
Proof.
  intros Hle [Hwf [Ht Ha]]. unfold tick_to, advance.
  pose proof (fire_due_all expire_update (length (timers st)) t (timers st) (alerts st)
                (Nat.le_refl _)) as Hall.
  pose proof (fire_due_preserves expire_update alerts_wf expire_update_wf
                (length (timers st)) t (timers st) (alerts st) Hwf) as Hw.
  pose proof (fire_due_inv expire_update timer_covers
                (fun t q s e q' Hp Hc => expire_pop_covers t q q' e s Hp Hc)
                (length (timers st)) t (timers st) (alerts st) Ha) as Hc.
  destruct (fire_due expire_update (length (timers st)) t (timers st) (alerts st)) as [q a].
  cbn [fst snd] in *. unfold am_inv. cbn [alerts timers clock]. auto.
Qed.

Lemma am_reachable_inv (st : AlertManager) : am_reachable st -> am_inv st.
Proof.
  induction 1 as [|st st' _ IH Hs]; [exact am_init_inv|].
  destruct Hs as [m ty st|t st Hle]; [now apply triggerAlert_inv|now apply tick_to_inv].
Qed.

(** A message with a due removal timer is gone after the pass. *)
Lemma fire_due_removes (m : string) (d t : Z) (q : queue string) (l : list Alert) :
  In (d, m) q -> (d <= t)%Z ->
  ~ In m (msgs (snd (fire_due expire_update (length q) t q l))).
Proof.
  intros Hd Ht.
  pose proof (fire_due_all expire_update (length q) t q l (Nat.le_refl _)) as Hall.
  pose proof (fire_due_inv expire_update
                (fun q l => (exists d, In (d, m) q /\ (d <= t)%Z) \/ ~ In m (msgs l))) as Hi.
  destruct (Hi) with (n := length q) (t := t) (q := q) (s := l) as [[d' [Hd' Ht']]|Hn].
  - clear. intros t' q0 l0 e q' Hp [[d0 [Hd0 Ht0]]|Hn].
    + destruct (pop_due_in t' q0 q' e _ Hp Hd0) as [<-|H].
      * right. unfold msgs. rewrite in_map_iff. intros [a [Ha Hin]].
        apply expire_update_incl in Hin. simpl in Hin. tauto.
      * left. eauto.
    + right. unfold msgs. rewrite in_map_iff. intros [a [<- Hin]].
      apply expire_update_incl in Hin as [Hin _]. apply Hn, in_map, Hin.
  - left. eauto.
  - rewrite Forall_forall in Hall. specialize (Hall _ Hd'). simpl in Hall. lia.
  - exact Hn.
Qed.

Lemma tick_to_alerts (t : Z) (st : AlertManager) :
  alerts (tick_to t st) = snd (advance expire_update t (timers st) (alerts st)).
Proof. unfold tick_to. now destruct (advance expire_update t (timers st) (alerts st)). Qed.

Lemma am_star_one (a b : AlertManager) : am_step a b -> am_star a b.
Proof. intro H. eapply am_star_step; [exact H|constructor]. Qed.

Lemma am_star_reachable (a b : AlertManager) : am_star a b -> am_reachable a -> am_reachable b.
Proof. induction 1 as [|a b c Hs _ IH]; intro H; [exact H|]. apply IH. econstructor; eauto. Qed.

Lemma tick_to_clock (t : Z) (st : AlertManager) : clock (tick_to t st) = t.
Proof. unfold tick_to. now destruct (advance expire_update t (timers st) (alerts st)). Qed.

Lemma tick_to_timers (t : Z) (st : AlertManager) :
  timers (tick_to t st) = fst (advance expire_update t (timers st) (alerts st)).
Proof. unfold tick_to. now destruct (advance expire_update t (timers st) (alerts st)). Qed.

Lemma am_star_clock (a b : AlertManager) : am_star a b -> (clock a <= clock b)%Z.
Proof.
  induction 1 as [|a b c Hs _ IH]; [lia|].
  destruct Hs as [m ty st|t st Hle]; [exact IH|rewrite tick_to_clock in IH; lia].
Qed.

(** A removal timer stays pending along any run that does not reach its
    deadline. *)
Lemma am_star_keeps (a b : AlertManager) (e : Z * string) :
  am_star a b -> In e (timers a) -> (clock b < fst e)%Z -> In e (timers b).
Proof.
  induction 1 as [|a b c Hs Hbc IH]; intros He Hc; [exact He|].
  apply IH; [|exact Hc]. pose proof (am_star_clock b c Hbc) as Hb.
  destruct Hs as [m ty st|t st Hle].
  - cbn [triggerAlert timers]. unfold setTimeout. apply in_or_app. now left.
  - rewrite tick_to_timers. apply fire_due_keeps; [exact He|].
    rewrite tick_to_clock in Hb. lia.
Qed.

(** ** Properties *)

(** C12. In every reachable state there are at most three alerts and no
    two share a message. *)
Theorem alerts_bounded (st : AlertManager) :
  am_reachable st -> (length (alerts st) <= 3)%nat /\ NoDup (msgs (alerts st)).
Proof. intro H. now destruct (am_reachable_inv st H) as [[Hl Hd] _]. Qed.

Definition am_one : AlertManager := triggerAlert "Tachycardia Detected" warning am_init.

Lemma am_one_reachable : am_reachable am_one.
Proof. eapply am_reach_step; [apply am_reach_init|apply am_trigger]. Qed.

Lemma alerts_bounded_witness :
  (length (alerts am_one) <= 3)%nat /\ NoDup (msgs (alerts am_one)).
Proof. apply (alerts_bounded am_one). eapply am_reach_step; [apply am_reach_init|apply am_trigger]. Defined.

(** Under the invariant, every alert is younger than [ALERT_TTL]. *)
Lemma am_inv_fresh (st : AlertManager) :
  am_inv st -> forall a, In a (alerts st) -> (clock st < id a + ALERT_TTL)%Z.
Proof.
  intros [_ [Ht Hc]] a Ha. destruct (Hc a Ha) as [d [Hd Hle]]. rewrite Forall_forall in Ht.
  specialize (Ht _ Hd). simpl in Ht. lia.
Qed.

(** C13. In every reachable state each alert was created less than
    [ALERT_TTL] = 3000 ms ago: its removal timer has not fired yet. *)
Theorem alerts_expire (st : AlertManager) :
  am_reachable st -> forall a, In a (alerts st) -> (clock st < id a + ALERT_TTL)%Z.
Proof. intro H. exact (am_inv_fresh st (am_reachable_inv st H)). Qed.

Lemma alerts_expire_witness :
  (clock am_one < id (mkAlert 0 "Tachycardia Detected" warning) + ALERT_TTL)%Z.
Proof.
  apply (alerts_expire am_one); [|vm_compute; now left].
  eapply am_reach_step; [apply am_reach_init|apply am_trigger].
Defined.

(** C14. Triggering a message that is already shown leaves the alerts
    unchanged, but still schedules a removal timer for the message. *)
Theorem trigger_duplicate (m : string) (ty : Severity) (st : AlertManager) :
  In m (msgs (alerts st)) ->
  alerts (triggerAlert m ty st) = alerts st /\
  timers (triggerAlert m ty st) = (timers st ++ [((clock st + ALERT_TTL)%Z, m)])%list.
Proof. intro H. split; [apply trigger_update_dup, H|reflexivity]. Qed.

Lemma trigger_duplicate_witness :
  alerts (triggerAlert "Tachycardia Detected" info am_one) = alerts am_one /\
  timers (triggerAlert "Tachycardia Detected" info am_one) =
    (timers am_one ++ [((clock am_one + ALERT_TTL)%Z, "Tachycardia Detected")])%list.
Proof. apply trigger_duplicate. vm_compute. now left. Defined.

(** C15. A fourth distinct message evicts the oldest alert. *)
Theorem trigger_evicts_oldest (m : string) (ty : Severity) (st : AlertManager) :
  length (alerts st) = 3%nat -> ~ In m (msgs (alerts st)) ->
  alerts (triggerAlert m ty st) = (tl (alerts st) ++ [mkAlert (clock st) m ty])%list.
Proof.
  intros Hl Hm. simpl. rewrite trigger_update_fresh by exact Hm.
  unfold js_slice_last. rewrite Hl. destruct (alerts st); reflexivity.
Qed.

Definition am_three : AlertManager :=
  triggerAlert "C" info (triggerAlert "B" info (triggerAlert "A" info am_init)).

Lemma trigger_evicts_oldest_witness :
  alerts (triggerAlert "D" critical am_three) =
  (tl (alerts am_three) ++ [mkAlert (clock am_three) "D" critical])%list.
Proof. apply trigger_evicts_oldest; [reflexivity|vm_compute; intuition discriminate]. Defined.

(** Once [ALERT_TTL] has elapsed after [triggerAlert(msg)], no alert
    with that message is shown. *)
Theorem trigger_then_expired (m : string) (ty : Severity) (st : AlertManager) :
  ~ In m (msgs (alerts (tick_to (clock st + ALERT_TTL) (triggerAlert m ty st)))).
Proof.
  rewrite tick_to_alerts. unfold advance.
  apply (fire_due_removes m (clock st + ALERT_TTL)); [|cbn [clock triggerAlert]; lia].
  simpl. unfold setTimeout. apply in_or_app. right. now left.
Qed.

(** C16. Removal timers are keyed by message, not by alert: a trigger of
    [m] at time [c], even one suppressed as a duplicate, removes every
    alert with message [m] shown at [c + ALERT_TTL], whatever happened in
    between.  So an alert for [m] shown again after a suppressed trigger
    disappears less than [ALERT_TTL] after it was created. *)
Theorem alert_early_expiry (st st' : AlertManager) (m : string) (ty : Severity) (t : Z) :
  am_star (triggerAlert m ty st) st' -> (clock st' < clock st + ALERT_TTL)%Z ->
  (clock st + ALERT_TTL <= t)%Z ->
  ~ In m (msgs (alerts (tick_to t st'))).
Proof.
  intros Hs Hc Ht.
  assert (Hin : In (clock st + ALERT_TTL, m)%Z (timers st')).
  { apply (am_star_keeps _ _ _ Hs); [|exact Hc].
    cbn [triggerAlert timers]. unfold setTimeout. apply in_or_app. right. now left. }
  rewrite tick_to_alerts. exact (fire_due_removes m _ t (timers st') (alerts st') Hin Ht).
Qed.

(** "A" is shown at 0 and triggered again at 2000 (suppressed); its first
    timer removes it at 3000; it is shown again at 3500 and removed at
    5000 by the timer of the suppressed trigger, 1500 ms after it was
    created. *)
Definition early_expiry_start : AlertManager :=
  tick_to 2000 (triggerAlert "A" warning am_init).

Definition early_expiry_trace : AlertManager :=
  triggerAlert "A" warning (tick_to 3500 (triggerAlert "A" warning early_expiry_start)).

Lemma alert_early_expiry_witness :
  alerts early_expiry_trace = [mkAlert 3500 "A" warning] /\
  ~ In "A" (msgs (alerts (tick_to 5000 early_expiry_trace))).
Proof.
  split; [vm_compute; reflexivity|].
  apply (alert_early_expiry early_expiry_start early_expiry_trace "A" warning 5000).
  - eapply am_star_step; [apply (am_tick 3500); apply Z.leb_le; vm_compute; reflexivity|].
    eapply am_star_step; [apply am_trigger|apply am_star_refl].
  - apply Z.ltb_lt. vm_compute. reflexivity.
  - apply Z.leb_le. vm_compute. reflexivity.
Defined.

(** Alert ids are [Date.now()], so two alerts raised in the same
    millisecond share their id. *)
Theorem alert_ids_collide :
  map id (alerts (triggerAlert "Signal Noise" info
                    (triggerAlert "PVC Detected" warning am_init))) = [0%Z; 0%Z].
Proof. vm_compute. reflexivity. Qed.
