(* ===== verification/DisplayBuffer.v ===== *)
(** * The sliding display window

    [src/src/main.jsx], lines 166-168 and 386-395: the [setDisplayData]
    updater of [updateSimulation] appends the samples consumed in a frame
    to the displayed buffer and, when the buffer exceeds
    [POINTS_PER_WINDOW] = [SAMPLE_RATE * WINDOW_SIZE_SECONDS] = 600
    samples, keeps its last 600 ([newBuffer.slice(newBuffer.length - 600)]).

    The abstract specification is [lastn]: the window is the last
    [capacity] samples of everything appended so far.  The class
    [SlidingWindow] states that contract; [display_update] is an
    instance of it, and [Playback] reasons about the display through the
    class. *)

From S2P Require Import Prelude JsRuntime Peaks Analyzer.
From Stdlib Require Import List Lia Arith ZArith.
Import ListNotations.

(** ** The code *)

(** [const WINDOW_SIZE_SECONDS = 3;
      const POINTS_PER_WINDOW = SAMPLE_RATE * WINDOW_SIZE_SECONDS;] *)
Definition WINDOW_SIZE_SECONDS : nat := 3.
Definition POINTS_PER_WINDOW : nat := Z.to_nat SAMPLE_RATE * WINDOW_SIZE_SECONDS.

(** [setDisplayData(prev => ...)], lines 386-395. *)
Definition display_update {A} (newPoints prev : list A) : list A :=
  match newPoints with
  | [] => prev
  | _ :: _ =>
      let newBuffer := prev ++ newPoints in
      if POINTS_PER_WINDOW <? length newBuffer
      then skipn (length newBuffer - POINTS_PER_WINDOW) newBuffer
      else newBuffer
  end.

(** ** The specification *)

(** The last [k] elements of [l]. *)
Definition lastn {A} (k : nat) (l : list A) : list A := skipn (length l - k) l.

(** A window of capacity [cap] maintained by [push]: pushing a chunk
    onto a window that holds the last [cap] samples of a stream gives the
    last [cap] samples of the extended stream. *)
Class SlidingWindow (push : forall A, list A -> list A -> list A) (cap : nat) := {
  push_lastn : forall A (stream chunk : list A),
    push A chunk (lastn cap stream) = lastn cap (stream ++ chunk)
}.

(** ** Lemmas on [lastn] *)

Lemma length_lastn {A} (k : nat) (l : list A) : length (lastn k l) = Nat.min k (length l).
Proof. unfold lastn. rewrite length_skipn. lia. Qed.

Lemma lastn_app_long {A} (k : nat) (p m : list A) :
  (k <= length m)%nat -> lastn k (p ++ m) = lastn k m.
Proof.
  intro H. unfold lastn. rewrite length_app, skipn_app, skipn_all2 by lia.
  simpl. f_equal. lia.
Qed.

Lemma lastn_short {A} (k : nat) (l : list A) : (length l <= k)%nat -> lastn k l = l.
Proof. intro H. unfold lastn. replace (length l - k) with 0 by lia. reflexivity. Qed.

Lemma lastn_suffix {A} (k : nat) (l : list A) : exists p, l = p ++ lastn k l.
Proof. exists (firstn (length l - k) l). symmetry. apply firstn_skipn. Qed.

Lemma lastn_lastn_app {A} (k : nat) (l c : list A) :
  lastn k (lastn k l ++ c) = lastn k (l ++ c).
Proof.
  destruct (Nat.le_gt_cases k (length l)) as [H|H].
  - destruct (lastn_suffix k l) as [p Hp].
    rewrite Hp at 2. rewrite <- app_assoc. symmetry. apply lastn_app_long.
    rewrite length_app, length_lastn. lia.
  - now rewrite (lastn_short k l) by lia.
Qed.

Lemma lastn_lastn_le {A} (m k : nat) (l : list A) :
  (m <= k)%nat -> lastn m (lastn k l) = lastn m l.
Proof.
  intro H. destruct (Nat.le_gt_cases k (length l)) as [Hk|Hk].
  - destruct (lastn_suffix k l) as [p Hp].
    rewrite Hp at 2. symmetry. apply lastn_app_long. rewrite length_lastn. lia.
  - now rewrite (lastn_short k l) by lia.
Qed.

Lemma lastn_length_min {A} (k : nat) (l : list A) : lastn k l = lastn (Nat.min k (length l)) l.
Proof. unfold lastn. f_equal. lia. Qed.

(** The updater is [lastn POINTS_PER_WINDOW] of the appended buffer. *)
Lemma display_update_lastn {A} (newPoints prev : list A) :
  newPoints <> [] -> display_update newPoints prev = lastn POINTS_PER_WINDOW (prev ++ newPoints).
Proof.
  intro Hne. unfold display_update, lastn. destruct newPoints as [|x xs]; [congruence|].
  destruct (Nat.ltb_spec POINTS_PER_WINDOW (length (prev ++ x :: xs))); [reflexivity|].
  replace (length (prev ++ x :: xs) - POINTS_PER_WINDOW) with 0 by lia. reflexivity.
Qed.

(** The display updater implements the sliding-window contract with
    capacity [POINTS_PER_WINDOW]. *)
#[export] Instance display_window : SlidingWindow (@display_update) POINTS_PER_WINDOW.
Proof.
  constructor. intros A stream chunk. destruct chunk as [|x xs].
  - simpl. now rewrite app_nil_r.
  - rewrite display_update_lastn by discriminate. apply lastn_lastn_app.
Qed.

(** ** Properties of the display *)

(** The display after feeding the chunks [chunks] one frame at a time. *)
Definition feed {A} (chunks : list (list A)) (w : list A) : list A :=
  fold_left (fun w c => display_update c w) chunks w.

Lemma feed_lastn {A} (chunks : list (list A)) (stream : list A) :
  feed chunks (lastn POINTS_PER_WINDOW stream) = lastn POINTS_PER_WINDOW (stream ++ concat chunks).
Proof.
  revert stream. induction chunks as [|c cs IH]; intro stream; simpl.
  - now rewrite app_nil_r.
  - unfold feed in *. simpl. rewrite push_lastn, IH. now rewrite app_assoc.
Qed.

(** From an empty display, feeding any sequence of frames leaves
    exactly the last 600 samples of the stream, in stream order: the
    oldest samples are evicted first. *)
Theorem feed_is_last_window {A} (chunks : list (list A)) :
  feed chunks [] = lastn POINTS_PER_WINDOW (concat chunks).
Proof. exact (feed_lastn chunks []). Qed.

(** The display never holds more than [POINTS_PER_WINDOW] = 600
    samples, after any number of frames. *)
Theorem feed_bounded {A} (chunks : list (list A)) :
  (length (feed chunks []) <= POINTS_PER_WINDOW)%nat.
Proof.
  replace (feed chunks []) with (lastn POINTS_PER_WINDOW (concat chunks))
    by (symmetry; exact (feed_lastn chunks [])).
  rewrite length_lastn. lia.
Qed.

(** One frame on a display already within capacity stays within it. *)
Lemma display_update_bounded {A} (newPoints prev : list A) :
  (length prev <= POINTS_PER_WINDOW)%nat ->
  (length (display_update newPoints prev) <= POINTS_PER_WINDOW)%nat.
Proof.
  intro H. destruct newPoints as [|x xs]; [exact H|].
  rewrite display_update_lastn by discriminate. rewrite length_lastn. lia.
Qed.
