(* ===== verification/AppState.v ===== *)
(** * The state of the [App] component

    [src/src/main.jsx], lines 137-171: every [useState] and [useRef] cell
    of [App], gathered in the record [App], together with what the host
    keeps for the component: the wall clock read by [Date.now()], the
    queue of pending [setTimeout] callbacks ([Callback], one constructor
    per [setTimeout] of the code, carrying what its closure captured)
    and whether an animation frame is requested.  [set_<field>] is the
    setter of one field: a React [setX(v)] call, or an assignment to a
    ref.  The initial state [app_init] has the [useState] defaults. *)

From S2P Require Import Prelude JsRuntime Peaks Analyzer Timers Alerts.
From Stdlib Require Import String QArith List ZArith.
Import ListNotations.
Open Scope Q_scope.
Open Scope string_scope.

(** The model ids of [ModelSelector], lines 112-116. *)
Inductive Model := mit_bih | ptb | physionet.

(** An anomaly of [injectDemoEvents], lines 405-412: [{ r, score, expl, alert, type }]. *)
Record DemoEvent := mkEvent {
  ev_r : string;
  ev_score : Z;
  ev_expl : string;
  ev_alert : string;
  ev_type : Severity
}.

(** The [setTimeout] callbacks of the component. *)
Inductive Callback :=
  | cb_remove_alert (m : string)
      (** [triggerAlert], lines 332-334: remove the alerts with message [m]. *)
  | cb_revert (playing : bool) (ar : option AnalysisResult)
      (** [injectDemoEvents], lines 425-431: the closure captured [isPlaying]
          and [analysisResult] of the render that ran the frame. *)
  | cb_report_done.
      (** [generateReport], lines 320-323: [window.print()] and the end of
          report generation. *)

(** The component state. *)
Record App := mkApp {
  isPlaying : bool; (** [isPlaying], line 139 *)
  ecgData : list Q; (** [ecgData], line 140 *)
  displayData : list Q; (** [displayData], line 141 *)
  uploadedFileName : option string; (** [uploadedFileName], line 142 ([null] is [None]) *)
  playbackProgress : Q; (** [playbackProgress], line 143 *)
  activeModel : Model; (** [activeModel], line 146 *)
  currentTime : Q; (** [currentTime], line 147 *)
  heartRate : Q; (** [heartRate], line 148 *)
  currentRhythm : string; (** [currentRhythm], line 149 *)
  confidence : Q; (** [confidence], line 150 *)
  riskScore : Z; (** [riskScore], line 151 *)
  aiExplanation : string; (** [aiExplanation], line 152 *)
  alertList : list Alert; (** [alerts], line 153 *)
  isGeneratingReport : bool; (** [isGeneratingReport], line 156 *)
  analysisResult : option AnalysisResult; (** [analysisResult], line 159 *)
  dataIndex : Z; (** [dataIndexRef.current], line 162 *)
  timeRef : Q; (** [timeRef.current], line 163 *)
  frameRequested : bool; (** a frame is requested through [requestRef] (line 161) *)
  nowMs : Z; (** the wall clock, [Date.now()] *)
  timeouts : queue Callback (** the pending [setTimeout] callbacks *)
}.

Definition set_isPlaying (v : bool) (s : App) : App :=
  mkApp v (ecgData s) (displayData s) (uploadedFileName s) (playbackProgress s) (activeModel s) (currentTime s) (heartRate s) (currentRhythm s) (confidence s) (riskScore s) (aiExplanation s) (alertList s) (isGeneratingReport s) (analysisResult s) (dataIndex s) (timeRef s) (frameRequested s) (nowMs s) (timeouts s).

Definition set_ecgData (v : list Q) (s : App) : App :=
  mkApp (isPlaying s) v (displayData s) (uploadedFileName s) (playbackProgress s) (activeModel s) (currentTime s) (heartRate s) (currentRhythm s) (confidence s) (riskScore s) (aiExplanation s) (alertList s) (isGeneratingReport s) (analysisResult s) (dataIndex s) (timeRef s) (frameRequested s) (nowMs s) (timeouts s).

Definition set_displayData (v : list Q) (s : App) : App :=
  mkApp (isPlaying s) (ecgData s) v (uploadedFileName s) (playbackProgress s) (activeModel s) (currentTime s) (heartRate s) (currentRhythm s) (confidence s) (riskScore s) (aiExplanation s) (alertList s) (isGeneratingReport s) (analysisResult s) (dataIndex s) (timeRef s) (frameRequested s) (nowMs s) (timeouts s).

Definition set_uploadedFileName (v : option string) (s : App) : App :=
  mkApp (isPlaying s) (ecgData s) (displayData s) v (playbackProgress s) (activeModel s) (currentTime s) (heartRate s) (currentRhythm s) (confidence s) (riskScore s) (aiExplanation s) (alertList s) (isGeneratingReport s) (analysisResult s) (dataIndex s) (timeRef s) (frameRequested s) (nowMs s) (timeouts s).

Definition set_playbackProgress (v : Q) (s : App) : App :=
  mkApp (isPlaying s) (ecgData s) (displayData s) (uploadedFileName s) v (activeModel s) (currentTime s) (heartRate s) (currentRhythm s) (confidence s) (riskScore s) (aiExplanation s) (alertList s) (isGeneratingReport s) (analysisResult s) (dataIndex s) (timeRef s) (frameRequested s) (nowMs s) (timeouts s).

Definition set_activeModel (v : Model) (s : App) : App :=
  mkApp (isPlaying s) (ecgData s) (displayData s) (uploadedFileName s) (playbackProgress s) v (currentTime s) (heartRate s) (currentRhythm s) (confidence s) (riskScore s) (aiExplanation s) (alertList s) (isGeneratingReport s) (analysisResult s) (dataIndex s) (timeRef s) (frameRequested s) (nowMs s) (timeouts s).

Definition set_currentTime (v : Q) (s : App) : App :=
  mkApp (isPlaying s) (ecgData s) (displayData s) (uploadedFileName s) (playbackProgress s) (activeModel s) v (heartRate s) (currentRhythm s) (confidence s) (riskScore s) (aiExplanation s) (alertList s) (isGeneratingReport s) (analysisResult s) (dataIndex s) (timeRef s) (frameRequested s) (nowMs s) (timeouts s).

Definition set_heartRate (v : Q) (s : App) : App :=
  mkApp (isPlaying s) (ecgData s) (displayData s) (uploadedFileName s) (playbackProgress s) (activeModel s) (currentTime s) v (currentRhythm s) (confidence s) (riskScore s) (aiExplanation s) (alertList s) (isGeneratingReport s) (analysisResult s) (dataIndex s) (timeRef s) (frameRequested s) (nowMs s) (timeouts s).

Definition set_currentRhythm (v : string) (s : App) : App :=
  mkApp (isPlaying s) (ecgData s) (displayData s) (uploadedFileName s) (playbackProgress s) (activeModel s) (currentTime s) (heartRate s) v (confidence s) (riskScore s) (aiExplanation s) (alertList s) (isGeneratingReport s) (analysisResult s) (dataIndex s) (timeRef s) (frameRequested s) (nowMs s) (timeouts s).

Definition set_confidence (v : Q) (s : App) : App :=
  mkApp (isPlaying s) (ecgData s) (displayData s) (uploadedFileName s) (playbackProgress s) (activeModel s) (currentTime s) (heartRate s) (currentRhythm s) v (riskScore s) (aiExplanation s) (alertList s) (isGeneratingReport s) (analysisResult s) (dataIndex s) (timeRef s) (frameRequested s) (nowMs s) (timeouts s).

Definition set_riskScore (v : Z) (s : App) : App :=
  mkApp (isPlaying s) (ecgData s) (displayData s) (uploadedFileName s) (playbackProgress s) (activeModel s) (currentTime s) (heartRate s) (currentRhythm s) (confidence s) v (aiExplanation s) (alertList s) (isGeneratingReport s) (analysisResult s) (dataIndex s) (timeRef s) (frameRequested s) (nowMs s) (timeouts s).

Definition set_aiExplanation (v : string) (s : App) : App :=
  mkApp (isPlaying s) (ecgData s) (displayData s) (uploadedFileName s) (playbackProgress s) (activeModel s) (currentTime s) (heartRate s) (currentRhythm s) (confidence s) (riskScore s) v (alertList s) (isGeneratingReport s) (analysisResult s) (dataIndex s) (timeRef s) (frameRequested s) (nowMs s) (timeouts s).

Definition set_alertList (v : list Alert) (s : App) : App :=
  mkApp (isPlaying s) (ecgData s) (displayData s) (uploadedFileName s) (playbackProgress s) (activeModel s) (currentTime s) (heartRate s) (currentRhythm s) (confidence s) (riskScore s) (aiExplanation s) v (isGeneratingReport s) (analysisResult s) (dataIndex s) (timeRef s) (frameRequested s) (nowMs s) (timeouts s).

Definition set_isGeneratingReport (v : bool) (s : App) : App :=
  mkApp (isPlaying s) (ecgData s) (displayData s) (uploadedFileName s) (playbackProgress s) (activeModel s) (currentTime s) (heartRate s) (currentRhythm s) (confidence s) (riskScore s) (aiExplanation s) (alertList s) v (analysisResult s) (dataIndex s) (timeRef s) (frameRequested s) (nowMs s) (timeouts s).

Definition set_analysisResult (v : option AnalysisResult) (s : App) : App :=
  mkApp (isPlaying s) (ecgData s) (displayData s) (uploadedFileName s) (playbackProgress s) (activeModel s) (currentTime s) (heartRate s) (currentRhythm s) (confidence s) (riskScore s) (aiExplanation s) (alertList s) (isGeneratingReport s) v (dataIndex s) (timeRef s) (frameRequested s) (nowMs s) (timeouts s).

Definition set_dataIndex (v : Z) (s : App) : App :=
  mkApp (isPlaying s) (ecgData s) (displayData s) (uploadedFileName s) (playbackProgress s) (activeModel s) (currentTime s) (heartRate s) (currentRhythm s) (confidence s) (riskScore s) (aiExplanation s) (alertList s) (isGeneratingReport s) (analysisResult s) v (timeRef s) (frameRequested s) (nowMs s) (timeouts s).

Definition set_timeRef (v : Q) (s : App) : App :=
  mkApp (isPlaying s) (ecgData s) (displayData s) (uploadedFileName s) (playbackProgress s) (activeModel s) (currentTime s) (heartRate s) (currentRhythm s) (confidence s) (riskScore s) (aiExplanation s) (alertList s) (isGeneratingReport s) (analysisResult s) (dataIndex s) v (frameRequested s) (nowMs s) (timeouts s).

Definition set_frameRequested (v : bool) (s : App) : App :=
  mkApp (isPlaying s) (ecgData s) (displayData s) (uploadedFileName s) (playbackProgress s) (activeModel s) (currentTime s) (heartRate s) (currentRhythm s) (confidence s) (riskScore s) (aiExplanation s) (alertList s) (isGeneratingReport s) (analysisResult s) (dataIndex s) (timeRef s) v (nowMs s) (timeouts s).

Definition set_nowMs (v : Z) (s : App) : App :=
  mkApp (isPlaying s) (ecgData s) (displayData s) (uploadedFileName s) (playbackProgress s) (activeModel s) (currentTime s) (heartRate s) (currentRhythm s) (confidence s) (riskScore s) (aiExplanation s) (alertList s) (isGeneratingReport s) (analysisResult s) (dataIndex s) (timeRef s) (frameRequested s) v (timeouts s).

Definition set_timeouts (v : queue Callback) (s : App) : App :=
  mkApp (isPlaying s) (ecgData s) (displayData s) (uploadedFileName s) (playbackProgress s) (activeModel s) (currentTime s) (heartRate s) (currentRhythm s) (confidence s) (riskScore s) (aiExplanation s) (alertList s) (isGeneratingReport s) (analysisResult s) (dataIndex s) (timeRef s) (frameRequested s) (nowMs s) v.

(** The initial state: the [useState] and [useRef] defaults. *)
Definition app_init : App :=
  mkApp false [] [] None 0 mit_bih 0 0 "System Paused" 0 0
    "System in standby. Please upload ECG data to begin." [] false None 0 0 false 0 [].

(** [app_simpl] computes field reads of setter applications. *)
Ltac app_simpl :=
  cbn [isPlaying ecgData displayData uploadedFileName playbackProgress activeModel currentTime heartRate currentRhythm confidence riskScore aiExplanation alertList isGeneratingReport analysisResult dataIndex timeRef frameRequested nowMs timeouts set_isPlaying set_ecgData set_displayData set_uploadedFileName set_playbackProgress set_activeModel set_currentTime set_heartRate set_currentRhythm set_confidence set_riskScore set_aiExplanation set_alertList set_isGeneratingReport set_analysisResult set_dataIndex set_timeRef set_frameRequested set_nowMs set_timeouts] in *.

(** Setting a field to the value it has changes nothing. *)
Lemma set_dataIndex_same (s : App) : set_dataIndex (dataIndex s) s = s.
Proof. destruct s; reflexivity. Qed.

Lemma set_dataIndex_twice (a b : Z) (s : App) :
  set_dataIndex a (set_dataIndex b s) = set_dataIndex a s.
Proof. destruct s; reflexivity. Qed.
