(* ===== verification/Playback.v ===== *)
(** * The playback scheduler and the handlers of [App]

    [src/src/main.jsx]: [updateSimulation] (lines 339-400), the frame
    callback that consumes four samples per animation frame;
    [injectDemoEvents] (lines 402-433), called every 300 samples;
    [togglePlay] (lines 294-312); [handleFileUpload] (lines 259-292),
    split into its synchronous part and the [reader.onload] callback;
    [generateReport] (lines 314-324); and the [triggerAlert] of the
    component (lines 326-335).  Each handler is a function [App -> App]
    whose [set_*] calls follow the code in order.

    [Math.random()] is an input: a frame receives the list of draws it
    consumes ([Rand]); the choice of a demo event is behind the class
    [EventSource] (the pluggable event source of the design), with the
    code's randomised source [random_demo_source] and a [null_source].

    The animation-frame effect (lines 435-440) requests a frame after
    every render in which [isPlaying] holds and cancels it otherwise;
    [commit] records that, so [frameRequested] follows [isPlaying]
    except in the frame that detects the end of the data, which returns
    before requesting a new frame. *)

From S2P Require Import Prelude JsRuntime Peaks Analyzer Timers Alerts DisplayBuffer AppState.
From Stdlib Require Import String QArith Qround Qminmax List ZArith Lia Lqa Bool.
Import ListNotations.
Open Scope Q_scope.
Open Scope ecg_scope.
Open Scope string_scope.

(** ** JavaScript helpers specific to the component *)

(** Truthiness of [uploadedFileName]: [null] and [""] are falsy. *)
Definition name_truthy (o : option string) : bool :=
  match o with
  | Some n => negb (String.eqb n "")
  | None => false
  end.

(** [Math.random()] draws supplied by the environment, in call order;
    each is in [0, 1).  When the supplied list is exhausted the model
    draws 0, which is one of the values [Math.random()] may return. *)
Definition Rand := list Q.

Definition next_random (r : Rand) : Q * Rand :=
  match r with
  | [] => (0, [])
  | x :: xs => (x, xs)
  end.

(** ** The component's [triggerAlert], lines 326-335 *)

Definition app_triggerAlert (m : string) (ty : Severity) (s : App) : App :=
  set_timeouts (setTimeout (nowMs s) ALERT_TTL (cb_remove_alert m) (timeouts s))
    (set_alertList (trigger_update (nowMs s) m ty (alertList s)) s).

(** ** The demo events, lines 402-433 *)

Definition anomalies : list DemoEvent :=
  [ mkEvent "Ventricular Ectopy" 65 "Real-time analysis detected isolated PVC."
      "PVC Detected" warning;
    mkEvent "Signal Artifact" 20 "Motion artifact detected in signal stream."
      "Signal Noise" info;
    mkEvent "T-Wave Alternans" 55 "Beat-to-beat variation in repolarization."
      "Repolarization Risk" warning ].

Definition criticalEvent : DemoEvent :=
  mkEvent "Non-Sustained V-Tach" 88 "CRITICAL: Run of 3+ ventricular beats > 100bpm detected."
    "V-Tach Warning" critical.

(** The choice of lines 403-418: an event when [rand > 0.6], the critical
    one when [rand > 0.92], otherwise [anomalies[Math.floor(Math.random() * 3)]]
    (always defined, as the second draw is below 1). *)
Definition demo_pick (r : Rand) : option DemoEvent * Rand :=
  let (rand, r) := next_random r in
  if (6 # 10) <js rand then
    if (92 # 100) <js rand then (Some criticalEvent, r)
    else
      let (rand2, r) := next_random r in
      (nth_error anomalies (Z.to_nat (Qfloor (rand2 * 3))), r)
  else (None, r).

(** The pluggable event source: what the scheduler asks for every 300
    samples.  The scheduler's theorems hold for every instance. *)
Class EventSource := { pick_event : Rand -> option DemoEvent * Rand }.

#[export] Instance random_demo_source : EventSource := { pick_event := demo_pick }.

Definition null_source : EventSource := {| pick_event := fun r => (None, r) |}.

(** Lines 413-416 and 419-422: show the event and raise its alert
    ([if (event.alert)]: the message is non-empty). *)
Definition apply_demo_event (ev : DemoEvent) (s : App) : App :=
  let s := set_aiExplanation (ev_expl ev) (set_riskScore (ev_score ev)
             (set_currentRhythm (ev_r ev) s)) in
  if negb (String.eqb (ev_alert ev) "") then app_triggerAlert (ev_alert ev) (ev_type ev) s else s.

(** [injectDemoEvents()]: apply the picked event and schedule the revert
    (lines 425-431), whose closure captures [isPlaying] and
    [analysisResult] of the current render. *)
Definition injectDemoEvents `{EventSource} (r : Rand) (s : App) : App * Rand :=
  match pick_event r with
  | (Some ev, r') =>
      let s := apply_demo_event ev s in
      (set_timeouts (setTimeout (nowMs s) 4000 (cb_revert (isPlaying s) (analysisResult s))
                      (timeouts s)) s, r')
  | (None, r') => (s, r')
  end.

(** ** The frame callback [updateSimulation], lines 339-400 *)

(** [const SAMPLES_PER_FRAME = 4;] *)
Definition SAMPLES_PER_FRAME : nat := 4.

(** [for (let i = 0; i < SAMPLES_PER_FRAME; i++) {
       if (dataIndexRef.current < ecgData.length) {
         newPoints.push(ecgData[dataIndexRef.current]); dataIndexRef.current++; } }] *)
Fixpoint consume_loop (n : nat) (s : App) (newPoints : list Q) : App * list Q :=
  match n with
  | O => (s, newPoints)
  | S n' =>
      if (dataIndex s <? Z.of_nat (length (ecgData s)))%Z then
        consume_loop n' (set_dataIndex (dataIndex s + 1)%Z s)
          (newPoints ++ [sample (ecgData s) (dataIndex s)])
      else consume_loop n' s newPoints
  end.

(** Lines 351-358: the final values shown at the end of the data. *)
Definition show_final (ar : AnalysisResult) (s : App) : App :=
  let s := set_heartRate (hr ar) s in
  let s := set_riskScore (risk ar) s in
  let s := set_confidence 100 s in
  let s := set_currentRhythm "Analysis Complete" s in
  let s := set_aiExplanation ("File processing complete. Final Classification: "
             ++ rhythm ar ++ ". " ++ explanation ar) s in
  app_triggerAlert "Signal Stream Ended" info s.

(** Lines 386-399: the display updater and the next frame request. *)
Definition end_frame (newPoints : list Q) (s : App) : App :=
  let s := set_displayData (display_update newPoints (displayData s)) s in
  set_frameRequested (isPlaying s) s.

(** Line 375-377: the jitter of the displayed rate every 20 samples. *)
Definition jitter (r : Rand) (s : App) : App * Rand :=
  match analysisResult s with
  | Some ar =>
      if (0 <js hr ar) && (Z.rem (dataIndex s) 20 =? 0)%Z then
        let (x, r) := next_random r in
        (set_heartRate (hr ar + (x - (1 # 2)) * 2) s, r)
      else (s, r)
  | None => (s, r)
  end.

Definition updateSimulation `{EventSource} (r : Rand) (s : App) : App * Rand :=
  let s := set_timeRef (timeRef s + (1 # 60)) s in
  let len := Z.of_nat (length (ecgData s)) in
  if name_truthy (uploadedFileName s) && (0 <? len)%Z then
    if (len <=? dataIndex s)%Z then
      let s := set_playbackProgress 100 (set_isPlaying false s) in
      let s := match analysisResult s with
               | Some ar => show_final ar s
               | None => s
               end in
      (set_frameRequested false s, r)
    else
      let (s, newPoints) := consume_loop SAMPLES_PER_FRAME s [] in
      let s := set_playbackProgress
                 (Qmin 100 (inject_Z (dataIndex s) / inject_Z len * 100)) s in
      let (s, r) := jitter r s in
      let (s, r) := if (Z.rem (dataIndex s) 300 =? 0)%Z then injectDemoEvents r s
                    else (s, r) in
      (end_frame newPoints s, r)
  else (end_frame [] s, r).

(** ** The controls *)

(** The effect of lines 435-440 after a render: a frame is requested
    exactly when [isPlaying] holds. *)
Definition commit (s : App) : App := set_frameRequested (isPlaying s) s.

(** [togglePlay], lines 294-312. *)
Definition togglePlay (s : App) : App :=
  if negb (name_truthy (uploadedFileName s)) then
    app_triggerAlert "Upload CSV Required" critical s
  else if (Z.of_nat (length (ecgData s)) <=? dataIndex s)%Z then
    let s := set_dataIndex 0 s in
    let s := set_displayData [] s in
    let s := set_playbackProgress 0 s in
    let s := set_isPlaying true s in
    match analysisResult s with
    | Some ar => set_aiExplanation (explanation ar) (set_currentRhythm (rhythm ar) s)
    | None => s
    end
  else set_isPlaying (negb (isPlaying s)) s.

(** The provenance check of lines 262-263. *)
Definition file_name_ok (name : string) : bool :=
  let lower := js_to_lower name in
  js_includes lower "mit" || js_includes lower "physionet".

(** [handleFileUpload], lines 259-270 and 290: validate the name, record
    it and start reading ([None] is no file selected). *)
Definition handleFileUpload (file : option string) (s : App) : App :=
  match file with
  | None => s
  | Some name =>
      if negb (file_name_ok name) then
        app_triggerAlert "Invalid Source: Upload MIT or PhysioNet CSV" critical s
      else set_uploadedFileName (Some name) s
  end.

(** [reader.onload], lines 271-289, on the parsed rows of line 273. *)
Definition onFileLoaded (rows : list Q) (s : App) : App :=
  let s := set_ecgData rows s in
  let s := set_dataIndex 0 s in
  let s := set_playbackProgress 0 s in
  let analysis := analyzeECGSignal rows in
  let s := set_analysisResult (Some analysis) s in
  let s := set_heartRate (hr analysis) s in
  let s := set_currentRhythm (rhythm analysis) s in
  let s := set_riskScore (risk analysis) s in
  let s := set_aiExplanation (explanation analysis) s in
  let s := set_confidence (995 # 10) s in
  let s := match alert analysis with
           | Some a => app_triggerAlert a (if (70 <? risk analysis)%Z then critical else warning) s
           | None => s
           end in
  set_isPlaying true s.

(** [generateReport], lines 314-324 ([window.print()] is external). *)
Definition generateReport (s : App) : App :=
  if negb (name_truthy (uploadedFileName s)) then
    app_triggerAlert "No Data to Report" warning s
  else
    set_timeouts (setTimeout (nowMs s) 1500 cb_report_done (timeouts s))
      (set_isGeneratingReport true s).

(** The report button, [disabled={isGeneratingReport || !uploadedFileName}]
    (line 566): a disabled button does not fire [onClick]. *)
Definition report_disabled (s : App) : bool :=
  isGeneratingReport s || negb (name_truthy (uploadedFileName s)).

(** The timer callbacks. *)
Definition run_callback (c : Callback) (s : App) : App :=
  match c with
  | cb_remove_alert m => set_alertList (expire_update m (alertList s)) s
  | cb_revert playing ar =>
      if playing then
        match ar with
        | Some ar => set_aiExplanation (explanation ar)
                       (set_riskScore (risk ar) (set_currentRhythm (rhythm ar) s))
        | None => s
        end
      else s
  | cb_report_done => set_isGeneratingReport false s
  end.

(** The clock advances to [t]; the due callbacks run. *)
Definition app_advance (t : Z) (s : App) : App :=
  let (q, s') := advance run_callback t (timeouts s) s in
  set_timeouts q (set_nowMs t s').
