(* ===== verification/Scheduler.v ===== *)
(** * Properties of the playback scheduler

    The frame callback [updateSimulation] and the controls of [Playback]
    as a step relation [app_step] over [App]: a requested animation frame
    runs, the clock advances and due timers fire, or the user acts
    (play/pause, upload, report, model choice) and the file reader
    delivers the rows.  The theorems describe one frame (the samples it
    consumes, the completion frame), the replay, the number of frames
    to completion, the invariant of the reachable states, the upload
    check, the bound of the heart-rate jitter, and a recording without
    samples that never completes, which the design does not foresee.
    The demo fixtures ([demo_loaded], [demo_played]) are concrete runs
    from the initial state; [stale_revert_trace] is one in which a demo
    revert fires after the end of playback (its general statement is
    [Controls.stale_revert_overwrites]).

    The theorems about frames hold for any [EventSource] whose events
    have a risk score in [0, 100] (the hypothesis [source_ok] of the
    section); [random_demo_source_ok] discharges it for the code's
    source. *)

From S2P Require Import Prelude JsRuntime Peaks Analyzer Timers Alerts DisplayBuffer.
From S2P Require Import AppState Playback.
From Stdlib Require Import String QArith Qround Qminmax List ZArith Lia Lqa Bool.
Import ListNotations.
Open Scope Q_scope.
Open Scope ecg_scope.

(** ** One frame *)

Lemma consume_loop_spec (n : nat) (s : App) (acc : list Q) :
  (0 <= dataIndex s <= Z.of_nat (length (ecgData s)))%Z ->
  consume_loop n s acc =
  let k := Nat.min n (length (ecgData s) - Z.to_nat (dataIndex s)) in
  (set_dataIndex (dataIndex s + Z.of_nat k) s,
   acc ++ firstn k (skipn (Z.to_nat (dataIndex s)) (ecgData s))).
Proof.
  revert s acc. induction n as [|n IH]; intros s acc Hi; cbn -[set_dataIndex Nat.min].
  - rewrite Z.add_0_r, set_dataIndex_same, app_nil_r. reflexivity.
  - destruct (Z.ltb_spec (dataIndex s) (Z.of_nat (length (ecgData s)))) as [Hlt|Hge].
    + rewrite IH by (app_simpl; lia). app_simpl. rewrite set_dataIndex_twice.
      replace (Nat.min (S n) (length (ecgData s) - Z.to_nat (dataIndex s)))
        with (S (Nat.min n (length (ecgData s) - Z.to_nat (dataIndex s + 1)))) by lia.
      f_equal; [f_equal; lia|].
      rewrite <- app_assoc. f_equal.
      rewrite (skipn_nth_cons (Z.to_nat (dataIndex s)) (ecgData s) 0) by lia.
      replace (Z.to_nat (dataIndex s + 1)) with (S (Z.to_nat (dataIndex s))) by lia.
      reflexivity.
    + rewrite IH by lia.
      replace (Nat.min n (length (ecgData s) - Z.to_nat (dataIndex s))) with 0%nat by lia.
      replace (Nat.min (S n) (length (ecgData s) - Z.to_nat (dataIndex s))) with 0%nat by lia.
      reflexivity.
Qed.

(** The playback part of the state: what the jitter, the demo events and
    the alerts do not touch. *)
Definition playback_view (s : App) :=
  (isPlaying s, ecgData s, displayData s, uploadedFileName s, playbackProgress s,
   analysisResult s, dataIndex s).

Lemma app_triggerAlert_view (m : string) (ty : Severity) (s : App) :
  playback_view (app_triggerAlert m ty s) = playback_view s.
Proof. reflexivity. Qed.

Lemma apply_demo_event_view (ev : DemoEvent) (s : App) :
  playback_view (apply_demo_event ev s) = playback_view s.
Proof. unfold apply_demo_event. destruct (negb _); reflexivity. Qed.

Lemma injectDemoEvents_view `{EventSource} (r : Rand) (s : App) :
  playback_view (fst (injectDemoEvents r s)) = playback_view s.
Proof.
  unfold injectDemoEvents. destruct (pick_event r) as [[ev|] r']; [|reflexivity].
  exact (apply_demo_event_view ev s).
Qed.

Lemma jitter_view (r : Rand) (s : App) : playback_view (fst (jitter r s)) = playback_view s.
Proof.
  unfold jitter. destruct (analysisResult s); [|reflexivity].
  destruct (_ && _); [destruct (next_random r)|]; reflexivity.
Qed.

Lemma playback_view_eq (s s' : App) :
  playback_view s = playback_view s' ->
  isPlaying s = isPlaying s' /\ ecgData s = ecgData s' /\ displayData s = displayData s' /\
  uploadedFileName s = uploadedFileName s' /\ playbackProgress s = playbackProgress s' /\
  analysisResult s = analysisResult s' /\ dataIndex s = dataIndex s'.
Proof. unfold playback_view. intro H. injection H. tauto. Qed.

(** The shape of a frame that still has samples to consume. *)
Lemma updateSimulation_running `{EventSource} (r : Rand) (s : App) :
  name_truthy (uploadedFileName s) = true ->
  (0 <= dataIndex s < Z.of_nat (length (ecgData s)))%Z ->
  let len := Z.of_nat (length (ecgData s)) in
  let k := Nat.min SAMPLES_PER_FRAME (length (ecgData s) - Z.to_nat (dataIndex s)) in
  let idx' := (dataIndex s + Z.of_nat k)%Z in
  exists s2 r2,
    updateSimulation r s =
      (end_frame (firstn k (skipn (Z.to_nat (dataIndex s)) (ecgData s))) s2, r2) /\
    playback_view s2 =
    playback_view (set_playbackProgress (Qmin 100 (inject_Z idx' / inject_Z len * 100))
                     (set_dataIndex idx' s)).
Proof.
  intros Hn Hi len k idx'. unfold updateSimulation. cbv zeta. app_simpl.
  rewrite Hn. simpl andb.
  destruct (Z.ltb_spec 0 (Z.of_nat (length (ecgData s)))); [|lia]. 
  destruct (Z.leb_spec (Z.of_nat (length (ecgData s))) (dataIndex s)); [lia|].
  rewrite consume_loop_spec by (app_simpl; lia). cbv zeta. app_simpl.
  match goal with |- context [jitter r ?x] =>
    pose proof (jitter_view r x) as Hj; destruct (jitter r x) as [s1 r1] eqn:Ej end.
  simpl fst in Hj.
  destruct (Z.rem (dataIndex s1) 300 =? 0)%Z.
  - destruct (injectDemoEvents r1 s1) as [s2 r2] eqn:Ei.
    pose proof (injectDemoEvents_view r1 s1) as Hv. rewrite Ei in Hv. simpl fst in Hv.
    exists s2, r2. split; [reflexivity|]. rewrite Hv, Hj. reflexivity.
  - exists s1, r1. split; [reflexivity|]. rewrite Hj. reflexivity.
Qed.

(** A frame with samples left, in full. *)
Lemma updateSimulation_consumes `{EventSource} (r : Rand) (s : App) :
  name_truthy (uploadedFileName s) = true ->
  (0 <= dataIndex s < Z.of_nat (length (ecgData s)))%Z ->
  let s' := fst (updateSimulation r s) in
  let k := Nat.min SAMPLES_PER_FRAME (length (ecgData s) - Z.to_nat (dataIndex s)) in
  dataIndex s' = (dataIndex s + Z.of_nat k)%Z /\
  displayData s' =
    display_update (firstn k (skipn (Z.to_nat (dataIndex s)) (ecgData s))) (displayData s) /\
  playbackProgress s' =
    Qmin 100 (inject_Z (dataIndex s') / inject_Z (Z.of_nat (length (ecgData s))) * 100) /\
  isPlaying s' = isPlaying s /\ frameRequested s' = isPlaying s.
Proof.
  intros Hn Hi s' k.
  destruct (updateSimulation_running r s Hn Hi) as (s2 & r2 & Hu & Hv).
  subst s'. rewrite Hu. simpl fst. unfold end_frame. app_simpl.
  apply playback_view_eq in Hv. app_simpl. destruct Hv as (H1 & H2 & H3 & H4 & H5 & H6 & H7).
  rewrite H1, H3, H5, H7. auto.
Qed.

(** C17. A frame with samples left consumes the next
    [min(4, length - index)] samples, in order: the index advances by that
    count, the display receives exactly those samples, the progress is
    [min(100, index / length * 100)], and playback stays in its state
    with the next frame requested. *)
Theorem frame_consumes `{EventSource} (r : Rand) (s : App) :
  name_truthy (uploadedFileName s) = true ->
  (0 <= dataIndex s < Z.of_nat (length (ecgData s)))%Z ->
  let s' := fst (updateSimulation r s) in
  let k := Nat.min SAMPLES_PER_FRAME (length (ecgData s) - Z.to_nat (dataIndex s)) in
  dataIndex s' = (dataIndex s + Z.of_nat k)%Z /\
  displayData s' =
    display_update (firstn k (skipn (Z.to_nat (dataIndex s)) (ecgData s))) (displayData s) /\
  playbackProgress s' =
    Qmin 100 (inject_Z (dataIndex s') / inject_Z (Z.of_nat (length (ecgData s))) * 100) /\
  isPlaying s' = isPlaying s /\ frameRequested s' = isPlaying s.
Proof. exact (updateSimulation_consumes r s). Qed.

(** The frame that finds the index at the end of the data. *)
Lemma updateSimulation_done `{EventSource} (r : Rand) (s : App) :
  name_truthy (uploadedFileName s) = true -> (0 < length (ecgData s))%nat ->
  (Z.of_nat (length (ecgData s)) <= dataIndex s)%Z ->
  updateSimulation r s =
  (set_frameRequested false
     (let s := set_playbackProgress 100 (set_isPlaying false
                 (set_timeRef (timeRef s + (1 # 60)) s)) in
      match analysisResult s with Some ar => show_final ar s | None => s end), r).
Proof.
  intros Hn Hl Hi. unfold updateSimulation. cbv zeta. app_simpl. rewrite Hn. simpl andb.
  destruct (Z.ltb_spec 0 (Z.of_nat (length (ecgData s)))); [|lia].
  destruct (Z.leb_spec (Z.of_nat (length (ecgData s))) (dataIndex s)); [reflexivity|lia].
Qed.

Lemma show_final_view (ar : AnalysisResult) (s : App) :
  playback_view (show_final ar s) = playback_view s /\
  currentRhythm (show_final ar s) = "Analysis Complete"%string.
Proof. split; reflexivity. Qed.

(** The completing frame, in full. *)
Lemma updateSimulation_completes `{EventSource} (r : Rand) (s : App) :
  name_truthy (uploadedFileName s) = true -> (0 < length (ecgData s))%nat ->
  (Z.of_nat (length (ecgData s)) <= dataIndex s)%Z ->
  let s' := fst (updateSimulation r s) in
  isPlaying s' = false /\ frameRequested s' = false /\ playbackProgress s' = 100 /\
  dataIndex s' = dataIndex s /\ displayData s' = displayData s /\
  (analysisResult s <> None -> currentRhythm s' = "Analysis Complete"%string).
Proof.
  intros Hn Hl Hi s'. subst s'. rewrite updateSimulation_done by assumption. simpl fst.
  app_simpl. destruct (analysisResult s) as [ar|] eqn:Ea.
  - destruct (show_final_view ar (set_playbackProgress 100 (set_isPlaying false
                 (set_timeRef (timeRef s + (1 # 60)) s)))) as [Hv Hr].
    apply playback_view_eq in Hv. app_simpl. destruct Hv as (H1 & _ & H3 & _ & H5 & _ & H7).
    rewrite H1, H3, H5, H7, Hr. repeat split; auto.
  - repeat split; auto. intro E; now contradiction E.
Qed.

(** The frame that finds the index at the end of the data stops
    playback: it consumes nothing, sets the progress to exactly 100,
    requests no further frame (so it runs once) and shows the final
    classification as complete. *)
Theorem frame_completes `{EventSource} (r : Rand) (s : App) :
  name_truthy (uploadedFileName s) = true -> (0 < length (ecgData s))%nat ->
  (Z.of_nat (length (ecgData s)) <= dataIndex s)%Z ->
  let s' := fst (updateSimulation r s) in
  isPlaying s' = false /\ frameRequested s' = false /\ playbackProgress s' = 100 /\
  dataIndex s' = dataIndex s /\ displayData s' = displayData s /\
  (analysisResult s <> None -> currentRhythm s' = "Analysis Complete"%string).
Proof. exact (updateSimulation_completes r s). Qed.

(** C18. Play on a finished recording replays it: the index and the
    progress return to 0, the display is cleared and playback starts. *)
Theorem replay_resets (s : App) :
  name_truthy (uploadedFileName s) = true ->
  (Z.of_nat (length (ecgData s)) <= dataIndex s)%Z ->
  dataIndex (togglePlay s) = 0%Z /\ playbackProgress (togglePlay s) = 0 /\
  displayData (togglePlay s) = [] /\ isPlaying (togglePlay s) = true.
Proof.
  intros Hn Hi. unfold togglePlay. rewrite Hn. simpl negb. cbv iota.
  destruct (Z.leb_spec (Z.of_nat (length (ecgData s))) (dataIndex s)); [|lia].
  cbv zeta. app_simpl. destruct (analysisResult s); repeat split.
Qed.

(** ** Termination of playback *)

(** Frames in a row, one per list of draws, while a frame is requested. *)
Fixpoint run_frames `{EventSource} (rs : list Rand) (s : App) : App :=
  match rs with
  | [] => s
  | r :: rs' =>
      if frameRequested s then run_frames rs' (commit (fst (updateSimulation r s))) else s
  end.

Lemma run_frames_stopped `{EventSource} (rs : list Rand) (s : App) :
  frameRequested s = false -> run_frames rs s = s.
Proof. destruct rs; simpl; [reflexivity|]. intro H'. now rewrite H'. Qed.

(** C19. A loaded recording playing from index [i] of [n] samples
    finishes within [ceil((n - i) / 4) + 1] frames, whatever the random
    draws: playback stops with the progress at 100. *)
Theorem playback_terminates `{EventSource} (rs : list Rand) (s : App) :
  name_truthy (uploadedFileName s) = true -> (0 < length (ecgData s))%nat ->
  (0 <= dataIndex s <= Z.of_nat (length (ecgData s)))%Z ->
  isPlaying s = true -> frameRequested s = true ->
  ((Z.to_nat (Z.of_nat (length (ecgData s)) - dataIndex s) + 3) / 4 + 1 <= length rs)%nat ->
  isPlaying (run_frames rs s) = false /\ playbackProgress (run_frames rs s) = 100.
Proof.
  remember (Z.to_nat (Z.of_nat (length (ecgData s)) - dataIndex s)) as m eqn:Hm.
  revert rs s Hm. induction m as [m IH] using (well_founded_induction lt_wf).
  intros rs s Hm Hn Hl Hi Hp Hf Hrs.
  destruct rs as [|r rs]; [simpl in Hrs; lia|]. simpl. rewrite Hf.
  destruct (Z.leb_spec (Z.of_nat (length (ecgData s))) (dataIndex s)) as [Hend|Hmore].
  - destruct (updateSimulation_completes r s Hn Hl Hend) as (Hp' & _ & Hpr & _).
    rewrite run_frames_stopped by (unfold commit; app_simpl; exact Hp').
    unfold commit. app_simpl. auto.
  - destruct (updateSimulation_consumes r s Hn ltac:(lia)) as (Hd & _ & _ & Hp' & _).
    destruct (updateSimulation_running r s Hn ltac:(lia)) as (s2 & r2 & Hu & Hv).
    apply playback_view_eq in Hv. app_simpl.
    destruct Hv as (Hv1 & Hv2 & _ & Hv4 & _ & _ & Hv7).
    rewrite Hu in Hd, Hp' |- *. simpl fst in *.
    set (k := Nat.min SAMPLES_PER_FRAME (length (ecgData s) - Z.to_nat (dataIndex s))) in *.
    unfold SAMPLES_PER_FRAME in k.
    apply (IH (m - k)%nat); unfold commit, end_frame in *; app_simpl.
    + subst k. lia.
    + rewrite Hv2, Hv7. subst k. lia.
    + now rewrite Hv4.
    + now rewrite Hv2.
    + rewrite Hv2, Hv7. subst k. lia.
    + now rewrite Hv1.
    + now rewrite Hv1.
    + cbn [length] in Hrs.
      assert (Hk : k = Nat.min 4 m) by (subst k; lia).
      assert (Hdiv : ((m - Nat.min 4 m + 3) / 4 + 1 <= (m + 3) / 4)%nat).
      { destruct (Nat.le_gt_cases 4 m).
        - rewrite Nat.min_l by lia.
          replace (m + 3)%nat with (m - 4 + 3 + 1 * 4)%nat by lia.
          rewrite Nat.div_add by lia. lia.
        - rewrite Nat.min_r by lia. replace (m - m + 3)%nat with 3%nat by lia.
          destruct m; [lia|]. replace (S m + 3)%nat with (m + 1 * 4)%nat by lia.
          rewrite Nat.div_add by lia. simpl. lia. }
      rewrite Hk. lia.
Qed.

(** ** The invariant of the reachable states *)

Definition risk_ok (z : Z) : Prop := (0 <= z <= 100)%Z.

(** What the callbacks in the queue captured. *)
Definition cb_ok (c : Callback) : Prop :=
  match c with
  | cb_revert _ (Some ar) => risk_ok (risk ar)
  | _ => True
  end.

Definition app_inv (s : App) : Prop :=
  (0 <= dataIndex s <= Z.of_nat (length (ecgData s)))%Z /\
  0 <= playbackProgress s <= 100 /\
  (length (displayData s) <= POINTS_PER_WINDOW)%nat /\
  alerts_wf (alertList s) /\
  risk_ok (riskScore s) /\
  (forall ar, analysisResult s = Some ar -> risk_ok (risk ar)) /\
  Forall (fun e => cb_ok (snd e)) (timeouts s).

(** The fields the invariant reads. *)
Definition inv_view (s : App) :=
  (dataIndex s, ecgData s, playbackProgress s, displayData s, alertList s, riskScore s,
   analysisResult s, timeouts s).

Lemma app_inv_view (s s' : App) : inv_view s' = inv_view s -> app_inv s -> app_inv s'.
Proof. unfold inv_view, app_inv. intro H. injection H. intros. subst. rewrite !H0, !H1, !H2, !H3, !H4, !H5, !H6, !H7. auto. Qed.

(** [inv_from H] proves the invariant of a state from [H : app_inv s]
    when the two states agree on the fields the invariant reads. *)
Ltac inv_from H :=
  match type of H with app_inv ?s => apply (app_inv_view s); [reflexivity|exact H] end.

Lemma progress_bounds (idx len : Z) :
  (0 <= idx)%Z -> (0 < len)%Z -> 0 <= Qmin 100 (inject_Z idx / inject_Z len * 100) <= 100.
Proof.
  intros Hi Hl. split; [|apply Q.le_min_l].
  apply Q.min_glb; [lra|]. apply Qmult_le_0_compat; [|lra].
  apply Qle_shift_div_l; [change 0 with (inject_Z 0); rewrite <- Zlt_Qlt; lia|].
  rewrite Qmult_0_l. change 0 with (inject_Z 0). rewrite <- Zle_Qle. lia.
Qed.

Lemma inv_triggerAlert (m : string) (ty : Severity) (s : App) :
  app_inv s -> app_inv (app_triggerAlert m ty s).
Proof.
  unfold app_inv, app_triggerAlert, setTimeout. app_simpl. intros (H1 & H2 & H3 & H4 & H5 & H6 & H7).
  refine (conj H1 (conj H2 (conj H3 (conj _ (conj H5 (conj H6 _)))))).
  - apply trigger_update_wf, H4.
  - apply Forall_app. split; [exact H7|]. repeat constructor.
Qed.

Lemma inv_apply_demo_event (ev : DemoEvent) (s : App) :
  risk_ok (ev_score ev) -> app_inv s -> app_inv (apply_demo_event ev s).
Proof.
  intros Hr Hs. unfold apply_demo_event.
  assert (Hs' : app_inv (set_aiExplanation (ev_expl ev) (set_riskScore (ev_score ev)
             (set_currentRhythm (ev_r ev) s)))).
  { unfold app_inv in *. app_simpl. tauto. }
  destruct (negb _); [now apply inv_triggerAlert|exact Hs'].
Qed.

Lemma inv_jitter (r : Rand) (s : App) : app_inv s -> app_inv (fst (jitter r s)).
Proof.
  unfold jitter. destruct (analysisResult s); [|auto].
  destruct (_ && _); [destruct (next_random r)|]; intro H; simpl fst; [inv_from H|exact H].
Qed.

Lemma inv_set_progress (p : Q) (s : App) :
  0 <= p <= 100 -> app_inv s -> app_inv (set_playbackProgress p s).
Proof. unfold app_inv. app_simpl. tauto. Qed.

Lemma inv_end_frame (np : list Q) (s : App) : app_inv s -> app_inv (end_frame np s).
Proof.
  unfold app_inv, end_frame. app_simpl. intros (H1 & H2 & H3 & H4).
  refine (conj H1 (conj H2 (conj _ H4))). now apply display_update_bounded.
Qed.

Lemma inv_show_final (ar : AnalysisResult) (s : App) :
  risk_ok (risk ar) -> app_inv s -> app_inv (show_final ar s).
Proof.
  intros Hr Hs. unfold show_final. apply inv_triggerAlert.
  unfold app_inv in *. app_simpl. tauto.
Qed.

Lemma inv_commit (s : App) : app_inv s -> app_inv (commit s).
Proof. intro H. inv_from H. Qed.

Lemma inv_set_activeModel (m : Model) (s : App) : app_inv s -> app_inv (set_activeModel m s).
Proof. intro H. inv_from H. Qed.

Lemma inv_set_dataIndex (i : Z) (s : App) :
  (0 <= i <= Z.of_nat (length (ecgData s)))%Z -> app_inv s -> app_inv (set_dataIndex i s).
Proof. unfold app_inv. app_simpl. tauto. Qed.

Lemma inv_run_callback (c : Callback) (s : App) :
  cb_ok c -> app_inv s -> app_inv (run_callback c s).
Proof.
  intros Hc Hs. destruct c as [m|p [ar|]|]; simpl.
  - unfold app_inv in *. app_simpl. intuition auto using expire_update_wf.
  - destruct p; [|exact Hs]. unfold app_inv in *. app_simpl. simpl in Hc. tauto.
  - destruct p; exact Hs.
  - inv_from Hs.
Qed.

Lemma inv_advance (t : Z) (s : App) : app_inv s -> app_inv (app_advance t s).
Proof.
  intro Hs. unfold app_advance, advance.
  pose proof (fire_due_inv run_callback
    (fun q s => app_inv s /\ Forall (fun e => cb_ok (snd e)) q)) as Hi.
  destruct (Hi) with (n := length (timeouts s)) (t := t) (q := timeouts s) (s := s)
    as [Ha Hq].
  - intros t' q s0 e q' Hp [H1 H2]. rewrite Forall_forall in H2. split.
    + apply inv_run_callback; [apply H2; eapply pop_due_mem; exact Hp|exact H1].
    + pose proof (pop_due_spec t' q) as Hsp. rewrite Hp in Hsp.
      destruct Hsp as [_ [_ Hsub]]. apply Forall_forall. intros x Hx. apply H2, Hsub, Hx.
  - split; [exact Hs|]. apply Hs.
  - destruct (fire_due run_callback (length (timeouts s)) t (timeouts s) s) as [q s'].
    simpl in *. unfold app_inv in *. app_simpl. tauto.
Qed.

Lemma inv_togglePlay (s : App) : app_inv s -> app_inv (togglePlay s).
Proof.
  intro Hs. unfold togglePlay.
  destruct (negb _); [now apply inv_triggerAlert|].
  destruct (Z.of_nat _ <=? _)%Z; [|inv_from Hs].
  cbv zeta. assert (H : app_inv (set_isPlaying true (set_playbackProgress 0
                    (set_displayData [] (set_dataIndex 0 s))))).
  { unfold app_inv in *. app_simpl. simpl. intuition (try lia; try lra). }
  destruct (analysisResult _); [inv_from H|exact H].
Qed.

Lemma inv_handleFileUpload (f : option string) (s : App) :
  app_inv s -> app_inv (handleFileUpload f s).
Proof.
  intro Hs. unfold handleFileUpload. destruct f as [name|]; [|exact Hs].
  destruct (negb _); [now apply inv_triggerAlert|inv_from Hs].
Qed.

Lemma inv_onFileLoaded (rows : list Q) (s : App) : app_inv s -> app_inv (onFileLoaded rows s).
Proof.
  intro Hs. unfold onFileLoaded. cbv zeta.
  destruct (analyzeECGSignal_wf rows) as [_ [Hr _]].
  set (s1 := set_confidence _ _).
  assert (H1 : app_inv s1).
  { subst s1. unfold app_inv in *. app_simpl.
    destruct Hs as (_ & _ & H3 & H4 & _ & _ & H7).
    refine (conj _ (conj _ (conj H3 (conj H4 (conj Hr (conj _ H7)))))); [lia|lra|].
    intros ar Har. injection Har as <-. exact Hr. }
  assert (H2 : app_inv (match alert (analyzeECGSignal rows) with
                        | Some a => app_triggerAlert a (if (70 <? risk (analyzeECGSignal rows))%Z
                                                        then critical else warning) s1
                        | None => s1 end))
    by (destruct (alert _); [apply inv_triggerAlert|]; exact H1).
  inv_from H2.
Qed.

Lemma inv_generateReport (s : App) : app_inv s -> app_inv (generateReport s).
Proof.
  intro Hs. unfold generateReport. destruct (negb _); [now apply inv_triggerAlert|].
  unfold app_inv, setTimeout in *. app_simpl. intuition auto.
  apply Forall_app. split; [assumption|]. repeat constructor.
Qed.

Section WithSource.

Context `{ES : EventSource}.

(** The contract of an event source: its events carry a risk score in
    [0, 100]. *)
Hypothesis source_ok :
  forall r ev r', pick_event r = (Some ev, r') -> risk_ok (ev_score ev).

Lemma inv_injectDemoEvents (r : Rand) (s : App) :
  app_inv s -> app_inv (fst (injectDemoEvents r s)).
Proof.
  intro Hs. unfold injectDemoEvents. destruct (pick_event r) as [[ev|] r'] eqn:E; [|exact Hs].
  pose proof (inv_apply_demo_event ev s (source_ok _ _ _ E) Hs) as Ha. simpl fst.
  unfold app_inv, setTimeout in *. app_simpl.
  destruct Ha as (H1 & H2 & H3 & H4 & H5 & H6 & H7).
  refine (conj H1 (conj H2 (conj H3 (conj H4 (conj H5 (conj H6 _)))))).
  apply Forall_app. split; [exact H7|]. constructor; [|constructor]. simpl.
  destruct (analysisResult (apply_demo_event ev s)) eqn:Ea; [apply H6; reflexivity|exact I].
Qed.

Lemma inv_updateSimulation (r : Rand) (s : App) :
  app_inv s -> app_inv (fst (updateSimulation r s)).
Proof.
  intro Hs. unfold updateSimulation. cbv zeta. app_simpl.
  destruct (name_truthy _ && _) eqn:Ec.
  - destruct (Z.leb_spec (Z.of_nat (length (ecgData s))) (dataIndex s)).
    + simpl fst.
      assert (H0 : app_inv (set_playbackProgress 100 (set_isPlaying false
                     (set_timeRef (timeRef s + (1 # 60)) s)))).
      { apply inv_set_progress; [lra|]. inv_from Hs. }
      assert (H1 : app_inv (match analysisResult s with
                            | Some ar => show_final ar (set_playbackProgress 100 (set_isPlaying false
                                           (set_timeRef (timeRef s + (1 # 60)) s)))
                            | None => set_playbackProgress 100 (set_isPlaying false
                                           (set_timeRef (timeRef s + (1 # 60)) s)) end)).
      { destruct (analysisResult s) as [ar|] eqn:Ea; [|exact H0].
        apply inv_show_final; [|exact H0]. destruct Hs as (_ & _ & _ & _ & _ & H6 & _). now apply H6. }
      inv_from H1.
    + apply andb_true_iff in Ec as [_ Hl]. apply Z.ltb_lt in Hl.
      pose proof Hs as Hs0. destruct Hs as [Hi Hs'].
      rewrite consume_loop_spec by (app_simpl; lia). cbv zeta. app_simpl.
      match goal with |- context [jitter r ?x] => set (s1 := x) end.
      assert (H1 : app_inv s1).
      { subst s1. apply inv_set_progress; [apply progress_bounds; lia|].
        apply inv_set_dataIndex; [app_simpl; lia|]. inv_from Hs0. }
      pose proof (inv_jitter r s1 H1) as H2. destruct (jitter r s1) as [s2 r2]. simpl in H2.
      destruct (Z.rem (dataIndex s2) 300 =? 0)%Z.
      * pose proof (inv_injectDemoEvents r2 s2 H2) as H3.
        destruct (injectDemoEvents r2 s2) as [s3 r3]. simpl in *. now apply inv_end_frame.
      * simpl. now apply inv_end_frame.
  - simpl fst. apply inv_end_frame. inv_from Hs.
Qed.

(** The events of the environment: an animation frame (when one is
    requested), the clock, and the user's actions and the file reader;
    the report button fires only when it is not disabled. *)
Inductive app_step : App -> App -> Prop :=
  | step_frame r s :
      frameRequested s = true -> app_step s (commit (fst (updateSimulation r s)))
  | step_advance t s : (nowMs s <= t)%Z -> app_step s (commit (app_advance t s))
  | step_toggle s : app_step s (commit (togglePlay s))
  | step_upload f s : app_step s (commit (handleFileUpload f s))
  | step_loaded rows s :
      name_truthy (uploadedFileName s) = true -> app_step s (commit (onFileLoaded rows s))
  | step_report s : report_disabled s = false -> app_step s (commit (generateReport s))
  | step_select m s : app_step s (commit (set_activeModel m s)).

Inductive app_reachable : App -> Prop :=
  | reach_init : app_reachable app_init
  | reach_step s s' : app_reachable s -> app_step s s' -> app_reachable s'.

Lemma app_init_inv : app_inv app_init.
Proof.
  unfold app_inv, app_init. app_simpl. simpl.
  repeat split; try lia; try lra; try constructor; try discriminate.
  unfold POINTS_PER_WINDOW; simpl; lia.
Qed.

Lemma app_reachable_inv (s : App) : app_reachable s -> app_inv s /\ frameRequested s = isPlaying s.
Proof.
  induction 1 as [|s s' _ [IH _] Hs]; [split; [exact app_init_inv|reflexivity]|].
  split; [|destruct Hs; reflexivity].
  destruct Hs; apply inv_commit;
    auto using inv_updateSimulation, inv_advance, inv_togglePlay, inv_handleFileUpload,
      inv_onFileLoaded, inv_generateReport, inv_set_activeModel.
Qed.

End WithSource.

(** The code's event source meets the contract. *)
Lemma random_demo_source_ok (r : Rand) (ev : DemoEvent) (r' : Rand) :
  @pick_event random_demo_source r = (Some ev, r') -> risk_ok (ev_score ev).
Proof.
  cbn [pick_event random_demo_source]. unfold demo_pick. destruct (next_random r) as [x r1].
  destruct ((6 # 10) <js x); [|discriminate].
  destruct ((92 # 100) <js x).
  - intro H. injection H as <- _. unfold risk_ok. simpl. lia.
  - destruct (next_random r1) as [y r2]. intro H. injection H as Hn _.
    apply nth_error_In in Hn. simpl in Hn.
    unfold risk_ok. intuition (subst; simpl; lia).
Qed.

(** ** Properties of the reachable states *)

(** C20. In every state the component can reach, the index lies within
    the data, the progress within [0, 100], the display holds at most 600
    samples, at most three alerts with distinct messages are shown, the
    displayed risk lies in [0, 100], and a frame is requested exactly
    when playback is on. *)
Theorem app_reachable_safe (s : App) :
  @app_reachable random_demo_source s ->
  (0 <= dataIndex s <= Z.of_nat (length (ecgData s)))%Z /\
  0 <= playbackProgress s <= 100 /\
  (length (displayData s) <= POINTS_PER_WINDOW)%nat /\
  (length (alertList s) <= 3)%nat /\ NoDup (msgs (alertList s)) /\
  (0 <= riskScore s <= 100)%Z /\
  frameRequested s = isPlaying s.
Proof.
  intro H. destruct (app_reachable_inv random_demo_source_ok s H)
    as [(H1 & H2 & H3 & [H4 H4'] & H5 & _) H7].
  unfold risk_ok in H5. repeat split; tauto.
Qed.

(** A recording of 400 samples (2 s) with R-peaks at 50, 200 and 350,
    uploaded and loaded. *)
Definition demo_rows : list Q := pulse_signal 400 [50; 200; 350]%nat.

Definition demo_uploaded : App := commit (handleFileUpload (Some "mit_100.csv") app_init).

Definition demo_loaded : App := commit (onFileLoaded demo_rows demo_uploaded).

Lemma demo_loaded_reachable : @app_reachable random_demo_source demo_loaded.
Proof.
  eapply reach_step; [eapply reach_step; [apply reach_init|apply step_upload]|].
  apply step_loaded. reflexivity.
Qed.

Lemma app_reachable_safe_witness :
  (0 <= dataIndex demo_loaded <= Z.of_nat (length (ecgData demo_loaded)))%Z /\
  0 <= playbackProgress demo_loaded <= 100 /\
  (length (displayData demo_loaded) <= POINTS_PER_WINDOW)%nat /\
  (length (alertList demo_loaded) <= 3)%nat /\ NoDup (msgs (alertList demo_loaded)) /\
  (0 <= riskScore demo_loaded <= 100)%Z /\
  frameRequested demo_loaded = isPlaying demo_loaded.
Proof.
  apply app_reachable_safe.
  eapply reach_step; [eapply reach_step; [apply reach_init|apply step_upload]|].
  apply step_loaded. reflexivity.
Defined.

(** The recording played to its end, frame by frame, and the frame
    after it. *)
Definition demo_at_end : App := run_frames (repeat [] 100) demo_loaded.
Definition demo_done : App := run_frames (repeat [] 101) demo_loaded.

Lemma frame_consumes_witness :
  dataIndex (fst (updateSimulation [] demo_loaded)) = 4%Z /\
  displayData (fst (updateSimulation [] demo_loaded)) = firstn 4 demo_rows.
Proof.
  destruct (frame_consumes [] demo_loaded eq_refl
              ltac:(split; [apply Z.leb_le|apply Z.ltb_lt]; vm_compute; reflexivity))
    as (H1 & H2 & _).
  split; [rewrite H1|rewrite H2]; vm_compute; reflexivity.
Defined.

Lemma frame_completes_witness :
  isPlaying (fst (updateSimulation [] demo_at_end)) = false /\
  currentRhythm (fst (updateSimulation [] demo_at_end)) = "Analysis Complete"%string.
Proof.
  destruct (frame_completes [] demo_at_end ltac:(vm_compute; reflexivity)
              ltac:(apply Nat.ltb_lt; vm_compute; reflexivity)
              ltac:(apply Z.leb_le; vm_compute; reflexivity))
    as (H1 & _ & _ & _ & _ & H6).
  split; [exact H1|]. apply H6. vm_compute. discriminate.
Defined.

Lemma replay_resets_witness :
  dataIndex (togglePlay demo_done) = 0%Z /\ isPlaying (togglePlay demo_done) = true.
Proof.
  destruct (replay_resets demo_done ltac:(vm_compute; reflexivity)
              ltac:(apply Z.leb_le; vm_compute; reflexivity)) as (H1 & _ & _ & H4).
  split; assumption.
Defined.

Lemma playback_terminates_witness :
  isPlaying demo_done = false /\ playbackProgress demo_done = 100.
Proof.
  apply (playback_terminates (repeat [] 101) demo_loaded);
    first [ vm_compute; reflexivity
          | apply Nat.ltb_lt; vm_compute; reflexivity
          | apply Nat.leb_le; vm_compute; reflexivity
          | split; apply Z.leb_le; vm_compute; reflexivity ].
Defined.

(** ** Frames on the clock *)

Section Timed.

Context `{ES : EventSource}.

(** Frames [dt] milliseconds apart: the clock advances (running the
    timers that fall due), then the requested frame runs. *)
Fixpoint timed_frames (dt : Z) (rs : list Rand) (s : App) : App :=
  match rs with
  | [] => s
  | r :: rs' =>
      let s1 := commit (app_advance (nowMs s + dt) s) in
      if frameRequested s1 then timed_frames dt rs' (commit (fst (updateSimulation r s1)))
      else s1
  end.

Lemma app_advance_nowMs (t : Z) (s : App) : nowMs (app_advance t s) = t.
Proof. unfold app_advance. destruct (advance _ _ _ _). reflexivity. Qed.

Lemma timed_frames_reachable (dt : Z) (rs : list Rand) (s : App) :
  (0 <= dt)%Z -> app_reachable s -> app_reachable (timed_frames dt rs s).
Proof.
  intros Hdt. revert s. induction rs as [|r rs IH]; intros s Hs; cbn [timed_frames]; [exact Hs|].
  assert (H1 : app_reachable (commit (app_advance (nowMs s + dt) s))).
  { eapply reach_step; [exact Hs|]. apply step_advance. lia. }
  destruct (frameRequested (commit (app_advance (nowMs s + dt) s))) eqn:E; [|exact H1].
  apply IH. eapply reach_step; [exact H1|]. now apply step_frame.
Qed.

End Timed.

(** The demo recording played at one frame per 17 ms (about 60 frames
    per second).  Frame 75 reaches index 300 and injects a demo event:
    its draws are the jitter's [0.5] and the event choice [0.95] (the
    critical event); every other draw is [0].  Frame 101 finds the end of
    the data.  The clock then runs 4 s on. *)
Definition demo_draws : list Rand :=
  repeat [] 74 ++ [[1 # 2; 95 # 100]] ++ repeat [] 26.

Definition demo_played : App := timed_frames 17 demo_draws demo_loaded.

Definition stale_revert_trace : App :=
  commit (app_advance (nowMs demo_played + 4000) demo_played).

(** ** An upload without samples *)

Lemma updateSimulation_empty `{EventSource} (r : Rand) (s : App) :
  ecgData s = [] ->
  updateSimulation r s = (end_frame [] (set_timeRef (timeRef s + (1 # 60)) s), r).
Proof.
  intro He. unfold updateSimulation. cbv zeta. app_simpl. rewrite He. simpl.
  now rewrite andb_false_r.
Qed.

(** C29. A file whose rows hold no number leaves [ecgData] empty; the
    frame callback then takes neither the completion branch nor the
    consuming one, so playback never completes: after any number of
    frames it is still playing, still requesting frames, with the
    progress unchanged. *)
Theorem empty_recording_never_completes `{EventSource} (rs : list Rand) (s : App) :
  ecgData s = [] -> isPlaying s = true -> frameRequested s = true ->
  isPlaying (run_frames rs s) = true /\ frameRequested (run_frames rs s) = true /\
  playbackProgress (run_frames rs s) = playbackProgress s.
Proof.
  revert s. induction rs as [|r rs IH]; intros s He Hp Hf; [auto|].
  cbn [run_frames]. rewrite Hf, updateSimulation_empty by exact He. simpl fst.
  destruct (IH (commit (end_frame [] (set_timeRef (timeRef s + (1 # 60)) s))))
    as (H1 & H2 & H3); unfold commit, end_frame in *; app_simpl; auto.
Qed.

Definition demo_empty : App := commit (onFileLoaded [] demo_uploaded).

Lemma empty_recording_never_completes_witness :
  isPlaying (run_frames (repeat [] 1000) demo_empty) = true /\
  frameRequested (run_frames (repeat [] 1000) demo_empty) = true /\
  playbackProgress (run_frames (repeat [] 1000) demo_empty) = playbackProgress demo_empty.
Proof.
  apply (empty_recording_never_completes (repeat [] 1000) demo_empty); vm_compute; reflexivity.
Defined.

(** ** The upload check *)

(** C30. [handleFileUpload] accepts a file exactly when its lower-cased
    name contains "mit" or "physionet": an accepted name is recorded with
    the alerts untouched; a rejected one leaves the recorded name, the
    data and the playback state as they were and shows the alert
    "Invalid Source: Upload MIT or PhysioNet CSV". *)
Theorem upload_validation (name : string) (s : App) :
  (file_name_ok name = true ->
     uploadedFileName (handleFileUpload (Some name) s) = Some name /\
     alertList (handleFileUpload (Some name) s) = alertList s) /\
  (file_name_ok name = false ->
     uploadedFileName (handleFileUpload (Some name) s) = uploadedFileName s /\
     ecgData (handleFileUpload (Some name) s) = ecgData s /\
     isPlaying (handleFileUpload (Some name) s) = isPlaying s /\
     In "Invalid Source: Upload MIT or PhysioNet CSV"%string
        (msgs (alertList (handleFileUpload (Some name) s)))).
Proof.
  unfold handleFileUpload. split; intro Hok; rewrite Hok; simpl negb; cbv iota.
  - app_simpl. auto.
  - unfold app_triggerAlert. app_simpl. repeat split. apply trigger_update_shown.
Qed.

Lemma upload_validation_witness :
  uploadedFileName (handleFileUpload (Some "MIT-BIH_100.CSV"%string) app_init)
    = Some "MIT-BIH_100.CSV"%string /\
  uploadedFileName (handleFileUpload (Some "record.csv"%string) app_init) = None.
Proof.
  split.
  - apply (upload_validation "MIT-BIH_100.CSV" app_init). vm_compute. reflexivity.
  - apply (upload_validation "record.csv" app_init). vm_compute. reflexivity.
Defined.

(** ** The heart-rate jitter *)

(** C31. Every 20 samples the displayed heart rate is redrawn as
    [hr + (Math.random() - 0.5) * 2]: for a draw in [0, 1) it stays
    within one beat per minute of the analysed rate (in [hr - 1, hr + 1));
    otherwise the frame leaves it unchanged. *)
Theorem jitter_bounded (r : Rand) (s : App) (ar : AnalysisResult) :
  analysisResult s = Some ar -> 0 <= fst (next_random r) < 1 ->
  heartRate (fst (jitter r s)) = heartRate s \/
  (hr ar - 1 <= heartRate (fst (jitter r s)) < hr ar + 1).
Proof.
  intros Ha [H0 H1]. unfold jitter. rewrite Ha.
  destruct (_ && _); [|now left]. destruct (next_random r) as [x r'] eqn:E.
  simpl in H0, H1 |- *. right. app_simpl. split; lra.
Qed.

Lemma jitter_bounded_witness :
  (hr (analyzeECGSignal demo_rows) - 1 <= heartRate (fst (jitter [9 # 10] demo_loaded))
     < hr (analyzeECGSignal demo_rows) + 1) \/
  heartRate (fst (jitter [9 # 10] demo_loaded)) = heartRate demo_loaded.
Proof.
  destruct (jitter_bounded [9 # 10] demo_loaded (analyzeECGSignal demo_rows)
              ltac:(vm_compute; reflexivity) ltac:(vm_compute; split; [intro; discriminate|reflexivity]))
    as [H|H]; [right|left]; exact H.
Defined.
