(* ===== verification/Parse.v ===== *)
(** * Parsing the uploaded CSV

    [src/src/main.jsx], line 273, in the [reader.onload] callback of
    [handleFileUpload]:
    [text.split('\n').map(r => parseFloat(r.split(',')[0])).filter(n => !isNaN(n))].

    [String.prototype.split] on a one-character separator and
    [parseFloat] are written from the language standard: [parseFloat]
    skips leading white space (here its ASCII members: tab, line feed,
    vertical tab, form feed, carriage return and space) and reads the
    longest prefix that is a [StrDecimalLiteral] (an optional sign, then
    [Infinity] or digits with an optional fraction and an optional
    exponent), returning [NaN] when there is none.  The result is a
    [JNum]: [NaN], a signed infinity, or a finite value, kept as an exact
    rational (the rounding to a double is not modelled, see [Prelude]).

    [parse_rows] is the line of the code; [load_text] connects it to
    [Playback.onFileLoaded], whose samples are finite rationals: a file
    whose parse keeps an infinity is outside the model ([None]). *)

From S2P Require Import Prelude JsRuntime Peaks Analyzer Timers Alerts DisplayBuffer AppState Playback.
From Stdlib Require Import String Ascii QArith List ZArith Lia Bool.
Import ListNotations.
Open Scope Q_scope.
Open Scope string_scope.

(** ** JavaScript numbers and strings *)

Inductive JNum := JNaN | JInf (neg : bool) | JFin (q : Q).

(** [isNaN(n)]. *)
Definition js_isNaN (n : JNum) : bool := match n with JNaN => true | _ => false end.

Definition newline : ascii := ascii_of_nat 10.
Definition comma : ascii := ascii_of_nat 44.

(** [s.split(sep)] for a one-character separator: the pieces between
    separators, an empty string giving [[""]]. *)
Fixpoint split_on (sep : ascii) (s : string) : list string :=
  match s with
  | EmptyString => [""]
  | String c s' =>
      if Ascii.eqb c sep then "" :: split_on sep s'
      else match split_on sep s' with
           | [] => [String c ""]
           | x :: xs => String c x :: xs
           end
  end.

(** [r.split(',')[0]]: the array has at least one element. *)
Definition first_field (r : string) : string :=
  match split_on comma r with
  | x :: _ => x
  | [] => ""
  end.

Definition is_ws (c : ascii) : bool :=
  match nat_of_ascii c with
  | 9 | 10 | 11 | 12 | 13 | 32 => true
  | _ => false
  end%nat.

Fixpoint trim_start (s : string) : string :=
  match s with
  | String c s' => if is_ws c then trim_start s' else s
  | EmptyString => EmptyString
  end.

Definition is_digit (c : ascii) : bool :=
  (48 <=? nat_of_ascii c)%nat && (nat_of_ascii c <=? 57)%nat.

Definition digit_val (c : ascii) : Z := Z.of_nat (nat_of_ascii c - 48).

(** The longest run of decimal digits: its value (accumulated onto
    [acc]), its length (added to [n]) and the rest of the string. *)
Fixpoint read_digits (s : string) (acc : Z) (n : nat) : Z * nat * string :=
  match s with
  | String c s' =>
      if is_digit c then read_digits s' (acc * 10 + digit_val c)%Z (S n) else (acc, n, s)
  | EmptyString => (acc, n, s)
  end.

(** An optional sign: [true] for a minus. *)
Definition read_sign (s : string) : bool * string :=
  match s with
  | String c s' =>
      if Ascii.eqb c "-"%char then (true, s')
      else if Ascii.eqb c "+"%char then (false, s')
      else (false, s)
  | EmptyString => (false, s)
  end.

(** An optional exponent [e]/[E] with a signed digit run; an [e] that
    is not followed by digits is not part of the literal. *)
Definition read_exponent (s : string) : Z :=
  match s with
  | String c s' =>
      if Ascii.eqb c "e"%char || Ascii.eqb c "E"%char then
        let (neg, s'') := read_sign s' in
        match read_digits s'' 0 0 with
        | (v, O, _) => 0%Z
        | (v, _, _) => if neg then (- v)%Z else v
        end
      else 0%Z
  | EmptyString => 0%Z
  end.

(** [10^k] for an integer [k]. *)
Definition pow10 (k : Z) : Q :=
  if (0 <=? k)%Z then inject_Z (10 ^ k) else 1 / inject_Z (10 ^ (- k)).

(** The [StrUnsignedDecimalLiteral] after the sign. *)
Definition parse_unsigned (neg : bool) (s : string) : JNum :=
  if String.prefix "Infinity" s then JInf neg
  else
    let '(ip, ni, r) := read_digits s 0 0 in
    let '(fp, nf, r) := match r with
                        | String c r' => if Ascii.eqb c "."%char then read_digits r' ip 0
                                         else (ip, O, r)
                        | EmptyString => (ip, O, r)
                        end in
    if (ni + nf =? 0)%nat then JNaN
    else JFin ((if neg then -1 else 1) * inject_Z fp
               * pow10 (read_exponent r - Z.of_nat nf)).

(** [parseFloat(s)]. *)
Definition parseFloat (s : string) : JNum :=
  let (neg, s) := read_sign (trim_start s) in parse_unsigned neg s.

(** ** The code, line 273 *)

Definition parse_rows (text : string) : list JNum :=
  filter (fun n => negb (js_isNaN n)) (map (fun r => parseFloat (first_field r)) (split_on newline text)).

(** The samples, when all are finite. *)
Fixpoint finite_rows (l : list JNum) : option (list Q) :=
  match l with
  | [] => Some []
  | JFin q :: l' => option_map (cons q) (finite_rows l')
  | _ :: _ => None
  end.

(** [reader.onload], lines 271-289, on the file's text. *)
Definition load_text (text : string) (s : App) : option App :=
  match finite_rows (parse_rows text) with
  | Some rows => Some (onFileLoaded rows s)
  | None => None
  end.

(** ** Decimal literals, as a CSV writer prints them *)

Definition digit_char (d : nat) : ascii := ascii_of_nat (48 + d).

Fixpoint print_digits (ds : list nat) : string :=
  match ds with
  | [] => EmptyString
  | d :: ds' => String (digit_char d) (print_digits ds')
  end.

(** The value of a digit string read onto [acc]. *)
Definition digits_from (acc : Z) (ds : list nat) : Z :=
  fold_left (fun a d => a * 10 + Z.of_nat d)%Z ds acc.

(** A literal [-ddd.fff]: its sign, integer and fraction digits. *)
Record Lit := mkLit { l_neg : bool; l_int : list nat; l_frac : list nat }.

Definition print_lit (l : Lit) : string :=
  (if l_neg l then "-" else "") ++ print_digits (l_int l) ++
  match l_frac l with
  | [] => ""
  | _ => String "."%char (print_digits (l_frac l))
  end.

Definition lit_value (l : Lit) : Q :=
  (if l_neg l then -1 else 1) * inject_Z (digits_from 0 (l_int l ++ l_frac l))
  * pow10 (- Z.of_nat (length (l_frac l))).

(** Digits only, and at least one. *)
Definition lit_ok (l : Lit) : bool :=
  forallb (fun d => (d <? 10)%nat) (l_int l ++ l_frac l) && negb (Nat.eqb (length (l_int l ++ l_frac l)) 0).

(** What may follow a literal on its line: nothing, or a character that
    does not continue it (a comma, a carriage return, a space...). *)
Definition after_lit (t : string) : bool :=
  match t with
  | EmptyString => true
  | String c _ => negb (is_digit c) && negb (Ascii.eqb c "."%char)
                  && negb (Ascii.eqb c "e"%char) && negb (Ascii.eqb c "E"%char)
  end.

Fixpoint str_has (c : ascii) (s : string) : bool :=
  match s with
  | EmptyString => false
  | String c' s' => Ascii.eqb c' c || str_has c s'
  end.

(** Lines joined by line feeds. *)
Fixpoint join_lines (ls : list string) : string :=
  match ls with
  | [] => ""
  | [l] => l
  | l :: ls' => l ++ String newline (join_lines ls')
  end.

(** ** Lemmas *)

Lemma digit_char_ok (d : nat) :
  (d < 10)%nat -> is_digit (digit_char d) = true /\ digit_val (digit_char d) = Z.of_nat d.
Proof. intro H. do 10 (destruct d as [|d]; [split; reflexivity|]). lia. Qed.

Lemma read_digits_print (ds : list nat) (t : string) (acc : Z) (n : nat) :
  forallb (fun d => (d <? 10)%nat) ds = true ->
  match t with String c _ => is_digit c = false | EmptyString => True end ->
  read_digits (print_digits ds ++ t) acc n = (digits_from acc ds, (n + length ds)%nat, t).
Proof.
  revert acc n. induction ds as [|d ds IH]; intros acc n Hd Ht;
    cbn [print_digits append read_digits length].
  - destruct t as [|c t]; [now rewrite Nat.add_0_r|]. cbn [read_digits]. rewrite Ht.
    now rewrite Nat.add_0_r.
  - cbn [forallb] in Hd. apply andb_true_iff in Hd as [Hd Hds]. apply Nat.ltb_lt in Hd.
    destruct (digit_char_ok d Hd) as [-> ->]. rewrite IH by assumption.
    f_equal. f_equal. lia.
Qed.

Lemma digits_from_app (acc : Z) (a b : list nat) :
  digits_from acc (a ++ b) = digits_from (digits_from acc a) b.
Proof. unfold digits_from. apply fold_left_app. Qed.

Lemma split_on_nonempty (sep : ascii) (s : string) : split_on sep s <> [].
Proof.
  destruct s as [|c s]; simpl; [discriminate|].
  destruct (Ascii.eqb c sep); [discriminate|]. destruct (split_on sep s); discriminate.
Qed.

Lemma split_on_app (sep : ascii) (a b : string) :
  str_has sep a = false -> split_on sep (a ++ String sep b) = a :: split_on sep b.
Proof.
  induction a as [|c a IH]; intro H; simpl.
  - now rewrite Ascii.eqb_refl.
  - simpl in H. apply orb_false_iff in H as [Hc Ha]. rewrite Hc, IH by exact Ha. reflexivity.
Qed.

Lemma split_on_none (sep : ascii) (a : string) :
  str_has sep a = false -> split_on sep a = [a].
Proof.
  induction a as [|c a IH]; intro H; simpl; [reflexivity|].
  simpl in H. apply orb_false_iff in H as [Hc Ha]. rewrite Hc, IH by exact Ha. reflexivity.
Qed.

Lemma split_join (ls : list string) :
  ls <> [] -> forallb (fun l => negb (str_has newline l)) ls = true ->
  split_on newline (join_lines ls) = ls.
Proof.
  induction ls as [|l ls IH]; intros Hne H; [congruence|].
  simpl in H. apply andb_true_iff in H as [Hl Hls]. apply negb_true_iff in Hl.
  destruct ls as [|l' ls'].
  - simpl. now apply split_on_none.
  - change (join_lines (l :: l' :: ls')) with (l ++ String newline (join_lines (l' :: ls'))).
    rewrite split_on_app by exact Hl. f_equal. apply IH; [discriminate|exact Hls].
Qed.

Lemma first_field_app (p t : string) :
  str_has comma p = false -> first_field (p ++ t) = p ++ first_field t.
Proof.
  unfold first_field. induction p as [|c p IH]; intro H; simpl; [reflexivity|].
  simpl in H. apply orb_false_iff in H as [Hc Hp]. rewrite Hc.
  specialize (IH Hp). pose proof (split_on_nonempty comma (p ++ t)) as Hn.
  destruct (split_on comma (p ++ t)) as [|x xs]; [congruence|]. now rewrite IH.
Qed.

Lemma after_lit_first_field (t : string) :
  after_lit t = true -> after_lit (first_field t) = true.
Proof.
  unfold first_field. destruct t as [|c t]; simpl; [reflexivity|]. intro H.
  destruct (Ascii.eqb c comma); [reflexivity|].
  destruct (split_on comma t); exact H.
Qed.

(** A digit is not white space, not a sign and does not begin
    [Infinity]. *)
Lemma digit_char_head (d : nat) (s : string) :
  (d < 10)%nat ->
  is_ws (digit_char d) = false /\ Ascii.eqb (digit_char d) "-"%char = false /\
  Ascii.eqb (digit_char d) "+"%char = false /\
  String.prefix "Infinity" (String (digit_char d) s) = false.
Proof. intro H. do 10 (destruct d as [|d]; [repeat split; reflexivity|]). lia. Qed.

Lemma string_app_assoc (a b c : string) : (a ++ b) ++ c = a ++ (b ++ c).
Proof. induction a as [|x a IH]; simpl; [reflexivity|now rewrite IH]. Qed.

Lemma frac_part_app (fs : list nat) (t : string) :
  (match fs with [] => "" | _ => String "."%char (print_digits fs) end ++ t)%string =
  match fs with [] => t | _ => String "."%char (print_digits fs ++ t) end.
Proof. destruct fs; reflexivity. Qed.

Lemma after_lit_cons (c : ascii) (t : string) :
  after_lit (String c t) = true ->
  is_digit c = false /\ Ascii.eqb c "."%char = false /\
  Ascii.eqb c "e"%char = false /\ Ascii.eqb c "E"%char = false.
Proof.
  simpl. destruct (is_digit c), (Ascii.eqb c "."%char), (Ascii.eqb c "e"%char),
    (Ascii.eqb c "E"%char); simpl; intro H; try discriminate H; auto.
Qed.

Lemma read_exponent_after (t : string) : after_lit t = true -> read_exponent t = 0%Z.
Proof.
  destruct t as [|c t]; [reflexivity|]. intro H.
  destruct (after_lit_cons c t H) as (_ & _ & He & HE). unfold read_exponent. now rewrite He, HE.
Qed.

(** The unsigned part of a printed literal, followed by a character that
    ends it, reads back as its digits scaled by the fraction length. *)
Lemma parse_unsigned_lit (neg : bool) (l : Lit) (t : string) :
  lit_ok l = true -> after_lit t = true ->
  parse_unsigned neg (print_digits (l_int l) ++
                      match l_frac l with [] => t | _ => String "."%char (print_digits (l_frac l) ++ t) end)
  = JFin ((if neg then -1 else 1) * inject_Z (digits_from 0 (l_int l ++ l_frac l))
          * pow10 (- Z.of_nat (length (l_frac l)))).
Proof.
  destruct l as [ln li lf]. unfold lit_ok. cbn [l_int l_frac].
  rewrite forallb_app. intros H Ht. apply andb_true_iff in H as [H Hne].
  apply andb_true_iff in H as [Hi Hf].
  rewrite length_app in Hne. apply negb_true_iff, Nat.eqb_neq in Hne.
  assert (Htd : match t with String c _ => is_digit c = false | EmptyString => True end).
  { destruct t as [|c t]; [exact I|]. simpl in Ht. destruct (is_digit c); [discriminate|reflexivity]. }
  unfold parse_unsigned.
  replace (String.prefix "Infinity" _) with false.
  2:{ destruct li as [|d li]; [destruct lf; [simpl in Hne; lia|reflexivity]|].
      cbn [forallb] in Hi. apply andb_true_iff in Hi as [Hd _]. apply Nat.ltb_lt in Hd.
      symmetry. apply (digit_char_head d _ Hd). }
  rewrite read_digits_print by (first [exact Hi|destruct lf; [exact Htd|reflexivity]]).
  destruct lf as [|d lf].
  - destruct t as [|c t'].
    + cbv iota beta. rewrite app_nil_r.
      destruct (Nat.eqb_spec (0 + length li + 0) 0); [simpl in *; lia|]. reflexivity.
    + destruct (after_lit_cons c t' Ht) as (_ & Hdot & _). rewrite app_nil_r, Hdot.
      destruct (Nat.eqb_spec (0 + length li + 0) 0); [simpl in *; lia|].
      now rewrite read_exponent_after.
  - rewrite Ascii.eqb_refl, read_digits_print by assumption.
    rewrite digits_from_app.
    rewrite read_exponent_after by exact Ht.
    destruct (Nat.eqb_spec (0 + length li + (0 + length (d :: lf))) 0); [simpl in *; lia|].
    reflexivity.
Qed.

(** The unsigned part of a literal starts with a digit or a point:
    neither white space nor a sign. *)
Lemma unsigned_head (l : Lit) (t : string) :
  lit_ok l = true ->
  let X := print_digits (l_int l) ++
           match l_frac l with [] => t | _ => String "."%char (print_digits (l_frac l) ++ t) end in
  trim_start X = X /\ read_sign X = (false, X).
Proof.
  destruct l as [ln li lf]. unfold lit_ok. cbn [l_int l_frac]. intros H.
  apply andb_true_iff in H as [Hd Hne]. rewrite forallb_app in Hd.
  apply andb_true_iff in Hd as [Hi _].
  destruct li as [|d li].
  - destruct lf as [|f lf]; [simpl in Hne; discriminate Hne|].
    cbn [print_digits append trim_start read_sign].
    change (is_ws "."%char) with false. change (Ascii.eqb "."%char "-"%char) with false.
    change (Ascii.eqb "."%char "+"%char) with false. split; reflexivity.
  - cbn [forallb] in Hi. apply andb_true_iff in Hi as [Hd _]. apply Nat.ltb_lt in Hd.
    destruct (digit_char_head d EmptyString Hd) as (Hw & Hm & Hp & _).
    cbn [print_digits append trim_start read_sign]. rewrite Hw, Hm, Hp. split; reflexivity.
Qed.

(** [parseFloat] reads a printed literal back, whatever follows it on
    the line as long as it does not continue the literal. *)
Lemma parseFloat_lit (l : Lit) (t : string) :
  lit_ok l = true -> after_lit t = true -> parseFloat (print_lit l ++ t) = JFin (lit_value l).
Proof.
  intros Hl Ht. unfold parseFloat, print_lit, lit_value.
  rewrite !string_app_assoc, frac_part_app.
  destruct (unsigned_head l t Hl) as [Htr Hrs].
  destruct (l_neg l).
  - cbn [append trim_start read_sign]. change (is_ws "-"%char) with false.
    change (Ascii.eqb "-"%char "-"%char) with true. cbv iota beta.
    apply parse_unsigned_lit; assumption.
  - cbn [append]. rewrite Htr, Hrs. apply parse_unsigned_lit; assumption.
Qed.

Lemma str_has_app (c : ascii) (a b : string) :
  str_has c (a ++ b) = str_has c a || str_has c b.
Proof. induction a as [|x a IH]; simpl; [reflexivity|now rewrite IH, orb_assoc]. Qed.

Lemma str_has_digits (c : ascii) (ds : list nat) :
  is_digit c = false -> forallb (fun d => (d <? 10)%nat) ds = true ->
  str_has c (print_digits ds) = false.
Proof.
  intro Hc. induction ds as [|d ds IH]; intro H; [reflexivity|].
  cbn [forallb] in H. apply andb_true_iff in H as [Hd H]. apply Nat.ltb_lt in Hd.
  cbn [print_digits str_has]. rewrite IH by exact H.
  destruct (Ascii.eqb_spec (digit_char d) c) as [E|E]; [|reflexivity].
  rewrite <- E, (proj1 (digit_char_ok d Hd)) in Hc. discriminate.
Qed.

(** A printed literal holds no character other than digits, [-] and [.]. *)
Lemma str_has_lit (c : ascii) (l : Lit) :
  is_digit c = false -> Ascii.eqb c "-"%char = false -> Ascii.eqb c "."%char = false ->
  lit_ok l = true -> str_has c (print_lit l) = false.
Proof.
  intros Hc Hm Hp Hl. unfold lit_ok in Hl. apply andb_true_iff in Hl as [Hl _].
  rewrite forallb_app in Hl. apply andb_true_iff in Hl as [Hi Hf].
  unfold print_lit. rewrite !str_has_app, str_has_digits by assumption.
  rewrite Ascii.eqb_sym in Hm, Hp.
  destruct (l_neg l); cbn [str_has]; rewrite ?Hm; simpl;
    destruct (l_frac l) as [|f fs]; cbn [str_has]; rewrite ?Hp, ?str_has_digits by assumption;
    reflexivity.
Qed.

(** The line of a printed literal followed by [t] parses back. *)
Lemma parse_line (l : Lit) (t : string) :
  lit_ok l = true -> after_lit t = true ->
  parseFloat (first_field (print_lit l ++ t)) = JFin (lit_value l).
Proof.
  intros Hl Ht. rewrite first_field_app by (apply str_has_lit; [reflexivity..|exact Hl]).
  apply parseFloat_lit; [exact Hl|]. now apply after_lit_first_field.
Qed.

Definition row_ok (r : Lit * string) : bool :=
  lit_ok (fst r) && after_lit (snd r) && negb (str_has newline (snd r)).

Lemma parse_lines (rows : list (Lit * string)) :
  forallb row_ok rows = true ->
  map (fun r => parseFloat (first_field r)) (map (fun r => print_lit (fst r) ++ snd r) rows) =
  map (fun r => JFin (lit_value (fst r))) rows.
Proof.
  induction rows as [|[l t] rows IH]; intro H; [reflexivity|].
  cbn [forallb] in H. apply andb_true_iff in H as [Hr H]. unfold row_ok in Hr.
  apply andb_true_iff in Hr as [Hr _]. apply andb_true_iff in Hr as [Hl Ht].
  cbn [map fst snd]. rewrite parse_line, IH by assumption. reflexivity.
Qed.

Lemma lines_no_newline (rows : list (Lit * string)) :
  forallb row_ok rows = true ->
  forallb (fun l => negb (str_has newline l)) (map (fun r => print_lit (fst r) ++ snd r) rows) = true.
Proof.
  induction rows as [|[l t] rows IH]; intro H; [reflexivity|].
  cbn [forallb] in H. apply andb_true_iff in H as [Hr H]. unfold row_ok in Hr.
  apply andb_true_iff in Hr as [Hr Hn]. apply andb_true_iff in Hr as [Hl _].
  cbn [map forallb fst snd]. rewrite IH, str_has_app, str_has_lit by (reflexivity || assumption).
  rewrite andb_true_r. exact Hn.
Qed.

Lemma filter_fin (xs : list Q) :
  filter (fun n => negb (js_isNaN n)) (map JFin xs) = map JFin xs /\
  finite_rows (map JFin xs) = Some xs.
Proof.
  induction xs as [|x xs [IH1 IH2]]; [split; reflexivity|].
  cbn [map filter js_isNaN negb finite_rows]. rewrite IH1, IH2. split; reflexivity.
Qed.

(** ** Properties of the parse *)

(** C35. A file of lines each holding a decimal literal (sign, digits,
    optional fraction) followed by a comma and more columns, a carriage
    return, or nothing, parses back to exactly the literals' values, in
    order, and loading it hands these samples to [onFileLoaded]. *)
Theorem parse_rows_roundtrip (rows : list (Lit * string)) (s : App) :
  rows <> [] -> forallb row_ok rows = true ->
  parse_rows (join_lines (map (fun r => print_lit (fst r) ++ snd r) rows))
    = map (fun r => JFin (lit_value (fst r))) rows /\
  load_text (join_lines (map (fun r => print_lit (fst r) ++ snd r) rows)) s
    = Some (onFileLoaded (map (fun r => lit_value (fst r)) rows) s).
Proof.
  intros Hne Hok.
  assert (Hp : parse_rows (join_lines (map (fun r => print_lit (fst r) ++ snd r) rows))
               = map (fun r => JFin (lit_value (fst r))) rows).
  { unfold parse_rows. rewrite split_join.
    - rewrite parse_lines by exact Hok.
      replace (map (fun r => JFin (lit_value (fst r))) rows)
        with (map JFin (map (fun r => lit_value (fst r)) rows)) by apply map_map.
      apply filter_fin.
    - destruct rows; [congruence|discriminate].
    - now apply lines_no_newline. }
  split; [exact Hp|]. unfold load_text. rewrite Hp.
  replace (map (fun r => JFin (lit_value (fst r))) rows)
    with (map JFin (map (fun r => lit_value (fst r)) rows)) by apply map_map.
  now rewrite (proj2 (filter_fin _)).
Qed.

Definition carriage_return : string := String (ascii_of_nat 13) EmptyString.

Lemma parse_rows_roundtrip_witness :
  parse_rows (join_lines [print_lit (mkLit false [0%nat] [5%nat]) ++ ",0.1";
                          print_lit (mkLit true [1%nat; 2%nat] []) ++ carriage_return])
    = [JFin (lit_value (mkLit false [0%nat] [5%nat])); JFin (lit_value (mkLit true [1%nat; 2%nat] []))].
Proof.
  apply (parse_rows_roundtrip [(mkLit false [0%nat] [5%nat], ",0.1"); (mkLit true [1%nat; 2%nat] [], carriage_return)]
           app_init).
  - discriminate.
  - vm_compute. reflexivity.
Defined.

(** The filter of line 273 drops only what [parseFloat] reads as
    [NaN]: a header, a blank line, a lone [.] or [e5]; white space before
    a number, an exponent and trailing text are accepted; and a line
    [Infinity] is kept as an infinite sample, so the loaded sequence is
    not always finite. *)
Theorem parse_rows_example :
  parse_rows (join_lines ["MLII,V5"; " 0.5,1"; "Infinity"; ""; "-1.25e1,0"; "+.75E-1";
                          "1e"; "e5"; "."])
    = [JFin (5 # 10); JInf false; JFin (-125 # 10); JFin (75 # 1000); JFin 1] /\
  load_text (join_lines ["0.5"; "Infinity"]) app_init = None.
Proof. vm_compute. split; reflexivity. Qed.
