(* ===== verification/Refinement.v ===== *)
(** * The component refines its parts

    The component [App] holds the state of the alert manager inside its
    own: the alert list [alerts] (line 153) and, among all the timers of
    the page, the removal timers scheduled by [triggerAlert] (lines
    332-334).  [am_of] projects an [App] state onto an [AlertManager]
    state of [Alerts]: the clock, the alert list, and the timer queue
    restricted to the removal callbacks.  Every step of the component
    ([Scheduler.app_step]) is simulated by at most one step of the alert
    manager ([Alerts.am_step]), so what [Alerts] proves of its reachable
    states holds of the alerts the component shows.

    The display buffer is the second part: along the frames of one
    recording, the [displayData] of the component is the abstract window
    [DisplayBuffer.lastn] of the stream of samples consumed, and in every
    reachable state the display ends with the samples consumed from the
    current recording. *)

From S2P Require Import Prelude JsRuntime Peaks Analyzer Timers Alerts DisplayBuffer AppState Playback Scheduler.
From Stdlib Require Import String QArith List ZArith Lia Lqa Bool.
Import ListNotations.
Open Scope Q_scope.
Open Scope ecg_scope.

(** ** The abstraction *)

(** The timers the alert manager owns: the removals of line 333. *)
Definition alert_cb (c : Callback) : option string :=
  match c with
  | cb_remove_alert m => Some m
  | _ => None
  end.

Definition am_of (s : App) : AlertManager :=
  mkAM (nowMs s) (alertList s) (qproj alert_cb (timeouts s)).

(** At most one trigger. *)
Definition one_trigger (a b : AlertManager) : Prop :=
  b = a \/ exists m ty, b = triggerAlert m ty a.

(** ** Lemmas on the abstraction *)

Lemma one_trigger_star (a b : AlertManager) : one_trigger a b -> am_star a b.
Proof. intros [->|(m & ty & ->)]; [constructor|apply am_star_one, am_trigger]. Qed.

Lemma one_trigger_refl (a : AlertManager) : one_trigger a a.
Proof. now left. Qed.

#[export] Hint Resolve one_trigger_refl : ecg.

Lemma am_of_trigger (m : string) (ty : Severity) (s : App) :
  am_of (app_triggerAlert m ty s) = triggerAlert m ty (am_of s).
Proof.
  unfold am_of, app_triggerAlert, triggerAlert, setTimeout. app_simpl.
  now rewrite qproj_app.
Qed.

Lemma one_trigger_app (m : string) (ty : Severity) (s : App) :
  one_trigger (am_of s) (am_of (app_triggerAlert m ty s)).
Proof. right. exists m, ty. apply am_of_trigger. Qed.

(** A timer that is not a removal is invisible to the alert manager. *)
Lemma am_of_other_timer (d : Z) (c : Callback) (s : App) :
  alert_cb c = None -> am_of (set_timeouts (timeouts s ++ [(d, c)]) s) = am_of s.
Proof.
  intro Hc. unfold am_of. app_simpl. rewrite qproj_app. simpl. rewrite Hc.
  now rewrite app_nil_r.
Qed.

Lemma run_callback_owned (c : Callback) (m : string) (s : App) :
  alert_cb c = Some m -> alertList (run_callback c s) = expire_update m (alertList s).
Proof. destruct c; simpl; intro H; [now injection H as ->|discriminate..]. Qed.

Lemma run_callback_other (c : Callback) (s : App) :
  alert_cb c = None -> alertList (run_callback c s) = alertList s.
Proof.
  destruct c as [m|[] [ar|]|]; simpl; intro H; try discriminate; reflexivity.
Qed.

(** Advancing the page's clock is a tick of the alert manager: the
    removals among the due timers run in the same order. *)
Lemma am_of_advance (t : Z) (s : App) : am_of (app_advance t s) = tick_to t (am_of s).
Proof.
  unfold app_advance, tick_to, advance, am_of. cbn [timers alerts clock].
  destruct (fire_due_sim alert_cb run_callback expire_update alertList
              run_callback_owned run_callback_other
              (length (timeouts s)) (length (qproj alert_cb (timeouts s))) t (timeouts s) s
              (Nat.le_refl _) (Nat.le_refl _)) as [Hq Hl].
  destruct (fire_due run_callback _ t (timeouts s) s) as [q s'].
  destruct (fire_due expire_update _ t _ (alertList s)) as [q2 l2].
  cbn [fst snd] in *. app_simpl. congruence.
Qed.

(** ** The handlers, seen by the alert manager *)

(** [am_same] closes [am_of x = am_of y] when [x] only sets fields the
    alert manager does not see. *)
Ltac am_same := unfold am_of; app_simpl; reflexivity.

Lemma am_of_commit (s : App) : am_of (commit s) = am_of s.
Proof. am_same. Qed.

Lemma am_of_consume (n : nat) (s : App) (p : list Q) :
  am_of (fst (consume_loop n s p)) = am_of s.
Proof.
  revert s p. induction n as [|n IH]; intros s p; simpl; [reflexivity|].
  destruct (_ <? _)%Z; rewrite IH; am_same.
Qed.

Lemma am_of_jitter (r : Rand) (s : App) : am_of (fst (jitter r s)) = am_of s.
Proof.
  unfold jitter. destruct (analysisResult s); [|reflexivity].
  destruct (_ && _); [|reflexivity]. destruct (next_random r). am_same.
Qed.

Lemma am_of_end_frame (np : list Q) (s : App) : am_of (end_frame np s) = am_of s.
Proof. am_same. Qed.

Lemma one_trigger_apply_demo_event (ev : DemoEvent) (s : App) :
  one_trigger (am_of s) (am_of (apply_demo_event ev s)).
Proof.
  unfold apply_demo_event. destruct (negb _).
  - rewrite am_of_trigger. right. do 2 eexists. f_equal.
  - left. am_same.
Qed.

Lemma one_trigger_inject `{EventSource} (r : Rand) (s : App) :
  one_trigger (am_of s) (am_of (fst (injectDemoEvents r s))).
Proof.
  unfold injectDemoEvents. destruct (pick_event r) as [[ev|] r']; [|now left].
  cbn [fst]. unfold setTimeout. rewrite am_of_other_timer by reflexivity.
  apply one_trigger_apply_demo_event.
Qed.

Lemma one_trigger_show_final (ar : AnalysisResult) (s : App) :
  one_trigger (am_of s) (am_of (show_final ar s)).
Proof. unfold show_final. right. do 2 eexists. rewrite am_of_trigger. reflexivity. Qed.

(** A frame raises at most one alert: the demo event's or the end of
    the stream's. *)
Lemma one_trigger_frame `{EventSource} (r : Rand) (s : App) :
  one_trigger (am_of s) (am_of (fst (updateSimulation r s))).
Proof.
  unfold updateSimulation. cbv zeta. app_simpl.
  destruct (_ && _); [|cbn [fst]; rewrite am_of_end_frame; left; am_same].
  destruct (_ <=? _)%Z.
  - cbn [fst]. destruct (analysisResult s) as [ar|].
    + right. exists "Signal Stream Ended"%string, info. rewrite <- am_of_trigger.
      unfold am_of, show_final, app_triggerAlert. app_simpl. reflexivity.
    + left. am_same.
  - match goal with |- context [consume_loop ?n ?x ?p] =>
      pose proof (am_of_consume n x p) as H1; destruct (consume_loop n x p) as [s1 np] end.
    cbn [fst] in H1.
    match goal with |- context [jitter r ?x] =>
      pose proof (am_of_jitter r x) as H2; destruct (jitter r x) as [s2 r2] end.
    cbn [fst] in H2. replace (am_of s) with (am_of s2)
      by (rewrite H2; transitivity (am_of s1); [am_same|rewrite H1; am_same]).
    destruct (_ =? 0)%Z.
    + pose proof (one_trigger_inject r2 s2) as H3.
      destruct (injectDemoEvents r2 s2) as [s3 r3]. cbn [fst] in *.
      now rewrite am_of_end_frame.
    + cbn [fst]. rewrite am_of_end_frame. now left.
Qed.

Lemma one_trigger_toggle (s : App) : one_trigger (am_of s) (am_of (togglePlay s)).
Proof.
  unfold togglePlay. destruct (negb _); [apply one_trigger_app|].
  destruct (_ <=? _)%Z; [|left; am_same].
  cbv zeta. app_simpl. destruct (analysisResult s); left; am_same.
Qed.

Lemma one_trigger_upload (f : option string) (s : App) :
  one_trigger (am_of s) (am_of (handleFileUpload f s)).
Proof.
  unfold handleFileUpload. destruct f as [name|]; [|now left].
  destruct (negb _); [apply one_trigger_app|left; am_same].
Qed.

Lemma one_trigger_loaded (rows : list Q) (s : App) :
  one_trigger (am_of s) (am_of (onFileLoaded rows s)).
Proof.
  unfold onFileLoaded. cbv zeta. destruct (alert (analyzeECGSignal rows)) as [a|].
  - right. exists a, (if (70 <? risk (analyzeECGSignal rows))%Z then critical else warning).
    rewrite <- am_of_trigger. unfold am_of, app_triggerAlert. app_simpl. reflexivity.
  - left. am_same.
Qed.

Lemma one_trigger_report (s : App) : one_trigger (am_of s) (am_of (generateReport s)).
Proof.
  unfold generateReport. destruct (negb _); [apply one_trigger_app|].
  left. exact (am_of_other_timer _ cb_report_done (set_isGeneratingReport true s) eq_refl).
Qed.

Lemma am_init_of : am_of app_init = am_init.
Proof. reflexivity. Qed.

(** ** The simulation *)

(** Each step of the component, seen by the alert manager. *)
Lemma app_step_am `{EventSource} (s s' : App) :
  app_step s s' -> am_star (am_of s) (am_of s').
Proof.
  destruct 1 as [r s Hf|t s Ht|s|f s|rows s Hn|s _|m s]; rewrite am_of_commit.
  - apply one_trigger_star, one_trigger_frame.
  - rewrite am_of_advance. apply am_star_one, am_tick. exact Ht.
  - apply one_trigger_star, one_trigger_toggle.
  - apply one_trigger_star, one_trigger_upload.
  - apply one_trigger_star, one_trigger_loaded.
  - apply one_trigger_star, one_trigger_report.
  - constructor.
Qed.

(** C21. The component refines the alert manager: every step of the
    component (a frame, the clock, a user action, the file reader) is
    matched by zero or more steps of [Alerts.am_step] on the projection
    [am_of]: a frame or a handler raises at most one alert, and the
    clock runs exactly the removal timers that are due, in order. *)
Theorem app_refines_alerts `{EventSource} (s s' : App) :
  app_step s s' -> am_star (am_of s) (am_of s').
Proof. exact (app_step_am s s'). Qed.

Lemma app_refines_alerts_witness :
  am_star (am_of app_init) (am_of (commit (togglePlay app_init))).
Proof. apply (@app_refines_alerts random_demo_source). apply step_toggle. Defined.

(** The projection of a reachable state of the component is a reachable
    state of the alert manager. *)
Lemma app_reachable_am `{EventSource} (s : App) :
  app_reachable s -> am_reachable (am_of s).
Proof.
  induction 1 as [|s s' _ IH Hs]; [rewrite am_init_of; constructor|].
  eapply am_star_reachable; [|exact IH]. exact (app_step_am s s' Hs).
Qed.

(** C22. What the alert manager guarantees holds of the alerts the
    component shows: in every reachable state of the component, each
    alert shown was created less than [ALERT_TTL] = 3000 ms ago. *)
Theorem app_alerts_fresh `{EventSource} (s : App) :
  app_reachable s -> forall a, In a (alertList s) -> (nowMs s < id a + ALERT_TTL)%Z.
Proof.
  intro Hr. exact (am_inv_fresh (am_of s) (am_reachable_inv _ (app_reachable_am s Hr))).
Qed.

(** An upload with a name of unknown provenance: one alert shown. *)
Definition rejected_upload : App := commit (handleFileUpload (Some "record.csv"%string) app_init).

Lemma app_alerts_fresh_witness :
  (nowMs rejected_upload
     < id (mkAlert 0 "Invalid Source: Upload MIT or PhysioNet CSV" critical) + ALERT_TTL)%Z.
Proof.
  apply (@app_alerts_fresh random_demo_source rejected_upload).
  - eapply reach_step; [apply reach_init|apply step_upload].
  - vm_compute. left. reflexivity.
Defined.

(** ** The display buffer *)

(** A frame consumes [k] samples, those after the index, shows them,
    and leaves the recording alone ([k = 0] when there is nothing to
    consume). *)
Lemma frame_display `{EventSource} (r : Rand) (s : App) :
  (0 <= dataIndex s <= Z.of_nat (length (ecgData s)))%Z ->
  exists k,
    dataIndex (fst (updateSimulation r s)) = (dataIndex s + Z.of_nat k)%Z /\
    (Z.to_nat (dataIndex s) + k <= length (ecgData s))%nat /\
    displayData (fst (updateSimulation r s)) =
      display_update (firstn k (skipn (Z.to_nat (dataIndex s)) (ecgData s))) (displayData s) /\
    ecgData (fst (updateSimulation r s)) = ecgData s.
Proof.
  intro Hi.
  destruct (name_truthy (uploadedFileName s)) eqn:Hn;
    [destruct (Nat.ltb_spec 0 (length (ecgData s))) as [Hl|Hl]|].
  - destruct (Z.ltb_spec (dataIndex s) (Z.of_nat (length (ecgData s)))) as [Hlt|Hge].
    + destruct (updateSimulation_running r s Hn ltac:(lia)) as (s2 & r2 & -> & Hv).
      apply playback_view_eq in Hv. app_simpl. destruct Hv as (_ & He & Hd & _ & _ & _ & Hx).
      exists (Nat.min SAMPLES_PER_FRAME (length (ecgData s) - Z.to_nat (dataIndex s))).
      cbn [fst]. unfold end_frame. app_simpl. rewrite He, Hd, Hx.
      repeat split; try reflexivity. unfold SAMPLES_PER_FRAME. lia.
    + exists 0%nat. rewrite updateSimulation_done by (assumption || lia). cbn [fst].
      app_simpl. destruct (analysisResult s);
        unfold show_final, app_triggerAlert; app_simpl; repeat split; try reflexivity; lia.
  - exists 0%nat. destruct (ecgData s) eqn:He; [|simpl in Hl; lia].
    rewrite updateSimulation_empty by exact He. cbn [fst]. unfold end_frame. app_simpl.
    rewrite He. repeat split; try reflexivity; lia.
  - exists 0%nat. unfold updateSimulation. cbv zeta. app_simpl. rewrite Hn. cbn [andb fst].
    unfold end_frame. app_simpl. repeat split; try reflexivity; lia.
Qed.

(** Below capacity, the updater is the abstract window whatever the chunk. *)
Lemma display_update_window {A} (c d : list A) :
  (length d <= POINTS_PER_WINDOW)%nat -> display_update c d = lastn POINTS_PER_WINDOW (d ++ c).
Proof.
  intro H. destruct c as [|x c]; [|apply display_update_lastn; discriminate].
  rewrite app_nil_r. symmetry. now apply lastn_short.
Qed.

(** Consecutive chunks of the recording are one chunk. *)
Lemma chunks_app {A} (l : list A) (i k m : nat) :
  firstn k (skipn i l) ++ firstn m (skipn (i + k) l) = firstn (k + m) (skipn i l).
Proof. rewrite firstn_add_skipn, skipn_skipn. do 3 f_equal. lia. Qed.

(** C23. Along the frames of one recording the display refines the
    abstract sliding window: after any run of frames it holds exactly
    the last 600 samples of what it held before followed by the samples
    consumed, which are those of the recording between the index before
    and the index after; the recording is left alone and the index only
    moves forward within it. *)
Theorem frames_display_window `{EventSource} (rs : list Rand) (s : App) :
  (length (displayData s) <= POINTS_PER_WINDOW)%nat ->
  (0 <= dataIndex s <= Z.of_nat (length (ecgData s)))%Z ->
  ecgData (run_frames rs s) = ecgData s /\
  (dataIndex s <= dataIndex (run_frames rs s) <= Z.of_nat (length (ecgData s)))%Z /\
  displayData (run_frames rs s) =
    lastn POINTS_PER_WINDOW
      (displayData s ++ firstn (Z.to_nat (dataIndex (run_frames rs s)) - Z.to_nat (dataIndex s))
                               (skipn (Z.to_nat (dataIndex s)) (ecgData s))).
Proof.
  revert s. induction rs as [|r rs IH]; intros s Hd Hi.
  2: destruct (frameRequested s) eqn:Hf.
  1, 3: cbn [run_frames]; try rewrite Hf; rewrite Nat.sub_diag, app_nil_r, lastn_short by exact Hd;
        split; [reflexivity|split; [lia|reflexivity]].
  cbn [run_frames]. rewrite Hf.
  destruct (frame_display r s Hi) as (k & Hk1 & Hk2 & Hk3 & Hk4).
  set (s1 := commit (fst (updateSimulation r s))).
  assert (E1 : ecgData s1 = ecgData s /\ dataIndex s1 = (dataIndex s + Z.of_nat k)%Z /\
               displayData s1 = lastn POINTS_PER_WINDOW
                 (displayData s ++ firstn k (skipn (Z.to_nat (dataIndex s)) (ecgData s)))).
  { subst s1. unfold commit. app_simpl. rewrite Hk1, Hk3, Hk4, display_update_window by exact Hd.
    auto. }
  destruct E1 as (He1 & Hi1 & Hd1).
  assert (Hz : Z.of_nat (Z.to_nat (dataIndex s)) = dataIndex s) by (apply Z2Nat.id; lia).
  destruct (IH s1) as (He & Hb & Hdisp).
  - rewrite Hd1, length_lastn. lia.
  - rewrite He1, Hi1. lia.
  - rewrite He1, Hi1 in Hb. rewrite He, He1. split; [reflexivity|split; [lia|]].
    rewrite Hdisp, Hd1, lastn_lastn_app, <- app_assoc, He1, Hi1.
    rewrite Z2Nat.inj_add, Nat2Z.id by lia. rewrite chunks_app.
    assert (Hj : (Z.to_nat (dataIndex s) + k <= Z.to_nat (dataIndex (run_frames rs s1)))%nat).
    { rewrite <- (Nat2Z.id k). rewrite <- Z2Nat.inj_add by lia. apply Z2Nat.inj_le; lia. }
    replace (k + _)%nat with (Z.to_nat (dataIndex (run_frames rs s1)) - Z.to_nat (dataIndex s))%nat
      by lia.
    reflexivity.
Qed.

(** The demo recording after its first frame: four samples shown. *)
Definition demo_first_frame : App := commit (fst (updateSimulation [] demo_loaded)).

Lemma frames_display_window_witness :
  displayData (run_frames (repeat [] 10) demo_loaded) =
  lastn POINTS_PER_WINDOW (firstn 40 demo_rows).
Proof.
  destruct (@frames_display_window random_demo_source (repeat [] 10) demo_loaded
              ltac:(apply Nat.leb_le; vm_compute; reflexivity)
              ltac:(split; [apply Z.leb_le|apply Z.leb_le]; vm_compute; reflexivity))
    as (_ & _ & H).
  rewrite H. vm_compute. reflexivity.
Defined.

(** *** The display in every reachable state *)

(** The display is within capacity, the index within the recording, and
    the display is the window of some earlier samples followed by the
    samples consumed from the current recording. *)
Definition display_inv (s : App) : Prop :=
  (length (displayData s) <= POINTS_PER_WINDOW)%nat /\
  (0 <= dataIndex s <= Z.of_nat (length (ecgData s)))%Z /\
  exists p, displayData s = lastn POINTS_PER_WINDOW (p ++ firstn (Z.to_nat (dataIndex s)) (ecgData s)).

Definition display_view (s : App) := (displayData s, dataIndex s, ecgData s).

Lemma display_inv_view (s s' : App) :
  display_view s' = display_view s -> display_inv s -> display_inv s'.
Proof. unfold display_view, display_inv. intro H. injection H as -> -> ->. tauto. Qed.

(** [dview_same] closes [display_view x = display_view y] for handlers
    that leave the display, the index and the recording alone. *)
Ltac dview_same := unfold display_view, app_triggerAlert; app_simpl; reflexivity.

Lemma display_view_run_callback (c : Callback) (s : App) :
  display_view (run_callback c s) = display_view s.
Proof. destruct c as [m|[] [ar|]|]; reflexivity. Qed.

Lemma display_view_advance (t : Z) (s : App) :
  display_view (app_advance t s) = display_view s.
Proof.
  unfold app_advance, advance.
  pose proof (fire_due_preserves run_callback (fun x => display_view x = display_view s)
                (fun c x H => eq_trans (display_view_run_callback c x) H)
                (length (timeouts s)) t (timeouts s) s eq_refl) as H.
  destruct (fire_due run_callback _ t (timeouts s) s) as [q s']. exact H.
Qed.

Lemma display_inv_frame `{EventSource} (r : Rand) (s : App) :
  display_inv s -> display_inv (commit (fst (updateSimulation r s))).
Proof.
  intros (Hd & Hi & p & Hp).
  destruct (frame_display r s Hi) as (k & Hk1 & Hk2 & Hk3 & Hk4).
  unfold display_inv, commit. app_simpl. rewrite Hk1, Hk3, Hk4, display_update_window by exact Hd.
  assert (Hz : Z.of_nat (Z.to_nat (dataIndex s)) = dataIndex s) by (apply Z2Nat.id; lia).
  split; [rewrite length_lastn; lia|split; [lia|]].
  exists p. rewrite Hp, lastn_lastn_app, <- !app_assoc.
  rewrite Z2Nat.inj_add, Nat2Z.id, firstn_add_skipn by lia. reflexivity.
Qed.

Lemma display_inv_toggle (s : App) : display_inv s -> display_inv (togglePlay s).
Proof.
  intro H. unfold togglePlay. destruct (negb _); [revert H; apply display_inv_view; dview_same|].
  destruct (_ <=? _)%Z; [|revert H; apply display_inv_view; dview_same].
  cbv zeta. unfold display_inv.
  destruct (analysisResult _); app_simpl; (split; [simpl; lia|split; [lia|]]);
    exists []; reflexivity.
Qed.

Lemma display_inv_upload (f : option string) (s : App) :
  display_inv s -> display_inv (handleFileUpload f s).
Proof.
  apply display_inv_view. unfold handleFileUpload.
  destruct f; [destruct (negb _)|]; dview_same.
Qed.

(** A new recording restarts the index but keeps the display: the
    earlier samples stay in front. *)
Lemma display_inv_loaded (rows : list Q) (s : App) :
  display_inv s -> display_inv (onFileLoaded rows s).
Proof.
  intros (Hd & _ & _). unfold onFileLoaded. cbv zeta.
  destruct (alert (analyzeECGSignal rows)); unfold display_inv, app_triggerAlert; app_simpl;
    (split; [exact Hd|split; [lia|]]); exists (displayData s);
    rewrite app_nil_r; symmetry; apply lastn_short, Hd.
Qed.

Lemma display_inv_report (s : App) : display_inv s -> display_inv (generateReport s).
Proof.
  apply display_inv_view. unfold generateReport. destruct (negb _); dview_same.
Qed.

Lemma display_inv_reachable `{EventSource} (s : App) : app_reachable s -> display_inv s.
Proof.
  induction 1 as [|s s' _ IH Hs].
  - split; [simpl; lia|split; [simpl; lia|]]. exists []. reflexivity.
  - destruct Hs as [r s Hf|t s Ht|s|f s|rows s Hn|s _|m s].
    + now apply display_inv_frame.
    + revert IH. apply display_inv_view. unfold commit.
      exact (display_view_advance t s).
    + apply (display_inv_view (togglePlay s)); [reflexivity|now apply display_inv_toggle].
    + apply (display_inv_view (handleFileUpload f s)); [reflexivity|now apply display_inv_upload].
    + apply (display_inv_view (onFileLoaded rows s)); [reflexivity|now apply display_inv_loaded].
    + apply (display_inv_view (generateReport s)); [reflexivity|now apply display_inv_report].
    + revert IH. apply display_inv_view. reflexivity.
Qed.

(** C24. In every reachable state the display ends with the samples
    consumed from the current recording: its last [min(600, index)]
    samples are the last samples of the recording before the index, in
    order.  What comes before them, when a new recording was loaded
    during or after playback, are samples of the earlier recording, since
    [reader.onload] does not clear the display. *)
Theorem display_shows_consumed `{EventSource} (s : App) :
  app_reachable s ->
  lastn (Nat.min POINTS_PER_WINDOW (Z.to_nat (dataIndex s))) (displayData s) =
  lastn POINTS_PER_WINDOW (firstn (Z.to_nat (dataIndex s)) (ecgData s)).
Proof.
  intro Hr. destruct (display_inv_reachable s Hr) as (_ & Hi & p & ->).
  assert (Hf : length (firstn (Z.to_nat (dataIndex s)) (ecgData s)) = Z.to_nat (dataIndex s)).
  { rewrite length_firstn. lia. }
  rewrite lastn_lastn_le by lia. rewrite lastn_app_long by lia.
  rewrite (lastn_length_min POINTS_PER_WINDOW), Hf. reflexivity.
Qed.

Lemma display_shows_consumed_witness :
  lastn (Nat.min POINTS_PER_WINDOW (Z.to_nat (dataIndex demo_first_frame)))
    (displayData demo_first_frame) =
  lastn POINTS_PER_WINDOW (firstn (Z.to_nat (dataIndex demo_first_frame)) (ecgData demo_first_frame)).
Proof.
  apply (@display_shows_consumed random_demo_source).
  exact (reach_step _ _ demo_loaded_reachable (step_frame [] demo_loaded eq_refl)).
Defined.

(** Loading a new recording after ten frames of the demo recording: the
    display still holds the forty samples of the first one, while the
    index restarts at 0 in the new one. *)
Lemma load_keeps_display :
  displayData (commit (onFileLoaded (repeat 0 400) (run_frames (repeat [] 10) demo_loaded)))
    = firstn 40 demo_rows /\
  dataIndex (commit (onFileLoaded (repeat 0 400) (run_frames (repeat [] 10) demo_loaded))) = 0%Z.
Proof. vm_compute. split; reflexivity. Qed.
