(* ===== verification/View.v ===== *)
(** * What the dashboard shows

    [src/src/main.jsx]: the decisions of the render code, as functions
    from the component's state to what is shown; the JSX markup itself is
    not modelled, only the choices it makes.
    - [StatusBadge] (lines 33-60): the tone of the rhythm badge, chosen by
      the first keyword group the status text contains ([statusBadge]);
    - [RiskGauge]'s [getColor] (lines 89-94) and the risk figure's colour
      (line 735) ([getColor], [risk_text_tone]);
    - the heart-rate card's colour (line 700) ([hr_tone]);
    - the alert banner's tone (line 617) ([alert_tone]);
    - the header status and the play button's icon (lines 533, 560)
      ([header_status], [play_icon]);
    - the ECG trace of [ECGGraph] (lines 445-476, 504-506): the polyline's
      points and the cursor, as coordinates in the 1000 x 300 view box
      ([graph_points], [graph_cursor]); the SVG text is not modelled.

    Each badge tone comes with its icon (ShieldCheck, AlertTriangle, Zap,
    Info, Check, MonitorOff), so the tone determines the icon. *)

From S2P Require Import Prelude JsRuntime Peaks Analyzer Timers Alerts DisplayBuffer AppState Playback Scheduler Refinement.
From Stdlib Require Import String QArith Qround List ZArith Lia Lqa Bool.
Import ListNotations.
Open Scope Q_scope.
Open Scope ecg_scope.
Open Scope string_scope.

(** ** The code *)

(** The Tailwind colour families the components choose between. *)
Inductive Tone := slate | emerald | amber | rose | blue | teal.

(** [StatusBadge], lines 34-51. *)
Definition statusBadge (status : string) : Tone :=
  let has := js_includes status in
  if has "Tachycardia" || has "Bradycardia" || has "Warning" || has "Irregular"
     || has "Bigeminy" || has "Ectopy" then amber
  else if has "Critical" || has "Fibrillation" || has "Review" || has "Infarction"
          || has "V-Tach" then rose
  else if has "Standby" || has "Upload" || has "Signal" || has "Paused" then blue
  else if has "Complete" then teal
  else if has "Noise" || has "Error" || has "Artifact" then slate
  else emerald.

(** [getColor] of [RiskGauge], lines 89-94. *)
Definition getColor (r : Z) : Tone :=
  if (r =? 0)%Z then slate
  else if (r <? 40)%Z then emerald
  else if (r <? 70)%Z then amber
  else rose.

(** The colour of the risk percentage, line 735. *)
Definition risk_text_tone (uploaded : bool) (r : Z) : Tone :=
  if negb uploaded then slate
  else if (70 <? r)%Z then rose
  else if (40 <? r)%Z then amber
  else emerald.

(** The colour of the heart-rate card, line 700. *)
Definition hr_tone (uploaded : bool) (h : Q) : Tone :=
  if negb uploaded then slate
  else if (100 <js h) || ((0 <js h) && (h <js 60)) then amber
  else emerald.

(** The banner of an alert, line 617. *)
Definition alert_tone (ty : Severity) : Tone :=
  match ty with
  | critical => rose
  | info => blue
  | warning => amber
  end.

(** The header status, line 533. *)
Definition header_status (s : App) : string :=
  if negb (name_truthy (uploadedFileName s)) then "System Paused"
  else if isPlaying s then "Live Processing"
  else if String.eqb (currentRhythm s) "Analysis Complete" then "Analysis Complete"
  else "Paused".

(** The icon of the play button, line 560. *)
Inductive Icon := icon_replay | icon_pause | icon_play.

Definition play_icon (s : App) : Icon :=
  if String.eqb (currentRhythm s) "Analysis Complete" then icon_replay
  else if isPlaying s then icon_pause
  else icon_play.

(** [ECGGraph], lines 445-476: no trace below two samples; otherwise the
    sample [i] of value [val] is drawn at
    [x = i / POINTS_PER_WINDOW * width],
    [y = height - (val - minVal) / range * height]. *)
Definition graph_width : Q := 1000.
Definition graph_height : Q := 300.

Definition graph_scale (uploaded : bool) : Q * Q :=
  if uploaded then (-1, 3) else (- (1 # 10), 2 # 10).

Definition graph_point (uploaded : bool) (i : nat) (val : Q) : Q * Q :=
  let (minVal, range) := graph_scale uploaded in
  (inject_Z (Z.of_nat i) / inject_Z (Z.of_nat POINTS_PER_WINDOW) * graph_width,
   graph_height - (val - minVal) / range * graph_height).

Fixpoint graph_points_from (uploaded : bool) (i : nat) (d : list Q) : list (Q * Q) :=
  match d with
  | [] => []
  | val :: d' => graph_point uploaded i val :: graph_points_from uploaded (S i) d'
  end.

Definition graph_points (s : App) : option (list (Q * Q)) :=
  if (length (displayData s) <? 2)%nat then None
  else Some (graph_points_from (name_truthy (uploadedFileName s)) 0 (displayData s)).

(** The cursor, lines 503-506, drawn when a file is loaded and the
    display holds a sample; below two samples the early return of line
    457 draws no trace and no cursor. *)
Definition graph_cursor (s : App) : option (Q * Q) :=
  let uploaded := name_truthy (uploadedFileName s) in
  if (length (displayData s) <? 2)%nat then None else
  match rev (displayData s) with
  | last :: _ =>
      if uploaded then
        let (minVal, range) := graph_scale uploaded in
        Some (inject_Z (Z.of_nat (length (displayData s)))
                / inject_Z (Z.of_nat POINTS_PER_WINDOW) * graph_width,
              graph_height - (last - minVal) / range * graph_height)
      else None
  | [] => None
  end.

(** ** Lemmas *)

Lemma rule_of_normal (bpm v : Q) : rule_of bpm v = R_Normal -> 60 <= bpm <= 100.
Proof.
  unfold rule_of. destruct (sdnn_gt_100 v); repeat destr_js; intro E; try discriminate; lra.
Qed.

Lemma rule_of_tachy (bpm v : Q) : rule_of bpm v = R_Tachy -> 100 < bpm.
Proof.
  unfold rule_of. destruct (sdnn_gt_100 v); repeat destr_js; intro E; try discriminate; lra.
Qed.

Lemma rule_of_brady (bpm v : Q) : rule_of bpm v = R_Brady -> bpm < 60.
Proof.
  unfold rule_of. destruct (sdnn_gt_100 v); repeat destr_js; intro E; try discriminate; lra.
Qed.

(** The horizontal coordinate of sample [i] of the window. *)
Lemma graph_x_bounds (i : nat) :
  (i <= POINTS_PER_WINDOW)%nat ->
  0 <= inject_Z (Z.of_nat i) / inject_Z (Z.of_nat POINTS_PER_WINDOW) * graph_width <= graph_width /\
  ((i < POINTS_PER_WINDOW)%nat ->
   inject_Z (Z.of_nat i) / inject_Z (Z.of_nat POINTS_PER_WINDOW) * graph_width < graph_width) /\
  ((0 < i)%nat -> 0 < inject_Z (Z.of_nat i) / inject_Z (Z.of_nat POINTS_PER_WINDOW) * graph_width).
Proof.
  change POINTS_PER_WINDOW with 600%nat. intro Hi. unfold graph_width, Qdiv.
  change (/ inject_Z (Z.of_nat 600)) with (1 # 600).
  assert (H0 : 0 <= inject_Z (Z.of_nat i)) by (change 0 with (inject_Z 0); rewrite <- Zle_Qle; lia).
  assert (H1 : inject_Z (Z.of_nat i) <= 600) by (change 600 with (inject_Z 600); rewrite <- Zle_Qle; lia).
  split; [lra|split; intro H].
  - assert (inject_Z (Z.of_nat i) < 600) by (change 600 with (inject_Z 600); rewrite <- Zlt_Qlt; lia).
    lra.
  - assert (0 < inject_Z (Z.of_nat i)) by (change 0 with (inject_Z 0); rewrite <- Zlt_Qlt; lia).
    lra.
Qed.

Lemma graph_points_from_x (u : bool) (i : nat) (d : list Q) :
  (i + length d <= POINTS_PER_WINDOW)%nat ->
  Forall (fun p => 0 <= fst p < graph_width) (graph_points_from u i d).
Proof.
  revert i. induction d as [|val d IH]; intros i Hl; simpl in *; constructor.
  - destruct (graph_x_bounds i ltac:(lia)) as [H0 [H1 _]].
    unfold graph_point. destruct (graph_scale u). cbn [fst]. split; [lra|apply H1; lia].
  - apply IH. lia.
Qed.

(** ** What an analysis is shown as *)

(** C32. The rhythm badge of an analysis result is never the red critical
    one: the badge is picked by keywords, no label of the analyser carries
    a critical keyword, and "Asystole / No Signal", the result with risk
    100, contains "Signal" and is shown with the blue information badge. *)
Theorem analysis_badge_not_critical (data : list Q) :
  statusBadge (rhythm (analyzeECGSignal data)) <> rose /\
  (risk (analyzeECGSignal data) = 100%Z -> statusBadge (rhythm (analyzeECGSignal data)) = blue).
Proof.
  destruct (analyze_outcome data) as [->|[->|(bpm & v & _ & ->)]].
  - split; [vm_compute; discriminate|intros _; vm_compute; reflexivity].
  - split; [vm_compute; discriminate|vm_compute; discriminate].
  - destruct (rule_of bpm v); cbn [verdict_of rhythm risk v_rhythm v_risk normal_verdict
      noise_verdict tachy_verdict brady_verdict irregular_verdict];
      (split; [vm_compute; discriminate|intro E; discriminate E]).
Qed.

Lemma analysis_badge_not_critical_witness :
  statusBadge (rhythm (analyzeECGSignal (repeat 0 50))) = blue.
Proof.
  apply (analysis_badge_not_critical (repeat 0 50)). vm_compute. reflexivity.
Defined.

(** The heart-rate card agrees with the rate tiers of the
    classification: a "Normal Sinus" result shows the rate in green, a
    sinus tachycardia or bradycardia shows it in amber. *)
Theorem hr_card_agrees (data : list Q) :
  (rhythm (analyzeECGSignal data) = "Normal Sinus" ->
     hr_tone true (hr (analyzeECGSignal data)) = emerald) /\
  (rhythm (analyzeECGSignal data) = "Sinus Tachycardia" \/
   rhythm (analyzeECGSignal data) = "Sinus Bradycardia" ->
     hr_tone true (hr (analyzeECGSignal data)) = amber).
Proof.
  destruct (analyze_outcome data) as [->|[->|(bpm & v & Hb & ->)]];
    [split; intro E; [discriminate E|destruct E as [E|E]; discriminate E]..|].
  unfold hr_tone. simpl negb. cbv iota.
  destruct (rule_of bpm v) eqn:Er; cbn [verdict_of rhythm hr v_rhythm normal_verdict
      noise_verdict tachy_verdict brady_verdict irregular_verdict];
    (split; intro E; [try discriminate E|try (destruct E as [E|E]; discriminate E)]).
  - apply rule_of_tachy in Er. now rewrite js_lt_true.
  - apply rule_of_brady in Er. rewrite (js_lt_true 0 bpm), (js_lt_true bpm 60) by lra.
    now rewrite andb_true_r, orb_true_r.
  - apply rule_of_normal in Er.
    now rewrite (js_lt_false 100 bpm), (js_lt_false bpm 60), andb_false_r by lra.
Qed.

Lemma hr_card_agrees_witness :
  hr_tone true (hr (analyzeECGSignal demo_rows)) = emerald.
Proof.
  apply (hr_card_agrees demo_rows). vm_compute. reflexivity.
Defined.

(** C33. The gauge's colour (thresholds [< 40], [< 70]) and the colour of
    the risk figure beside it (thresholds [> 70], [> 40]) agree on every
    risk except 0, 40 and 70: at 70 the gauge is red while the figure is
    amber, at 40 the gauge is amber while the figure is green. *)
Theorem gauge_text_agree (r : Z) :
  getColor r = risk_text_tone true r <-> (r <> 0 /\ r <> 40 /\ r <> 70)%Z.
Proof.
  unfold getColor, risk_text_tone. simpl negb. cbv iota.
  destruct (Z.eqb_spec r 0), (Z.ltb_spec r 40), (Z.ltb_spec r 70), (Z.ltb_spec 70 r),
    (Z.ltb_spec 40 r); split; intro Hr; first [reflexivity | discriminate | lia].
Qed.

(** ** The trace stays in the view box *)

(** C34. In every reachable state, every point of the ECG polyline lies
    horizontally inside the 1000-wide view box, [0 <= x < 1000], and the
    cursor at its head within [(0, 1000]]: the display never holds more
    than the 600 samples the x-scale divides by. *)
Theorem graph_in_viewbox (s : App) :
  @app_reachable random_demo_source s ->
  (forall pts, graph_points s = Some pts -> Forall (fun p => 0 <= fst p < graph_width) pts) /\
  (forall c, graph_cursor s = Some c -> 0 < fst c <= graph_width).
Proof.
  intro H. destruct (app_reachable_inv random_demo_source_ok s H) as [(_ & _ & Hd & _) _].
  split.
  - intros pts. unfold graph_points. destruct (length (displayData s) <? 2)%nat; [discriminate|].
    intro E. injection E as <-. apply graph_points_from_x. exact Hd.
  - intro c. unfold graph_cursor. destruct (length (displayData s) <? 2)%nat; [discriminate|].
    destruct (rev (displayData s)) as [|x l] eqn:Er; [discriminate|].
    destruct (name_truthy (uploadedFileName s)); [|discriminate].
    destruct (graph_scale true). intro E. injection E as <-. cbn [fst].
    assert (Hl : (0 < length (displayData s))%nat).
    { rewrite <- length_rev, Er. simpl. lia. }
    destruct (graph_x_bounds (length (displayData s)) Hd) as [H0 [_ H2]].
    split; [apply H2; exact Hl|apply H0].
Qed.

Lemma graph_in_viewbox_witness :
  match graph_cursor demo_first_frame with
  | Some c => 0 < fst c <= graph_width
  | None => False
  end.
Proof.
  destruct (graph_in_viewbox demo_first_frame
              (reach_step _ _ demo_loaded_reachable (step_frame [] demo_loaded eq_refl)))
    as [_ H].
  destruct (graph_cursor demo_first_frame) as [c|] eqn:E; [exact (H c eq_refl)|].
  vm_compute in E. discriminate E.
Defined.

(** What the stale revert of the trace [stale_revert_trace]
    shows: right after the last frame the header reads "Analysis
    Complete" and the play button offers a replay; once the revert has
    fired, on the same finished recording, the header reads "Paused",
    the button shows Play, and the badge shows the analysis label. *)
Theorem stale_revert_display :
  header_status demo_played = "Analysis Complete" /\ play_icon demo_played = icon_replay /\
  header_status stale_revert_trace = "Paused" /\ play_icon stale_revert_trace = icon_play /\
  statusBadge (currentRhythm stale_revert_trace) = emerald /\
  dataIndex stale_revert_trace = Z.of_nat (length (ecgData stale_revert_trace)).
Proof. vm_compute. repeat split. Qed.
