(* ===== verification/Report.v ===== *)
(** * Model selection, the metrics cards and the printed report

    [src/src/main.jsx]:
    - [ModelSelector] (lines 111-135): three models, each a button that
      calls [onSelect(m.id)], i.e. [setActiveModel] (line 684), and is
      highlighted when it is the active one; the model's name in the
      header (line 543), its description (lines 687-689) and its name in
      the report (line 801);
    - the monitor's labels (lines 587-595, 643), the progress bar (lines
      600-605); the report button's [disabled] (line 566) is
      [Playback.report_disabled], the guard of the report step;
    - the metrics cards (lines 694-758): the rounded heart rate, the
      interval figures, which depend only on the model, the risk and its
      two derived percentages;
    - the printed report (lines 778-849): a snapshot of the state that
      [window.print()] renders when the report timer of [generateReport]
      fires, 1500 ms after the request.

    The report is [report_snapshot] of the state in which the timer
    callback runs.  [report_prints_later] shows that the snapshot printed
    is not the one of the request: playback goes on for 1500 ms, and a
    demo event injected meanwhile is what the report shows. *)

From S2P Require Import Prelude JsRuntime Peaks Analyzer Timers Alerts DisplayBuffer AppState Playback Scheduler.
From Stdlib Require Import String QArith Qround List ZArith Lia Bool.
Import ListNotations.
Open Scope Q_scope.
Open Scope string_scope.

(** ** The code *)

(** [m.id], lines 113-115. *)
Definition model_id (m : Model) : string :=
  match m with mit_bih => "mit-bih" | ptb => "ptb" | physionet => "physionet" end.

(** [m.name], lines 113-115. *)
Definition selector_name (m : Model) : string :=
  match m with mit_bih => "MIT-BIH" | ptb => "PTB-XL" | physionet => "PhysioNet" end.

(** [const models = [...]], lines 112-116, in display order. *)
Definition selector_models : list Model := [mit_bih; ptb; physionet].

Definition model_eqb (m m' : Model) : bool := String.eqb (model_id m) (model_id m').

(** A button of [ModelSelector], lines 121-131: its label and whether it
    is highlighted ([activeModel === m.id]). *)
Definition selector_button (s : App) (m : Model) : string * bool :=
  (selector_name m, model_eqb (activeModel s) m).

(** The click of line 123: [onSelect(m.id)] with [onSelect = setActiveModel]. *)
Definition selector_click (m : Model) (s : App) : App := commit (set_activeModel m s).

(** The header's engine name, line 543. *)
Definition engine_label (m : Model) : string :=
  if model_eqb m mit_bih then "MIT-BIH" else if model_eqb m ptb then "PTB-XL" else "PhysioNet".

(** The model description, lines 687-689. *)
Definition model_description (m : Model) : string :=
  match m with
  | mit_bih => "MIT-BIH Database: The gold standard for arrhythmia detection. Contains 48 half-hour excerpts of 2-channel ambulatory ECG recordings."
  | ptb => "PTB Diagnostic Database: Specialized for myocardial infarction detection. Contains 549 records from 290 subjects."
  | physionet => "PhysioNet Challenge 2017: Focused on AFib detection from single-lead short recordings. High noise robustness."
  end.

(** The model in the report, line 801. *)
Definition report_model_name (m : Model) : string :=
  if model_eqb m mit_bih then "MIT-BIH Arrhythmia Database"
  else if model_eqb m ptb then "PTB Diagnostic ECG Database"
  else "PhysioNet Challenge 2017".

(** The monitor's labels: the feed (line 589), the source (line 595)
    and the engine status (line 643). *)
Definition feed_label (s : App) : string :=
  if name_truthy (uploadedFileName s) then "Live Feed" else "Offline".

Definition source_label (s : App) : string :=
  match uploadedFileName s with
  | Some n => if name_truthy (Some n) then n else "NO SIGNAL SOURCE"
  | None => "NO SIGNAL SOURCE"
  end.

Definition engine_status (s : App) : string :=
  if name_truthy (uploadedFileName s) then "Heuristic V3" else "System Idle".

(** The progress bar, lines 600-605: drawn with width [playbackProgress]
    when a file is loaded. *)
Definition progress_bar (s : App) : option Q :=
  if name_truthy (uploadedFileName s) then Some (playbackProgress s) else None.

(** The metrics cards, lines 694-758. *)
Record Metrics := mkMetrics {
  m_heart_rate : Z;
  m_qt : string;
  m_pr : string;
  m_qrs : string;
  m_risk : Z;
  m_pathology : Z;
  m_artifact : Z
}.

Definition metrics (s : App) : Metrics :=
  let uploaded := name_truthy (uploadedFileName s) in
  mkMetrics
    (js_round (heartRate s))
    (if negb uploaded then "--" else if model_eqb (activeModel s) ptb then "460" else "420")
    (if negb uploaded then "--" else "160")
    (if negb uploaded then "--" else if model_eqb (activeModel s) ptb then "110" else "90")
    (js_round (inject_Z (riskScore s)))
    (js_round (inject_Z (riskScore s) * (6 # 10)))
    (js_round (inject_Z (riskScore s) * (1 # 10))).

(** The printed report, lines 797-831: the model, the vitals snapshot
    and the findings ([formatDate(new Date())] and the random patient id
    of lines 791-793 are not modelled). *)
Record Report := mkReport {
  rep_model : string;
  rep_heart_rate : Z;
  rep_risk : Z;
  rep_classification : string;
  rep_confidence : Z;
  rep_findings : string
}.

Definition report_snapshot (s : App) : Report :=
  mkReport (report_model_name (activeModel s)) (js_round (heartRate s))
    (js_round (inject_Z (riskScore s))) (currentRhythm s) (js_round (confidence s))
    (aiExplanation s).

(** The patient id of the report, line 793:
    [Math.floor(Math.random() * 100000)], a fresh draw at each render. *)
Definition patient_id (rand : Q) : Z := Qfloor (rand * 100000).

(** ** The report prints the state 1500 ms after the request *)

(** The demo recording playing; a report is requested at once, and the
    frames go on at one per 17 ms, frame 75 injecting the critical demo
    event (draws as in [Scheduler.demo_draws]), until the last frame
    before the report timer is due. *)
Definition report_requested : App := commit (generateReport demo_loaded).

Definition report_due_state : App :=
  timed_frames 17 (repeat [] 74 ++ [[1 # 2; 95 # 100]] ++ repeat [] 13) report_requested.

(** The report is printed by the timer callback of [generateReport]
    (lines 320-323), on the state of the page 1500 ms after the request,
    while playback goes on.  In a reachable run, the report timer is the
    first callback due at its deadline, so the page it prints is the
    state reached then; its classification is the demo event injected in
    the meantime ("Non-Sustained V-Tach", risk 88), not the "Normal
    Sinus" shown when the report was requested. *)
Theorem report_prints_later :
  @app_reachable random_demo_source report_due_state /\
  (nowMs report_due_state < nowMs report_requested + 1500)%Z /\
  isGeneratingReport report_due_state = true /\
  (exists q, pop_due (nowMs report_requested + 1500) (timeouts report_due_state)
             = Some ((nowMs report_requested + 1500, cb_report_done)%Z, q)) /\
  isGeneratingReport (app_advance (nowMs report_requested + 1500) report_due_state) = false /\
  rep_classification (report_snapshot report_requested) = "Normal Sinus" /\
  rep_classification (report_snapshot report_due_state) = "Non-Sustained V-Tach" /\
  rep_risk (report_snapshot report_due_state) = 88%Z.
Proof.
  split.
  - apply timed_frames_reachable; [lia|].
    eapply reach_step; [exact demo_loaded_reachable|apply step_report; reflexivity].
  - vm_compute. repeat split; try reflexivity. eexists. reflexivity.
Qed.

(** The header and the selector name the PTB model "PTB-XL", while its
    description and the report name the PTB Diagnostic database, a
    different PhysioNet database. *)
Lemma ptb_names :
  selector_name ptb = "PTB-XL" /\ engine_label ptb = "PTB-XL" /\
  report_model_name ptb = "PTB Diagnostic ECG Database" /\
  String.prefix "PTB Diagnostic Database" (model_description ptb) = true.
Proof. vm_compute. repeat split. Qed.

(** Each button of the selector selects its model and is then the only
    one highlighted. *)
Lemma selector_click_highlight (m : Model) (s : App) :
  map (fun m' => snd (selector_button (selector_click m s) m')) selector_models =
  map (fun m' => model_eqb m m') selector_models.
Proof. reflexivity. Qed.

(** For a draw in [0, 1) the patient id is one of 0 .. 99999. *)
Lemma patient_id_range (rand : Q) :
  0 <= rand < 1 -> (0 <= patient_id rand < 100000)%Z.
Proof.
  intros [H0 H1]. unfold patient_id. split.
  - change 0%Z with (Qfloor 0). apply Qfloor_resp_le. apply Qmult_le_0_compat; [exact H0|discriminate].
  - rewrite Zlt_Qlt. eapply Qle_lt_trans; [apply Qfloor_le|].
    change (inject_Z 100000) with (1 * 100000). apply Qmult_lt_r; [reflexivity|exact H1].
Qed.
