(* ===== verification/Controls.v ===== *)
(** * The header controls and the bars of the page

    [src/src/main.jsx]:
    - the status dot of the header (line 531), the tone of the play
      button (line 558), the report button's spinner and label (lines
      568-569);
    - the confidence figure and bar (lines 664-667), the fill of the risk
      gauge ([RiskGauge], line 105, given [riskScore] at line 741).

    The play button shows the replay icon when [currentRhythm] reads
    "Analysis Complete" ([View.play_icon]).  [ui_inv] is an invariant of
    the reachable states of [Scheduler.app_step] that links that text to
    the playback state: "Analysis Complete" is only set by the
    completion branch of [updateSimulation], and every handler that moves
    the index back or starts playback replaces it.  From it,
    [replay_icon_restarts]: the replay icon is shown only when playback
    is stopped at the end of a loaded recording, and a click then
    restarts it from the first sample; [bars_within_track]: the three
    bars of the page are drawn within their track;
    [stale_revert_overwrites]: the demo revert (lines 425-431) tests the
    [isPlaying] captured when its event was injected, so in any reachable
    state where playback has stopped with such a revert pending, its
    firing takes "Analysis Complete" off the header of the stopped
    recording. *)

From S2P Require Import Prelude JsRuntime Peaks Analyzer Timers Alerts DisplayBuffer.
From S2P Require Import AppState Playback Scheduler View Report.
From Stdlib Require Import String QArith Qround List ZArith Lia Lqa Bool.
Import ListNotations.
Open Scope Q_scope.
Open Scope string_scope.

(** ** The code *)

(** The status dot of the header, line 531. *)
Definition header_dot (s : App) : Tone :=
  if negb (name_truthy (uploadedFileName s)) then slate
  else if isPlaying s then emerald
  else amber.

(** The tone of the play button, line 558. *)
Definition play_button_tone (s : App) : Tone :=
  if isPlaying s then amber
  else if String.eqb (currentRhythm s) "Analysis Complete" then teal
  else emerald.

(** The report button, lines 568-569: a spinner and "Generating..."
    while a report is pending. *)
Definition report_button_spinner (s : App) : bool := isGeneratingReport s.

Definition report_button_label (s : App) : string :=
  if isGeneratingReport s then "Generating..." else "Report".

(** The confidence figure [Math.round(confidence)], line 664, and the
    width of its bar in percent, line 667. *)
Definition confidence_text (s : App) : Z := js_round (confidence s).

Definition confidence_bar (s : App) : Q := confidence s.

(** The fill of the risk gauge in percent, [width: `${risk}%`], line 105. *)
Definition gauge_width (risk : Z) : Q := inject_Z risk.

(** ** The invariant *)

Definition AC : string := "Analysis Complete".

Definition not_final (r : string) : Prop := String.eqb r AC = false.

(** What a pending demo revert would write into [currentRhythm]. *)
Definition cb_final_ok (c : Callback) : Prop :=
  match c with
  | cb_revert _ (Some ar) => not_final (rhythm ar)
  | _ => True
  end.

Definition base_inv (s : App) : Prop :=
  0 <= confidence s <= 100 /\
  (forall ar, analysisResult s = Some ar -> not_final (rhythm ar)) /\
  Forall (fun e => cb_final_ok (snd e)) (timeouts s).

(** "Analysis Complete" is shown only when playback is stopped at the
    end of a loaded recording that has an analysis. *)
Definition final_ok (s : App) : Prop :=
  String.eqb (currentRhythm s) AC = true ->
  isPlaying s = false /\ name_truthy (uploadedFileName s) = true /\
  (Z.of_nat (length (ecgData s)) <= dataIndex s)%Z /\ analysisResult s <> None.

Definition ui_inv (s : App) : Prop := base_inv s /\ final_ok s.

(** The invariant of the states that do not show "Analysis Complete". *)
Definition run_ok (s : App) : Prop := base_inv s /\ not_final (currentRhythm s).

Definition base_view (s : App) := (confidence s, analysisResult s, timeouts s).

Definition ui_view (s : App) :=
  (base_view s, currentRhythm s, isPlaying s, uploadedFileName s, ecgData s, dataIndex s).

(** ** Lemmas *)

Lemma base_inv_view (s s' : App) : base_view s' = base_view s -> base_inv s -> base_inv s'.
Proof. unfold base_view, base_inv. intro H. injection H as -> -> ->. tauto. Qed.

Lemma ui_inv_view (s s' : App) : ui_view s' = ui_view s -> ui_inv s -> ui_inv s'.
Proof.
  unfold ui_view, ui_inv. intro H. injection H as Hc Ha Ht Hr Hp Hu He Hi.
  intros [Hb0 Hf]. split.
  - revert Hb0. apply base_inv_view. unfold base_view. now rewrite Hc, Ha, Ht.
  - unfold final_ok in *. rewrite Hr, Hp, Hu, He, Hi, Ha. exact Hf.
Qed.

(** Proved on an abstract state, so that the kernel does not unfold the
    handler that computed it. *)
Lemma ui_view_frameRequested (b : bool) (s : App) :
  ui_view (set_frameRequested b s) = ui_view s.
Proof. reflexivity. Qed.

Lemma run_ok_ui (s : App) : run_ok s -> ui_inv s.
Proof. intros [Hb Hn]. split; [exact Hb|]. unfold final_ok, not_final in *. congruence. Qed.

Lemma run_ok_view (s s' : App) :
  base_view s' = base_view s -> currentRhythm s' = currentRhythm s -> run_ok s -> run_ok s'.
Proof. intros Hb Hr [Hi Hn]. split; [exact (base_inv_view s s' Hb Hi)|now rewrite Hr]. Qed.

(** [vsame] closes a [base_view] or [ui_view] equation of handlers that
    leave the fields it reads alone. *)
Ltac vsame := unfold ui_view, base_view, app_triggerAlert; app_simpl; reflexivity.

Lemma labels_not_final (r : string) : In r rhythm_labels -> not_final r.
Proof. unfold rhythm_labels. simpl. intuition (subst; reflexivity). Qed.

Lemma analysis_not_final (rows : list Q) : not_final (rhythm (analyzeECGSignal rows)).
Proof. apply labels_not_final. apply (analyzeECGSignal_wf rows). Qed.

(** A timer whose callback is harmless keeps the base invariant. *)
Lemma base_inv_setTimeout (d : Z) (c : Callback) (s : App) :
  cb_final_ok c -> base_inv s ->
  base_inv (set_timeouts (setTimeout (nowMs s) d c (timeouts s)) s).
Proof.
  intros Hc (H1 & H2 & H3). unfold base_inv, setTimeout. app_simpl.
  refine (conj H1 (conj H2 _)). apply Forall_app. split; [exact H3|]. now repeat constructor.
Qed.

Lemma base_inv_trigger (m : string) (ty : Severity) (s : App) :
  base_inv s -> base_inv (app_triggerAlert m ty s).
Proof.
  intro H. unfold app_triggerAlert.
  apply (base_inv_setTimeout ALERT_TTL (cb_remove_alert m) (set_alertList _ s) I).
  revert H. apply base_inv_view. vsame.
Qed.

Lemma ui_inv_trigger (m : string) (ty : Severity) (s : App) :
  ui_inv s -> ui_inv (app_triggerAlert m ty s).
Proof.
  intros [Hb Hf]. split; [now apply base_inv_trigger|]. revert Hf. unfold final_ok, app_triggerAlert.
  app_simpl. exact (fun H => H).
Qed.

Lemma run_ok_trigger (m : string) (ty : Severity) (s : App) :
  run_ok s -> run_ok (app_triggerAlert m ty s).
Proof. intros [Hb Hn]. split; [now apply base_inv_trigger|exact Hn]. Qed.

(** A state at an index before the end, or without analysis, does not
    show "Analysis Complete". *)
Lemma final_ok_index (s : App) :
  final_ok s -> (dataIndex s < Z.of_nat (length (ecgData s)))%Z -> not_final (currentRhythm s).
Proof.
  unfold final_ok, not_final. intros Hf Hi.
  destruct (String.eqb (currentRhythm s) AC) eqn:E; [|reflexivity].
  destruct (Hf eq_refl) as (_ & _ & Hl & _). lia.
Qed.

Lemma final_ok_none (s : App) :
  final_ok s -> analysisResult s = None -> not_final (currentRhythm s).
Proof.
  unfold final_ok, not_final. intros Hf Ha.
  destruct (String.eqb (currentRhythm s) AC) eqn:E; [|reflexivity].
  destruct (Hf eq_refl) as (_ & _ & _ & Hn). contradiction.
Qed.

Lemma file_name_ok_truthy (name : string) :
  file_name_ok name = true -> name_truthy (Some name) = true.
Proof.
  intro H. unfold name_truthy. destruct (String.eqb name "") eqn:E; [|reflexivity].
  apply String.eqb_eq in E. subst name. discriminate H.
Qed.

Lemma run_ok_jitter (r : Rand) (s : App) : run_ok s -> run_ok (fst (jitter r s)).
Proof.
  unfold jitter. destruct (analysisResult s); [|auto].
  destruct (_ && _); [destruct (next_random r)|]; intro H; simpl fst; [|exact H].
  revert H. apply run_ok_view; vsame.
Qed.

Lemma run_ok_end_frame (np : list Q) (s : App) : run_ok s -> run_ok (end_frame np s).
Proof. apply run_ok_view; unfold end_frame; vsame. Qed.

Lemma run_callback_ok (c : Callback) (s : App) :
  cb_final_ok c -> ui_inv s -> ui_inv (run_callback c s).
Proof.
  intros Hc Hs. destruct c as [m|p [ar|]|]; simpl.
  - revert Hs. apply ui_inv_view. vsame.
  - destruct p; [|exact Hs]. apply run_ok_ui. split; [|exact Hc].
    revert Hs. intros [Hb _]. revert Hb. apply base_inv_view. vsame.
  - destruct p; exact Hs.
  - revert Hs. apply ui_inv_view. vsame.
Qed.

Lemma ui_inv_advance (t : Z) (s : App) : ui_inv s -> ui_inv (app_advance t s).
Proof.
  intro Hs. unfold app_advance, advance.
  destruct (fire_due_inv run_callback
    (fun q s => ui_inv s /\ Forall (fun e => cb_final_ok (snd e)) q))
    with (n := length (timeouts s)) (t := t) (q := timeouts s) (s := s) as [Ha Hq].
  - intros t' q s0 e q' Hp [H1 H2]. rewrite Forall_forall in H2.
    pose proof (pop_due_spec t' q) as Hsp. rewrite Hp in Hsp. destruct Hsp as [_ [_ Hsub]].
    split.
    + apply run_callback_ok; [apply H2; eapply pop_due_mem; exact Hp|exact H1].
    + apply Forall_forall. intros x Hx. apply H2, Hsub, Hx.
  - split; [exact Hs|]. apply Hs.
  - destruct (fire_due run_callback (length (timeouts s)) t (timeouts s) s) as [q s'].
    simpl in *. destruct Ha as [(H1 & H2 & _) Hf]. split; [split; [exact H1|split; [exact H2|exact Hq]]|].
    exact Hf.
Qed.

Lemma ui_inv_togglePlay (s : App) : ui_inv s -> ui_inv (togglePlay s).
Proof.
  intros [Hb Hf]. unfold togglePlay.
  destruct (negb _); [now apply ui_inv_trigger|].
  destruct (Z.leb_spec (Z.of_nat (length (ecgData s))) (dataIndex s)).
  - cbv zeta. apply run_ok_ui. destruct (analysisResult s) as [ar|] eqn:Ea; app_simpl; rewrite Ea.
    + split; [revert Hb; apply base_inv_view; vsame|]. app_simpl. now apply (proj1 (proj2 Hb)).
    + split; [revert Hb; apply base_inv_view; vsame|]. app_simpl. exact (final_ok_none s Hf Ea).
  - apply run_ok_ui. split; [revert Hb; apply base_inv_view; vsame|].
    app_simpl. now apply final_ok_index.
Qed.

Lemma ui_inv_handleFileUpload (f : option string) (s : App) :
  ui_inv s -> ui_inv (handleFileUpload f s).
Proof.
  intros Hs. unfold handleFileUpload. destruct f as [name|]; [|exact Hs].
  destruct (file_name_ok name) eqn:E; simpl negb; [|now apply ui_inv_trigger].
  destruct Hs as [Hb Hf]. split; [revert Hb; apply base_inv_view; vsame|].
  unfold final_ok in *. app_simpl. intro H. destruct (Hf H) as (H1 & _ & H3 & H4).
  split; [exact H1|split; [now apply file_name_ok_truthy|split; assumption]].
Qed.

Lemma ui_inv_onFileLoaded (rows : list Q) (s : App) : ui_inv s -> ui_inv (onFileLoaded rows s).
Proof.
  intros [(_ & _ & Hq) _]. apply run_ok_ui. unfold onFileLoaded. cbv zeta.
  assert (H : run_ok (set_confidence (995 # 10) (set_aiExplanation (explanation (analyzeECGSignal rows))
    (set_riskScore (risk (analyzeECGSignal rows)) (set_currentRhythm (rhythm (analyzeECGSignal rows))
    (set_heartRate (hr (analyzeECGSignal rows)) (set_analysisResult (Some (analyzeECGSignal rows))
    (set_playbackProgress 0 (set_dataIndex 0 (set_ecgData rows s)))))))))).
  { unfold run_ok, base_inv. app_simpl. refine (conj (conj _ (conj _ Hq)) (analysis_not_final rows)).
    - lra.
    - intros ar Ha. injection Ha as <-. apply analysis_not_final. }
  match goal with |- run_ok (set_isPlaying true ?x) => apply (run_ok_view x); [vsame|vsame|] end.
  destruct (alert _); [now apply run_ok_trigger|exact H].
Qed.

Lemma ui_inv_generateReport (s : App) : ui_inv s -> ui_inv (generateReport s).
Proof.
  intros Hs. unfold generateReport. destruct (negb _); [now apply ui_inv_trigger|].
  destruct Hs as [Hb Hf]. split.
  - apply (base_inv_setTimeout 1500 cb_report_done (set_isGeneratingReport true s) I).
    revert Hb. apply base_inv_view. vsame.
  - revert Hf. unfold final_ok. app_simpl. exact (fun H => H).
Qed.

Section WithSource.

Context `{ES : EventSource}.

(** The contract of an event source: no event reads "Analysis Complete". *)
Hypothesis source_final :
  forall r ev r', pick_event r = (Some ev, r') -> not_final (ev_r ev).

Lemma run_ok_inject (r : Rand) (s : App) : run_ok s -> run_ok (fst (@injectDemoEvents ES r s)).
Proof.
  intros [Hb Hn]. unfold injectDemoEvents.
  destruct (pick_event r) as [[ev|] r'] eqn:E; [|split; assumption].
  assert (Ha : run_ok (apply_demo_event ev s)).
  { unfold apply_demo_event.
    assert (H0 : run_ok (set_aiExplanation (ev_expl ev) (set_riskScore (ev_score ev)
                    (set_currentRhythm (ev_r ev) s)))).
    { split; [revert Hb; apply base_inv_view; vsame|]. app_simpl. exact (source_final _ _ _ E). }
    destruct (negb _); [now apply run_ok_trigger|exact H0]. }
  simpl fst. destruct Ha as [Hb' Hn']. split; [|exact Hn'].
  apply base_inv_setTimeout; [|exact Hb']. simpl.
  destruct (analysisResult (apply_demo_event ev s)) eqn:Ea; [|exact I].
  now apply (proj1 (proj2 Hb')).
Qed.

Lemma consume_loop_view (n : nat) (s : App) (acc : list Q) :
  base_view (fst (consume_loop n s acc)) = base_view s /\
  currentRhythm (fst (consume_loop n s acc)) = currentRhythm s.
Proof.
  revert s acc. induction n as [|n IH]; intros s acc; simpl; [split; reflexivity|].
  destruct (_ <? _)%Z; [|apply IH].
  match goal with |- context [consume_loop n ?x ?a] => destruct (IH x a) as [H1 H2] end.
  rewrite H1, H2. split; reflexivity.
Qed.

Lemma ui_inv_updateSimulation (r : Rand) (s : App) :
  ui_inv s -> ui_inv (fst (@updateSimulation ES r s)).
Proof.
  intros [Hb Hf]. unfold updateSimulation. cbv zeta. app_simpl.
  destruct (name_truthy _ && _) eqn:Ec.
  - destruct (Z.leb_spec (Z.of_nat (length (ecgData s))) (dataIndex s)) as [Hle|Hlt].
    + simpl fst. destruct (analysisResult s) as [ar|] eqn:Ea.
      * apply (ui_inv_view (show_final ar (set_playbackProgress 100 (set_isPlaying false
                 (set_timeRef (timeRef s + (1 # 60)) s))))); [apply ui_view_frameRequested|].
        unfold show_final. cbv zeta. apply ui_inv_trigger.
        apply andb_true_iff in Ec as [Hn _]. split.
        -- destruct Hb as (_ & H2 & H3). unfold base_inv. app_simpl.
           refine (conj _ (conj H2 H3)). lra.
        -- unfold final_ok. app_simpl. intros _. rewrite Ea.
           split; [reflexivity|split; [exact Hn|split; [lia|discriminate]]].
      * apply run_ok_ui. split; [revert Hb; apply base_inv_view; vsame|].
        app_simpl. exact (final_ok_none s Hf Ea).
    + pose proof (consume_loop_view SAMPLES_PER_FRAME (set_timeRef (timeRef s + (1 # 60)) s) [])
        as [Hv Hr].
      destruct (consume_loop _ _ []) as [s1 np]. simpl fst in Hv, Hr.
      assert (H1 : run_ok s1).
      { split; [revert Hb; apply base_inv_view; rewrite Hv; vsame|].
        rewrite Hr. app_simpl. now apply final_ok_index. }
      match goal with |- context [jitter r ?x] =>
        assert (H2 : run_ok x) by (revert H1; apply run_ok_view; vsame) end.
      pose proof (run_ok_jitter r _ H2) as H3. destruct (jitter r _) as [s3 r3]. simpl fst in H3.
      apply run_ok_ui. destruct (Z.rem (dataIndex s3) 300 =? 0)%Z.
      * pose proof (run_ok_inject r3 s3 H3) as H4. destruct (injectDemoEvents r3 s3) as [s4 r4].
        cbn [fst] in H4 |- *. exact (run_ok_end_frame np s4 H4).
      * cbn [fst]. exact (run_ok_end_frame np s3 H3).
  - simpl fst. split; [revert Hb; apply base_inv_view; unfold end_frame; vsame|].
    revert Hf. unfold final_ok, end_frame. app_simpl. exact (fun H => H).
Qed.

Lemma ui_inv_commit (s : App) : ui_inv s -> ui_inv (commit s).
Proof. apply ui_inv_view. vsame. Qed.

Lemma ui_inv_reachable (s : App) : @app_reachable ES s -> ui_inv s.
Proof.
  induction 1 as [|s s' _ IH Hs].
  - split; [|discriminate]. unfold base_inv. simpl. split; [lra|split; [discriminate|constructor]].
  - destruct Hs as [r s _|t s _|s|f s|rows s _|s _|m s]; apply ui_inv_commit.
    + now apply ui_inv_updateSimulation.
    + now apply ui_inv_advance.
    + now apply ui_inv_togglePlay.
    + now apply ui_inv_handleFileUpload.
    + now apply ui_inv_onFileLoaded.
    + now apply ui_inv_generateReport.
    + revert IH. apply ui_inv_view. vsame.
Qed.

End WithSource.

Lemma random_demo_source_final (r : Rand) (ev : DemoEvent) (r' : Rand) :
  @pick_event random_demo_source r = (Some ev, r') -> not_final (ev_r ev).
Proof.
  cbn [pick_event random_demo_source]. unfold demo_pick. destruct (next_random r) as [x r1].
  destruct ((6 # 10) <js x); [|discriminate].
  destruct ((92 # 100) <js x).
  - intro H. injection H as <- _. reflexivity.
  - destruct (next_random r1) as [y r2]. intro H. injection H as Hn _.
    apply nth_error_In in Hn. simpl in Hn. intuition (subst; reflexivity).
Qed.

Lemma ui_inv_demo (s : App) : @app_reachable random_demo_source s -> ui_inv s.
Proof. exact (ui_inv_reachable random_demo_source_final s). Qed.

Lemma js_round_percent (x : Q) : 0 <= x <= 100 -> (0 <= js_round x <= 100)%Z.
Proof.
  intros [H0 H1]. unfold js_round. split.
  - change 0%Z with (Qfloor 0). apply Qfloor_resp_le. lra.
  - change 100%Z with (Qfloor (100 + (1 # 2))). apply Qfloor_resp_le. lra.
Qed.

(** C25. The play button shows the replay icon only when playback is
    stopped at the end of a loaded recording: in every reachable state
    with the replay icon, playback is off, the button is teal and the
    header reads "Analysis Complete"; a click then restarts the
    recording: the index returns to 0, the display is cleared and
    playback starts. *)
Theorem replay_icon_restarts (s : App) :
  @app_reachable random_demo_source s -> play_icon s = icon_replay ->
  isPlaying s = false /\ play_button_tone s = teal /\ header_status s = "Analysis Complete" /\
  dataIndex (togglePlay s) = 0%Z /\ displayData (togglePlay s) = [] /\
  isPlaying (togglePlay s) = true.
Proof.
  intros Hr Hi. destruct (ui_inv_demo s Hr) as [_ Hf].
  unfold play_icon in Hi. fold AC in Hi. destruct (String.eqb (currentRhythm s) AC) eqn:E;
    [|destruct (isPlaying s); discriminate].
  destruct (Hf E) as (Hp & Hn & Hl & _).
  unfold play_button_tone, header_status, togglePlay. fold AC. rewrite Hp, Hn, E. cbn [negb].
  rewrite (proj2 (Z.leb_le _ _) Hl). cbv zeta.
  app_simpl. destruct (analysisResult s); app_simpl; repeat split; reflexivity.
Qed.

(** A demo recording played to its end (frame 101 of
    [Scheduler.demo_played]) shows the replay icon. *)
Lemma replay_icon_restarts_witness :
  play_icon demo_played = icon_replay /\
  isPlaying demo_played = false /\ play_button_tone demo_played = teal /\
  header_status demo_played = "Analysis Complete" /\
  dataIndex (togglePlay demo_played) = 0%Z /\ displayData (togglePlay demo_played) = [] /\
  isPlaying (togglePlay demo_played) = true.
Proof.
  assert (Hi : play_icon demo_played = icon_replay) by (vm_compute; reflexivity).
  split; [exact Hi|]. apply replay_icon_restarts; [|exact Hi].
  apply timed_frames_reachable; [lia|exact demo_loaded_reachable].
Defined.

(** The three bars of the page stay within their track in every
    reachable state: the risk gauge's fill ([riskScore]%), the
    confidence bar ([confidence]%) and the progress bar
    ([playbackProgress]%) are between 0 and 100 percent wide, and the
    confidence figure [Math.round(confidence)] is between 0 and 100. *)
Theorem bars_within_track (s : App) :
  @app_reachable random_demo_source s ->
  0 <= gauge_width (riskScore s) <= 100 /\ 0 <= confidence_bar s <= 100 /\
  (forall w, progress_bar s = Some w -> 0 <= w <= 100) /\
  (0 <= confidence_text s <= 100)%Z.
Proof.
  intro Hr. destruct (ui_inv_demo s Hr) as [(Hc & _) _].
  destruct (app_reachable_inv random_demo_source_ok s Hr) as [(_ & Hp & _ & _ & Hk & _) _].
  unfold risk_ok in Hk. unfold gauge_width, confidence_bar, confidence_text, progress_bar.
  split; [|split; [exact Hc|split; [|now apply js_round_percent]]].
  - split; [change 0 with (inject_Z 0)|change 100 with (inject_Z 100)]; rewrite <- Zle_Qle; lia.
  - intro w. destruct (name_truthy _); [|discriminate]. intro H. injection H as <-. exact Hp.
Qed.

Lemma bars_within_track_witness :
  0 <= gauge_width (riskScore demo_played) <= 100 /\ 0 <= confidence_bar demo_played <= 100 /\
  (forall w, progress_bar demo_played = Some w -> 0 <= w <= 100) /\
  (0 <= confidence_text demo_played <= 100)%Z.
Proof.
  apply bars_within_track. apply timed_frames_reachable; [lia|exact demo_loaded_reachable].
Defined.

Lemma run_callback_playback (c : Callback) (s : App) :
  isPlaying (run_callback c s) = isPlaying s /\
  playbackProgress (run_callback c s) = playbackProgress s /\
  uploadedFileName (run_callback c s) = uploadedFileName s.
Proof. destruct c as [m|[] [ar|]|]; repeat split. Qed.

Lemma run_callback_not_final (c : Callback) (s : App) :
  cb_final_ok c -> not_final (currentRhythm s) -> not_final (currentRhythm (run_callback c s)).
Proof. destruct c as [m|[] [ar|]|]; cbn; auto. Qed.

(** C28. The demo revert captures [isPlaying] when the event is injected
    (lines 425-431), not when it fires: in every reachable state where
    playback is stopped and a revert captured while playing is pending,
    advancing the clock past its deadline rewrites the rhythm text, so
    the header no longer reads "Analysis Complete" although playback
    stays stopped with the same progress. *)
Theorem stale_revert_overwrites (s : App) (d t : Z) (ar : AnalysisResult) :
  @app_reachable random_demo_source s -> isPlaying s = false ->
  In (d, cb_revert true (Some ar)) (timeouts s) -> (d <= t)%Z ->
  header_status (app_advance t s) <> "Analysis Complete" /\
  isPlaying (app_advance t s) = false /\
  playbackProgress (app_advance t s) = playbackProgress s.
Proof.
  intros Hr Hp Hin Ht. destruct (ui_inv_demo s Hr) as [(_ & _ & Hq) _].
  unfold app_advance, advance.
  pose proof (fire_due_all run_callback (length (timeouts s)) t (timeouts s) s (le_n _)) as Hall.
  destruct (fire_due_inv run_callback
    (fun q x => (In (d, cb_revert true (Some ar)) q \/ not_final (currentRhythm x)) /\
                Forall (fun e => cb_final_ok (snd e)) q /\
                isPlaying x = false /\ playbackProgress x = playbackProgress s /\
                uploadedFileName x = uploadedFileName s))
    with (n := length (timeouts s)) (t := t) (q := timeouts s) (s := s) as (H1 & _ & H3 & H4 & _).
  - intros t' q x e q' Hpop (Hor & Hf & Hx3 & Hx4 & Hx5).
    pose proof (pop_due_spec t' q) as Hsp. rewrite Hpop in Hsp. destruct Hsp as [_ [_ Hsub]].
    rewrite Forall_forall in Hf.
    assert (Hc : cb_final_ok (snd e)) by (apply Hf; eapply pop_due_mem; exact Hpop).
    destruct (run_callback_playback (snd e) x) as (R1 & R2 & R3).
    split; [|split; [apply Forall_forall; intros y Hy; apply Hf, Hsub, Hy|repeat split; congruence]].
    destruct Hor as [Hi|Hn].
    + destruct (pop_due_in _ _ _ _ _ Hpop Hi) as [Heq|Hi']; [|now left].
      right. rewrite <- Heq. exact (Hf _ Hi).
    + right. now apply run_callback_not_final.
  - split; [now left|split; [exact Hq|repeat split; exact Hp]].
  - destruct (fire_due run_callback (length (timeouts s)) t (timeouts s) s) as [q s'].
    cbn [fst snd] in *. destruct H1 as [Hi|Hn].
    + rewrite Forall_forall in Hall. specialize (Hall _ Hi). cbn [fst] in Hall. lia.
    + unfold header_status. app_simpl. rewrite H3. fold AC. unfold not_final in Hn. rewrite Hn.
      split; [destruct (negb _); discriminate|split; [reflexivity|exact H4]].
Qed.

(** The demo recording played to its end ([Scheduler.demo_played], at
    1717 ms) reads "Analysis Complete" while the revert of the event of
    frame 75 is still pending for 5275 ms; 4 s later the status is gone. *)
Lemma stale_revert_overwrites_witness :
  header_status demo_played = "Analysis Complete" /\
  (header_status (app_advance 5717 demo_played) <> "Analysis Complete" /\
   isPlaying (app_advance 5717 demo_played) = false /\
   playbackProgress (app_advance 5717 demo_played) = playbackProgress demo_played).
Proof.
  split; [vm_compute; reflexivity|].
  apply (stale_revert_overwrites demo_played 5275 5717 (analyzeECGSignal demo_rows)).
  - apply timed_frames_reachable; [lia|exact demo_loaded_reachable].
  - vm_compute. reflexivity.
  - apply (nth_error_In _ 1). vm_compute. reflexivity.
  - lia.
Defined.
