(* ===== verification/Cards.v ===== *)
(** * The metric cards, the risk card and the alert overlay

    [src/src/main.jsx]:
    - [MetricCard] (lines 62-86): the colour classes come from the object
      [colorMap] (lines 63-71) by [colorMap[color].split(' ')]: the
      first word is the colour of the value (line 78), the rest joined
      back is the gradient of the card and its last word ([pop()]) its
      border (line 74); [colorMap[color]] of a colour it does not list is
      [undefined], and [undefined.split] throws a [TypeError], which
      [MetricCard] models as [None];
    - the four cards the page draws (lines 696-721);
    - the risk card (lines 725-758): its glow, icon, figure, gauge and
      the two derived percentages with their dots;
    - the alert overlay (lines 616-625): one banner per alert, keyed by
      its id, with the tone, icon and text tone of its type, and a
      timestamp line for every type but [info];
    - the zones behind the risk gauge (lines 98-100) and the style of
      the ECG trace (lines 489-493).

    [String.prototype.split] on one character is [Parse.split_on];
    [Array.prototype.join] is [js_join], from the language standard.
    [gauge_fill_zone]: the gauge's fill has the colour of the zone it
    ends in except on the zone boundaries 40 and 70. *)

From S2P Require Import Prelude JsRuntime Peaks Analyzer Timers Alerts DisplayBuffer.
From S2P Require Import AppState Playback Scheduler Parse View Report Controls.
From Stdlib Require Import String Ascii QArith List ZArith Lia Bool.
Import ListNotations.
Open Scope Q_scope.
Open Scope string_scope.

(** ** JavaScript arrays of strings *)

Definition space : ascii := " "%char.

(** [arr.join(sep)]. *)
Fixpoint js_join (sep : ascii) (l : list string) : string :=
  match l with
  | [] => ""
  | [x] => x
  | x :: l' => x ++ String sep (js_join sep l')
  end.

(** [o[k]] on an object literal of strings: its own properties in
    order; any other key yields a value without [split] ([undefined]
    or an inherited method), so the call that follows throws. *)
Fixpoint js_prop (k : string) (o : list (string * string)) : option string :=
  match o with
  | [] => None
  | (k', v) :: o' => if String.eqb k k' then Some v else js_prop k o'
  end.

(** [x && <elem/>] for an optional string prop: rendered when truthy. *)
Definition js_and_str (o : option string) : option string :=
  if name_truthy o then o else None.

(** ** [MetricCard], lines 62-86 *)

Definition colorMap : list (string * string) :=
  [ ("cyan", "text-cyan-400 from-cyan-500/20 to-cyan-500/5 border-cyan-500/30");
    ("emerald", "text-emerald-400 from-emerald-500/20 to-emerald-500/5 border-emerald-500/30");
    ("rose", "text-rose-400 from-rose-500/20 to-rose-500/5 border-rose-500/30");
    ("amber", "text-amber-400 from-amber-500/20 to-amber-500/5 border-amber-500/30");
    ("blue", "text-blue-400 from-blue-500/20 to-blue-500/5 border-blue-500/30");
    ("slate", "text-slate-400 from-slate-500/20 to-slate-500/5 border-slate-500/30");
    ("teal", "text-teal-400 from-teal-500/20 to-teal-500/5 border-teal-500/30") ].

(** The props of a card; [color] defaults to "cyan", every call of the
    page passes it. *)
Record CardProps := mkCard {
  c_label : string;
  c_value : string;
  c_unit : option string;
  c_color : string;
  c_subtext : option string
}.

(** What a card draws: the classes interpolated into its markup, its
    texts, and the optional unit and subtext. *)
Record CardView := mkCardView {
  cv_gradient : string;
  cv_border : string;
  cv_glow : string;
  cv_label : string;
  cv_value_class : string;
  cv_value : string;
  cv_unit : option string;
  cv_subtext : option string
}.

Definition MetricCard (p : CardProps) : option CardView :=
  match js_prop (c_color p) colorMap with
  | None => None
  | Some e =>
      Some (mkCardView (js_join space (tl (split_on space e))) (last (split_on space e) "")
              ("bg-" ++ c_color p ++ "-500/10") (c_label p) (hd "" (split_on space e))
              (c_value p) (js_and_str (c_unit p)) (js_and_str (c_subtext p)))
  end.

(** The name of a colour as the page writes it. *)
Definition tone_name (t : Tone) : string :=
  match t with
  | slate => "slate" | emerald => "emerald" | amber => "amber"
  | rose => "rose" | blue => "blue" | teal => "teal"
  end.

(** The four cards of the page, lines 696-721; the values are those of
    [Report.metrics], the heart-rate colour is [View.hr_tone] (line
    700). *)
Definition app_metric_cards (s : App) : list CardProps :=
  let m := metrics s in
  [ mkCard "Heart Rate" (js_int_to_string (m_heart_rate m)) (Some "BPM")
      (tone_name (hr_tone (name_truthy (uploadedFileName s)) (heartRate s))) (Some "10s Avg");
    mkCard "QT Interval" (m_qt m) (Some "ms") "cyan" (Some "QTc");
    mkCard "PR Interval" (m_pr m) (Some "ms") "cyan" None;
    mkCard "QRS Width" (m_qrs m) (Some "ms") "cyan" None ].

(** ** The risk card, lines 725-758 *)

Record RiskCard := mkRiskCard {
  rc_glow : bool;
  rc_icon : Tone;
  rc_text : Tone;
  rc_figure : Z;
  rc_gauge : Tone;
  rc_gauge_width : Q;
  rc_pathology_dot : Tone;
  rc_pathology : Z;
  rc_artifact_dot : Tone;
  rc_artifact : Z
}.

Definition risk_card (s : App) : RiskCard :=
  let r := riskScore s in
  let m := metrics s in
  mkRiskCard
    (70 <? r)%Z
    (if (70 <? r)%Z then rose else amber)
    (risk_text_tone (name_truthy (uploadedFileName s)) r)
    (m_risk m)
    (getColor r)
    (gauge_width r)
    (if (40 <? r)%Z then amber else slate)
    (m_pathology m)
    (if (70 <? r)%Z then rose else slate)
    (m_artifact m).

(** ** The alert overlay, lines 616-625 *)

Inductive AlertIcon := icon_zap | icon_info | icon_triangle.

(** Line 618. *)
Definition alert_icon (ty : Severity) : AlertIcon :=
  match ty with critical => icon_zap | info => icon_info | warning => icon_triangle end.

(** The tone of the message, line 620. *)
Definition alert_text_tone (ty : Severity) : Tone :=
  match ty with critical => rose | info => blue | warning => amber end.

(** [alert.type !== 'info'], line 621. *)
Definition alert_shows_time (ty : Severity) : bool :=
  match ty with info => false | _ => true end.

Record Banner := mkBanner {
  b_key : Z;
  b_tone : Tone;
  b_icon : AlertIcon;
  b_text_tone : Tone;
  b_msg : string;
  b_time : bool
}.

Definition alert_banner (a : Alert) : Banner :=
  mkBanner (id a) (alert_tone (type a)) (alert_icon (type a)) (alert_text_tone (type a))
    (msg a) (alert_shows_time (type a)).

Definition alert_overlay (s : App) : list Banner := map alert_banner (alertList s).

(** ** The gauge's zones and the trace style *)

(** The three zones drawn behind the risk gauge, lines 98-100: their
    widths in percent, left to right, and their tones. *)
Definition gauge_zones : list (Z * Tone) := [(40, emerald); (30, amber); (30, rose)]%Z.

(** The zone under the point [x] percent from the left, a zone's right
    end included. *)
Fixpoint zone_at (x : Z) (zs : list (Z * Tone)) : option Tone :=
  match zs with
  | [] => None
  | (w, t) :: zs' => if (x <=? w)%Z then Some t else zone_at (x - w) zs'
  end.

(** The style of the ECG trace, lines 489-493: stroke, stroke width and
    whether the glow class is set. *)
Record TraceStyle := mkTraceStyle { ts_stroke : string; ts_width : string; ts_glow : bool }.

Definition trace_style (s : App) : TraceStyle :=
  if name_truthy (uploadedFileName s)
  then mkTraceStyle "url(#ecgGradient)" "3" true
  else mkTraceStyle "rgba(96, 165, 250, 0.5)" "1" false.

(** ** Lemmas *)

(** The fill of the gauge takes the colour of the zone it ends in, except
    when it ends exactly on a zone boundary: at 40 and 70 the fill
    already has the colour of the next zone. *)
Lemma gauge_fill_zone (r : Z) :
  (0 < r <= 100)%Z ->
  (zone_at r gauge_zones = Some (getColor r) <-> r <> 40%Z /\ r <> 70%Z).
Proof.
  intro Hr. unfold gauge_zones, getColor. cbn [zone_at].
  destruct (Z.eqb_spec r 0); [lia|].
  destruct (Z.leb_spec r 40); [destruct (Z.ltb_spec r 40)|];
    [|assert (r = 40%Z) by lia; subst; split; [discriminate|lia]|].
  - split; [intros _; lia|reflexivity].
  - destruct (Z.ltb_spec r 40); [lia|].
    destruct (Z.leb_spec (r - 40) 30); destruct (Z.ltb_spec r 70);
      try (split; [intros _; lia|reflexivity]);
      try (assert (r = 70%Z) by lia; subst; split; [discriminate|lia]);
      try lia.
    destruct (Z.leb_spec (r - 40 - 30) 30); [split; [intros _; lia|reflexivity]|lia].
Qed.
