(* ===== verification/ReportTimer.v ===== *)
(** * The report timer

    [src/src/main.jsx], lines 314-324 and 562-566: [generateReport] sets
    [isGeneratingReport] and schedules a timer that prints and clears it
    1500 ms later; the report button is [disabled] while a report is
    pending or no file is loaded, so its [onClick] does not fire
    ([Playback.report_disabled], the guard of [Scheduler.step_report]).
    The handler itself does not test [isGeneratingReport]: only the
    button's [disabled] keeps a second report from being scheduled.

    [report_inv] counts the report timers in the host's queue: exactly
    one while [isGeneratingReport] holds and none otherwise, due at most
    1500 ms after the current time.  From it, [report_timer_single] and
    [report_spinner_clears]: advancing the clock by 1500 ms always ends
    the pending report (the spinner of the button goes away). *)

From S2P Require Import Prelude JsRuntime Peaks Analyzer Timers Alerts DisplayBuffer.
From S2P Require Import AppState Playback Scheduler Report.
From Stdlib Require Import String QArith List ZArith Lia Bool Permutation.
Import ListNotations.
Open Scope Z_scope.

(** ** The report timers of a queue *)

Definition is_report_cb (c : Callback) : bool :=
  match c with cb_report_done => true | _ => false end.

Definition report_timers (q : queue Callback) : queue Callback :=
  filter (fun e => is_report_cb (snd e)) q.

Definition report_inv (s : App) : Prop :=
  length (report_timers (timeouts s)) = (if isGeneratingReport s then 1 else 0)%nat /\
  Forall (fun e => fst e <= nowMs s + 1500) (report_timers (timeouts s)).

(** The fields [report_inv] reads. *)
Definition rep_view (s : App) := (isGeneratingReport s, report_timers (timeouts s), nowMs s).

(** ** Queue lemmas *)

Lemma take_first_perm {Cb} (d : Z) (q q' : queue Cb) (e : Z * Cb) :
  take_first d q = Some (e, q') -> Permutation q (e :: q').
Proof.
  revert q'. induction q as [|x q IH]; intros q' H; cbn [take_first] in H; [discriminate|].
  destruct (fst x =? d); [injection H as <- <-; reflexivity|].
  destruct (take_first d q) as [[e' q'']|]; [|discriminate].
  injection H as <- <-. eapply perm_trans; [apply perm_skip, IH; reflexivity|apply perm_swap].
Qed.

(** The timer a pass pops leaves the rest of the queue as it was. *)
Lemma pop_due_perm {Cb} (t : Z) (q q' : queue Cb) (e : Z * Cb) :
  pop_due t q = Some (e, q') -> Permutation q (e :: q').
Proof.
  unfold pop_due. destruct (min_deadline q); [|discriminate].
  destruct (_ <=? t); [apply take_first_perm|discriminate].
Qed.

Lemma report_timers_perm (q q' : queue Callback) :
  Permutation q q' -> Permutation (report_timers q) (report_timers q').
Proof.
  unfold report_timers. induction 1 as [|e q q' _ IH|e e' q|q q' q'' _ IH1 _ IH2]; cbn [filter].
  - constructor.
  - destruct (is_report_cb (snd e)); [apply perm_skip|]; exact IH.
  - destruct (is_report_cb (snd e)), (is_report_cb (snd e')); try apply perm_swap; reflexivity.
  - eapply perm_trans; eassumption.
Qed.

Lemma report_timers_app (q q' : queue Callback) :
  report_timers (q ++ q') = report_timers q ++ report_timers q'.
Proof. apply filter_app. Qed.

Lemma rep_view_inv (s s' : App) : rep_view s' = rep_view s -> report_inv s -> report_inv s'.
Proof. unfold rep_view, report_inv. intro H. injection H as -> -> ->. tauto. Qed.

(** ** The handlers keep the report timers *)

Lemma rep_setTimeout_other (d : Z) (c : Callback) (s : App) :
  is_report_cb c = false ->
  rep_view (set_timeouts (setTimeout (nowMs s) d c (timeouts s)) s) = rep_view s.
Proof.
  intro Hc. unfold rep_view, setTimeout. app_simpl.
  rewrite report_timers_app. cbn [report_timers filter snd]. rewrite Hc, app_nil_r. reflexivity.
Qed.

Lemma rep_trigger (m : string) (ty : Severity) (s : App) :
  rep_view (app_triggerAlert m ty s) = rep_view s.
Proof.
  unfold app_triggerAlert. rewrite (rep_setTimeout_other ALERT_TTL (cb_remove_alert m)
    (set_alertList _ s) eq_refl). reflexivity.
Qed.

Lemma rep_frameRequested (b : bool) (s : App) :
  rep_view (set_frameRequested b s) = rep_view s.
Proof. reflexivity. Qed.

Lemma rep_show_final (ar : AnalysisResult) (s : App) : rep_view (show_final ar s) = rep_view s.
Proof. unfold show_final. rewrite rep_trigger. reflexivity. Qed.

Lemma rep_jitter (r : Rand) (s : App) : rep_view (fst (jitter r s)) = rep_view s.
Proof.
  unfold jitter. destruct (analysisResult s); [|reflexivity].
  destruct (_ && _); [destruct (next_random r)|]; reflexivity.
Qed.

Lemma rep_inject `{EventSource} (r : Rand) (s : App) :
  rep_view (fst (injectDemoEvents r s)) = rep_view s.
Proof.
  unfold injectDemoEvents. destruct (pick_event r) as [[ev|] r']; [|reflexivity].
  cbn [fst]. rewrite rep_setTimeout_other by reflexivity.
  unfold apply_demo_event. destruct (negb _); [rewrite rep_trigger|]; reflexivity.
Qed.

Lemma consume_loop_index (n : nat) (s : App) (acc : list Q) :
  exists i, fst (consume_loop n s acc) = set_dataIndex i s.
Proof.
  revert s acc. induction n as [|n IH]; intros s acc; cbn [consume_loop].
  - exists (dataIndex s). symmetry. apply set_dataIndex_same.
  - destruct (_ <? _); [|apply IH].
    match goal with |- context [consume_loop n ?x ?a] => destruct (IH x a) as [i Hi] end.
    exists i. rewrite Hi. apply set_dataIndex_twice.
Qed.

Lemma rep_updateSimulation `{EventSource} (r : Rand) (s : App) :
  rep_view (fst (updateSimulation r s)) = rep_view s.
Proof.
  unfold updateSimulation. cbv zeta.
  destruct (name_truthy _ && _); [destruct (_ <=? _)|]; cbn [fst].
  - rewrite rep_frameRequested. destruct (analysisResult _); [rewrite rep_show_final|]; reflexivity.
  - destruct (consume_loop_index SAMPLES_PER_FRAME (set_timeRef (timeRef s + (1 # 60)) s) [])
      as [i Hi].
    destruct (consume_loop _ _ []) as [s1 np]. cbn [fst] in Hi. subst s1.
    match goal with |- context [jitter r ?x] =>
      pose proof (rep_jitter r x) as Hj; destruct (jitter r x) as [s3 r3] end.
    cbn [fst] in Hj |- *.
    destruct (_ =? 0).
    + pose proof (rep_inject r3 s3) as Hk. destruct (injectDemoEvents r3 s3) as [s4 r4].
      cbn [fst] in Hk |- *. unfold end_frame. rewrite rep_frameRequested.
      change (rep_view (set_displayData (display_update np (displayData s4)) s4)) with (rep_view s4).
      rewrite Hk, Hj. reflexivity.
    + cbn [fst]. unfold end_frame. rewrite rep_frameRequested.
      change (rep_view (set_displayData (display_update np (displayData s3)) s3)) with (rep_view s3).
      rewrite Hj. reflexivity.
  - unfold end_frame. rewrite rep_frameRequested. reflexivity.
Qed.

Lemma rep_isPlaying (b : bool) (s : App) : rep_view (set_isPlaying b s) = rep_view s.
Proof. reflexivity. Qed.

Lemma rep_togglePlay (s : App) : rep_view (togglePlay s) = rep_view s.
Proof.
  unfold togglePlay. destruct (negb _); [apply rep_trigger|].
  destruct (_ <=? _); [cbv zeta; destruct (analysisResult _)|]; reflexivity.
Qed.

Lemma rep_handleFileUpload (f : option string) (s : App) :
  rep_view (handleFileUpload f s) = rep_view s.
Proof.
  unfold handleFileUpload. destruct f; [destruct (negb _); [apply rep_trigger|]|]; reflexivity.
Qed.

Lemma rep_onFileLoaded (rows : list Q) (s : App) : rep_view (onFileLoaded rows s) = rep_view s.
Proof.
  unfold onFileLoaded. cbv zeta. rewrite rep_isPlaying.
  destruct (alert _); [rewrite rep_trigger|]; reflexivity.
Qed.

Lemma run_callback_generating (c : Callback) (s : App) :
  is_report_cb c = false -> isGeneratingReport (run_callback c s) = isGeneratingReport s.
Proof. destruct c as [m|[] [ar|]|]; try discriminate; reflexivity. Qed.

(** A click on the enabled report button schedules the only report
    timer. *)
Lemma report_inv_generateReport (s : App) :
  report_disabled s = false -> report_inv s -> report_inv (generateReport s).
Proof.
  unfold report_disabled. intros Hd [Hl _]. apply orb_false_iff in Hd as [Hg Hn].
  unfold generateReport. rewrite Hn. rewrite Hg in Hl. apply length_zero_iff_nil in Hl.
  unfold report_inv, setTimeout. app_simpl. rewrite report_timers_app, Hl.
  split; [reflexivity|]. repeat constructor. cbn. lia.
Qed.

Lemma report_inv_advance (t : Z) (s : App) :
  nowMs s <= t -> report_inv s -> report_inv (app_advance t s).
Proof.
  intros Ht [Hl Hf]. unfold app_advance, advance.
  destruct (fire_due_inv run_callback
    (fun q x => length (report_timers q) = (if isGeneratingReport x then 1 else 0)%nat /\
                Forall (fun e => fst e <= nowMs s + 1500) (report_timers q)))
    with (n := length (timeouts s)) (t := t) (q := timeouts s) (s := s) as [H1 H2].
  - intros t' q x e q' Hp [Hq Hqf].
    pose proof (report_timers_perm _ _ (pop_due_perm _ _ _ _ Hp)) as Hperm.
    pose proof (Permutation_Forall Hperm Hqf) as Hf'.
    pose proof (Permutation_length Hperm) as Hlen.
    cbn [report_timers filter] in Hf', Hlen. fold (report_timers q') in Hf', Hlen.
    destruct (is_report_cb (snd e)) eqn:He.
    + destruct e as [d [m|p ar|]]; try discriminate. cbn [snd run_callback]. app_simpl.
      cbn [length] in Hlen. inversion Hf'. split; [destruct (isGeneratingReport x); lia|assumption].
    + rewrite run_callback_generating by exact He. split; [lia|exact Hf'].
  - split; assumption.
  - destruct (fire_due run_callback (length (timeouts s)) t (timeouts s) s) as [q s'].
    cbn [fst snd] in H1, H2. unfold report_inv. app_simpl. split; [exact H1|].
    eapply Forall_impl; [|exact H2]. intros e He. cbv beta in *. lia.
Qed.

Lemma report_inv_commit (s : App) : report_inv s -> report_inv (commit s).
Proof. apply rep_view_inv. reflexivity. Qed.

Lemma report_inv_reachable `{EventSource} (s : App) : app_reachable s -> report_inv s.
Proof.
  induction 1 as [|s s' _ IH Hs]; [split; [reflexivity|constructor]|].
  destruct Hs as [r s _|t s Ht|s|f s|rows s _|s Hd|m s]; apply report_inv_commit.
  - revert IH. apply rep_view_inv, rep_updateSimulation.
  - now apply report_inv_advance.
  - revert IH. apply rep_view_inv, rep_togglePlay.
  - revert IH. apply rep_view_inv, rep_handleFileUpload.
  - revert IH. apply rep_view_inv, rep_onFileLoaded.
  - now apply report_inv_generateReport.
  - revert IH. apply rep_view_inv. reflexivity.
Qed.

Lemma app_advance_timeouts (t : Z) (s : App) :
  timeouts (app_advance t s) = fst (fire_due run_callback (length (timeouts s)) t (timeouts s) s).
Proof. unfold app_advance, advance. destruct (fire_due _ _ _ _ _). reflexivity. Qed.

Lemma report_requested_reachable : @app_reachable random_demo_source report_requested.
Proof. eapply reach_step; [exact demo_loaded_reachable|apply step_report; reflexivity]. Qed.

(** C26. One report at a time: in every reachable state the host's queue
    holds exactly one report timer while [isGeneratingReport] holds and
    none otherwise.  The handler does not test [isGeneratingReport];
    the button's [disabled] (line 566) is what keeps a second report
    from being scheduled. *)
Theorem report_timer_single `{EventSource} (s : App) :
  app_reachable s ->
  length (report_timers (timeouts s)) = (if isGeneratingReport s then 1 else 0)%nat.
Proof. intro Hr. exact (proj1 (report_inv_reachable s Hr)). Qed.

Lemma report_timer_single_witness :
  length (report_timers (timeouts report_requested)) =
  (if isGeneratingReport report_requested then 1 else 0)%nat.
Proof. apply (@report_timer_single random_demo_source). exact report_requested_reachable. Defined.

(** C27. A pending report always ends: in every reachable state where a
    report is being generated, advancing the clock by 1500 ms runs its
    timer, and [isGeneratingReport] (the button's spinner and
    "Generating..." label) is cleared. *)
Theorem report_spinner_clears `{EventSource} (s : App) :
  app_reachable s -> isGeneratingReport s = true ->
  isGeneratingReport (app_advance (nowMs s + 1500) s) = false.
Proof.
  intros Hr _. pose proof (report_inv_reachable s Hr) as Hs. destruct Hs as [_ Hf].
  destruct (report_inv_advance (nowMs s + 1500) s ltac:(lia) (report_inv_reachable s Hr)) as [Hl _].
  assert (He : report_timers (timeouts (app_advance (nowMs s + 1500) s)) = []).
  { destruct (report_timers (timeouts (app_advance (nowMs s + 1500) s))) as [|e l] eqn:E;
      [reflexivity|exfalso].
    assert (Hin : In e (report_timers (timeouts (app_advance (nowMs s + 1500) s))))
      by (rewrite E; left; reflexivity).
    unfold report_timers in Hin. apply filter_In in Hin as [Hin Hrep].
    rewrite app_advance_timeouts in Hin.
    pose proof (fire_due_all run_callback _ (nowMs s + 1500) (timeouts s) s (le_n _)) as Hall.
    rewrite Forall_forall in Hall. specialize (Hall e Hin).
    apply fire_due_incl in Hin. rewrite Forall_forall in Hf.
    specialize (Hf e (proj2 (filter_In _ _ _) (conj Hin Hrep))). lia. }
  rewrite He in Hl. cbn [length] in Hl.
  destruct (isGeneratingReport _); [discriminate|reflexivity].
Qed.

Lemma report_spinner_clears_witness :
  isGeneratingReport report_requested = true /\
  isGeneratingReport (app_advance (nowMs report_requested + 1500) report_requested) = false.
Proof.
  assert (Hg : isGeneratingReport report_requested = true) by (vm_compute; reflexivity).
  split; [exact Hg|]. apply (@report_spinner_clears random_demo_source);
    [exact report_requested_reachable|exact Hg].
Defined.
